(** * host-manager: the host state store and the cluster lifecycle

    A shallow embedding of the Go packages [internal/state] (state.go,
    types.go), [internal/host] (init.go, and the storage detection),
    [internal/kind] (client.go), [internal/server] (server.go) and of
    [main.go], with the properties of the state store, of the host
    initializer, of the request handlers, of the storage detection, of the
    kind client and of the start of the daemon proved about it.

    What lies outside the repository is the environment:
    - the state file at [StateFilePath], read with [ioutil.ReadFile] and
      written with [ioutil.WriteFile];
    - [encoding/json]: file contents are kept up to what [json.Unmarshal]
      makes of them, a document that decodes into a [HostState] or bytes that
      it rejects;
    - the binaries the code shells out to (dnf, kind, podman, mkfs, ...) and
      the EC2 metadata service: each Go function that wraps them is one
      interaction, whose result the environment decides; the kind client and
      the device scan are embedded a second time command by command, over a
      [Shell] and a [Machine] that answer each command;
    - the process the daemon runs in: its user, its environment, its
      arguments and what [syscall.ForkExec] answers;
    - the clock. *)

From Stdlib Require Import Ascii.
From stdpp Require Import base strings gmap list.

Local Open Scope string_scope.
Local Open Scope list_scope.

(** ** internal/state/types.go *)

(** [time.Time], as a count of clock ticks. *)
Definition Time := nat.

(** [ClusterInfo]; the field [Type] is spelled [Type_]. *)
Record ClusterInfo := mkClusterInfo {
  Status : string;
  Created : option Time;
  Type_ : string;
  KubeVirt : bool
}.

(** [HostState]. A Go map is [nil] or allocated: [Clusters] is [None] for the
    nil map, on which a lookup finds nothing, [delete] does nothing and an
    assignment panics. *)
Record HostState := mkHostState {
  Initialized : bool;
  InitializedAt : option Time;
  InstanceType : string;
  StorageType : string;
  StorageDevice : string;
  PackagesInstalled : bool;
  BaseClusterReady : bool;
  RegistryRunning : bool;
  Clusters : option (gmap string ClusterInfo)
}.

(** [StorageConfig]. *)
Record StorageConfig := mkStorageConfig {
  HasNVMe : bool;
  Device : string;
  sc_Type : string
}.

(** [ClusterCreateRequest]. *)
Record ClusterCreateRequest := mkClusterCreateRequest {
  req_Name : string;
  req_KubeVirt : bool
}.

(** [ClusterResponse]. *)
Record ClusterResponse := mkClusterResponse {
  resp_Name : string;
  resp_Status : string;
  resp_Created : option Time;
  resp_Type : string;
  resp_KubeVirt : bool
}.

(** [RegistryStatus]. *)
Record RegistryStatus := mkRegistryStatus {
  reg_Running : bool;
  reg_Port : N;
  reg_URL : string
}.

(** [HealthResponse]. *)
Record HealthResponse := mkHealthResponse {
  health_Status : string;
  health_Initialized : bool;
  health_Version : string
}.

(** The zero value of [HostState], as in [var state HostState] and
    [&state.HostState{Initialized: false}]. *)
Definition zeroHostState : HostState :=
  mkHostState false None "" "" "" false false false None.

(** Field assignments [state.F = v]. *)
Definition set_Initialized (v : bool) (s : HostState) : HostState :=
  mkHostState v (InitializedAt s) (InstanceType s) (StorageType s)
    (StorageDevice s) (PackagesInstalled s) (BaseClusterReady s)
    (RegistryRunning s) (Clusters s).
Definition set_InitializedAt (v : option Time) (s : HostState) : HostState :=
  mkHostState (Initialized s) v (InstanceType s) (StorageType s)
    (StorageDevice s) (PackagesInstalled s) (BaseClusterReady s)
    (RegistryRunning s) (Clusters s).
Definition set_InstanceType (v : string) (s : HostState) : HostState :=
  mkHostState (Initialized s) (InitializedAt s) v (StorageType s)
    (StorageDevice s) (PackagesInstalled s) (BaseClusterReady s)
    (RegistryRunning s) (Clusters s).
Definition set_StorageType (v : string) (s : HostState) : HostState :=
  mkHostState (Initialized s) (InitializedAt s) (InstanceType s) v
    (StorageDevice s) (PackagesInstalled s) (BaseClusterReady s)
    (RegistryRunning s) (Clusters s).
Definition set_StorageDevice (v : string) (s : HostState) : HostState :=
  mkHostState (Initialized s) (InitializedAt s) (InstanceType s)
    (StorageType s) v (PackagesInstalled s) (BaseClusterReady s)
    (RegistryRunning s) (Clusters s).
Definition set_PackagesInstalled (v : bool) (s : HostState) : HostState :=
  mkHostState (Initialized s) (InitializedAt s) (InstanceType s)
    (StorageType s) (StorageDevice s) v (BaseClusterReady s)
    (RegistryRunning s) (Clusters s).
Definition set_BaseClusterReady (v : bool) (s : HostState) : HostState :=
  mkHostState (Initialized s) (InitializedAt s) (InstanceType s)
    (StorageType s) (StorageDevice s) (PackagesInstalled s) v
    (RegistryRunning s) (Clusters s).
Definition set_RegistryRunning (v : bool) (s : HostState) : HostState :=
  mkHostState (Initialized s) (InitializedAt s) (InstanceType s)
    (StorageType s) (StorageDevice s) (PackagesInstalled s)
    (BaseClusterReady s) v (Clusters s).
Definition set_Clusters (v : option (gmap string ClusterInfo))
    (s : HostState) : HostState :=
  mkHostState (Initialized s) (InitializedAt s) (InstanceType s)
    (StorageType s) (StorageDevice s) (PackagesInstalled s)
    (BaseClusterReady s) (RegistryRunning s) v.

(** [m[name]] with the comma-ok form, on a map that may be nil. *)
Definition map_index (m : option (gmap string ClusterInfo)) (name : string)
    : option ClusterInfo :=
  match m with
  | None => None
  | Some c => c !! name
  end.

(** ** Errors *)

(** [StateFilePath], the one file a [state.Manager] reads and writes. *)
Definition StateFilePath : string := "/etc/host-manager-state.json".

(** A Go [error]. [os.IsNotExist] tells the missing file from every other
    failure; an error made by [fmt.Errorf] is never a not-exist error for it,
    since it does not look through [%w]. *)
Inductive error :=
| ErrNotExist
| ErrMsg (msg : string).

(** [err.Error()]. *)
Definition Error (e : error) : string :=
  match e with
  | ErrNotExist => "open " +:+ StateFilePath +:+ ": no such file or directory"
  | ErrMsg msg => msg
  end.

(** [fmt.Errorf(prefix + "%w", err)]. *)
Definition Errorf (prefix : string) (e : error) : error :=
  ErrMsg (prefix +:+ Error e).

(** [os.IsNotExist(err)]. *)
Definition IsNotExist (e : error) : bool :=
  match e with
  | ErrNotExist => true
  | ErrMsg _ => false
  end.

(** ** The environment *)

(** What the state file holds, up to [encoding/json]: a document that
    [json.Unmarshal] decodes into the given [HostState] (a missing or null
    [clusters] field decodes into the nil map), or bytes it rejects: the empty
    file, a cut-off document, anything else that is not a state document. *)
Inductive FileData :=
| Json (st : HostState)
| Malformed.

(** The state file: not there, there but not readable (the reason is the text
    of the read error), or there with contents. *)
Inductive File :=
| Absent
| Unreadable (why : string)
| Bytes (data : FileData).

(** The system calls of [ioutil.WriteFile(path, data, perm)] that change the
    file: it is opened with [O_WRONLY|O_CREATE|O_TRUNC], which leaves it
    empty, and the data is then written to it. The close that follows leaves
    the contents as they are. *)
Inductive FsOp :=
| OpenTrunc
| WriteAll (data : FileData).

Definition fs_step (f : File) (op : FsOp) : File :=
  match op with
  | OpenTrunc => Bytes Malformed
  | WriteAll data => Bytes data
  end.

Definition fs_run (ops : list FsOp) (f : File) : File :=
  fold_left fs_step ops f.

Definition WriteFile_ops (data : FileData) : list FsOp :=
  [OpenTrunc; WriteAll data].

(** Where a failing [ioutil.WriteFile] stops: at the open, with the file as it
    was; at the write, with the file cut off; or at the close, whose error it
    returns when the write went through, with the whole document in the
    file. Closing does not change what the file holds. *)
Inductive WriteFault :=
| FailOpen
| FailWrite
| FailClose.

Definition fault_ops (f : WriteFault) : nat :=
  match f with
  | FailOpen => 0
  | FailWrite => 1
  | FailClose => 2
  end.

(** The Go functions that run external programs or query the metadata
    service; one constructor per function, with its arguments. *)
Inductive ExtCall :=
| DetectStorage
| GetInstanceType
| InstallPackages
| SetupNVMeStorage (device : string)
| SetupDefaultStorage
| KindCreateCluster (name : string) (withRegistry : bool)
| KindDeleteCluster (name : string)
| KindGetKubeconfig (name : string)
| KindLoadImage (clusterName imageName : string)
| KindCreateRegistry.

(** How the outside answers. Every interaction happens at a tick (the number
    of interactions before it) and the answer may depend on it, so that a
    call can fail once and succeed later. An answer [Some msg] or [inr msg]
    is a failure with that error text. [env_remoteAddr] is the address of the
    peer whose request comes in at a tick, [r.RemoteAddr]. *)
Record Env := mkEnv {
  env_detectStorage : nat -> StorageConfig + string;
  env_getInstanceType : nat -> string + string;
  env_getKubeconfig : string -> nat -> string + string;
  env_run : ExtCall -> nat -> option string;
  env_writeFile : nat -> option (WriteFault * string);
  env_now : nat -> Time;
  env_remoteAddr : nat -> string
}.

Definition succeeded {A B} (r : A + B) : bool :=
  match r with
  | inl _ => true
  | inr _ => false
  end.

Definition exited_ok {A} (r : option A) : bool :=
  match r with
  | None => true
  | Some _ => false
  end.

(** What the program did to the outside: it called one of the functions
    above, or it wrote the state file; [ok] tells whether that succeeded. *)
Inductive Event :=
| Called (c : ExtCall) (ok : bool)
| Wrote (data : FileData) (ok : bool).

(** The state the program runs in: the state file, the tick, what the program
    did to the outside so far (newest first) and the lines logged so far
    (newest first). *)
Record World := mkWorld {
  disk : File;
  tick : nat;
  trace : list Event;
  logs : list string
}.

(** ** The monad of the program: state over [World], with panics *)

Inductive Outcome (A : Type) :=
| Ret (a : A)
| Panic (msg : string).
Arguments Ret {A} a.
Arguments Panic {A} msg.

Definition M (A : Type) : Type := World -> Outcome A * World.

Definition ret {A} (a : A) : M A := fun w => (Ret a, w).

Definition bind {A B} (m : M A) (k : A -> M B) : M B :=
  fun w =>
    match m w with
    | (Ret a, w') => k a w'
    | (Panic msg, w') => (Panic msg, w')
    end.

Definition panic {A} (msg : string) : M A := fun w => (Panic msg, w).

Notation "'let*' x ':=' m 'in' k" := (bind m (fun x => k))
  (at level 10, x name, m at level 100, k at level 200).

(** [log.Printf] and the logger's [Info], [Warn], [Error]. *)
Definition logf (line : string) : M unit :=
  fun w => (Ret tt, mkWorld (disk w) (tick w) (trace w) (line :: logs w)).

Section Program.

Variable env : Env.

(** [time.Now()]. *)
Definition Now : M Time :=
  fun w => (Ret (env_now env (tick w)),
            mkWorld (disk w) (S (tick w)) (trace w) (logs w)).

(** A Go function that runs external programs and returns an [error]. *)
Definition run (c : ExtCall) : M (option error) :=
  fun w =>
    let r := env_run env c (tick w) in
    (Ret (ErrMsg <$> r),
     mkWorld (disk w) (S (tick w)) (Called c (exited_ok r) :: trace w)
       (logs w)).

(** [ioutil.ReadFile(m.statePath)]. *)
Definition ReadFile : M (FileData + error) :=
  fun w =>
    (Ret match disk w with
         | Absent => inr ErrNotExist
         | Unreadable why => inr (ErrMsg why)
         | Bytes data => inl data
         end, w).

(** [ioutil.WriteFile(m.statePath, data, 0644)]: all its system calls, or
    those before the one that fails. *)
Definition WriteFile (data : FileData) : M (option error) :=
  fun w =>
    match env_writeFile env (tick w) with
    | None =>
        (Ret None,
         mkWorld (fs_run (WriteFile_ops data) (disk w)) (S (tick w))
           (Wrote data true :: trace w) (logs w))
    | Some (fault, why) =>
        (Ret (Some (ErrMsg why)),
         mkWorld (fs_run (take (fault_ops fault) (WriteFile_ops data)) (disk w))
           (S (tick w)) (Wrote data false :: trace w) (logs w))
    end.

(** [json.Unmarshal(data, &state)] into a zero [HostState]. *)
Definition Unmarshal (data : FileData) : HostState + error :=
  match data with
  | Json st => inl st
  | Malformed => inr (ErrMsg "unexpected end of JSON input")
  end.

(** [json.MarshalIndent(state, "", "  ")]; it has no failing case on a
    [HostState]. *)
Definition MarshalIndent (state : HostState) : FileData + error :=
  inl (Json state).

(** ** internal/state/state.go *)

(** [Manager.Load]. *)
Definition Load : M (HostState + error) :=
  let* r := ReadFile in
  match r with
  | inr err =>
      if IsNotExist err then
        ret (inl (mkHostState false None "" "" "" false false false (Some ∅)))
      else ret (inr (Errorf "failed to read state file: " err))
  | inl data =>
      match Unmarshal data with
      | inr err => ret (inr (Errorf "failed to parse state file: " err))
      | inl state =>
          let state :=
            match Clusters state with
            | None => set_Clusters (Some ∅) state
            | Some _ => state
            end in
          ret (inl state)
      end
  end.

(** [Manager.Save]. *)
Definition Save (state : HostState) : M (option error) :=
  match MarshalIndent state with
  | inr err => ret (Some (Errorf "failed to marshal state: " err))
  | inl data =>
      let* werr := WriteFile data in
      match werr with
      | Some err => ret (Some (Errorf "failed to write state file: " err))
      | None => ret None
      end
  end.

(** [Manager.MarkInitialized]. *)
Definition MarkInitialized (instanceType storageType storageDevice : string)
    : M (option error) :=
  let* r := Load in
  match r with
  | inr err => ret (Some err)
  | inl state =>
      let* now := Now in
      let state := set_Initialized true state in
      let state := set_InitializedAt (Some now) state in
      let state := set_InstanceType instanceType state in
      let state := set_StorageType storageType state in
      let state := set_StorageDevice storageDevice state in
      let state := set_PackagesInstalled true state in
      Save state
  end.

(** [Manager.UpdateCluster]. *)
Definition UpdateCluster (name status clusterType : string) (kubevirt : bool)
    : M (option error) :=
  let* r := Load in
  match r with
  | inr err => ret (Some err)
  | inl state =>
      let* now := Now in
      match Clusters state with
      | None => panic "assignment to entry in nil map"
      | Some m =>
          Save (set_Clusters
                  (Some (<[name := mkClusterInfo status (Some now) clusterType
                                     kubevirt]> m))
                  state)
      end
  end.

(** [Manager.RemoveCluster]. *)
Definition RemoveCluster (name : string) : M (option error) :=
  let* r := Load in
  match r with
  | inr err => ret (Some err)
  | inl state => Save (set_Clusters (delete name <$> Clusters state) state)
  end.

(** [Manager.SetRegistryStatus]. *)
Definition SetRegistryStatus (running : bool) : M (option error) :=
  let* r := Load in
  match r with
  | inr err => ret (Some err)
  | inl state => Save (set_RegistryRunning running state)
  end.

(** [Manager.SetBaseClusterReady]. *)
Definition SetBaseClusterReady : M (option error) :=
  let* r := Load in
  match r with
  | inr err => ret (Some err)
  | inl state => Save (set_BaseClusterReady true state)
  end.

(** ** internal/host *)

(** [detectStorage()] of packages.go: metadata lookup, device scan. *)
Definition detectStorage : M (StorageConfig + error) :=
  fun w =>
    let r := env_detectStorage env (tick w) in
    (Ret match r with
         | inl storage => inl storage
         | inr msg => inr (ErrMsg msg)
         end,
     mkWorld (disk w) (S (tick w))
       (Called DetectStorage (succeeded r) :: trace w) (logs w)).

(** [getInstanceType()] of packages.go. *)
Definition getInstanceType : M (string + error) :=
  fun w =>
    let r := env_getInstanceType env (tick w) in
    (Ret match r with
         | inl t => inl t
         | inr msg => inr (ErrMsg msg)
         end,
     mkWorld (disk w) (S (tick w))
       (Called GetInstanceType (succeeded r) :: trace w) (logs w)).

Definition installPackages : M (option error) := run InstallPackages.
Definition setupNVMeStorage (device : string) : M (option error) :=
  run (SetupNVMeStorage device).
Definition setupDefaultStorage : M (option error) := run SetupDefaultStorage.

(** [Manager.configureStorage]. *)
Definition configureStorage (storage : StorageConfig) : M (option error) :=
  if HasNVMe storage then
    let* _ := logf ("Configuring NVMe storage: " +:+ Device storage) in
    setupNVMeStorage (Device storage)
  else
    let* _ := logf "Configuring default storage" in
    setupDefaultStorage.

(** [Manager.configureSSH]. *)
Definition configureSSH : M (option error) :=
  let* _ := logf "SSH configuration completed (placeholder)" in
  ret None.

(** ** internal/kind/client.go, one interaction per method *)

Definition kind_CreateCluster (name : string) (withRegistry : bool)
    : M (option error) := run (KindCreateCluster name withRegistry).
Definition kind_DeleteCluster (name : string) : M (option error) :=
  run (KindDeleteCluster name).
Definition kind_LoadImage (clusterName imageName : string)
    : M (option error) := run (KindLoadImage clusterName imageName).
Definition kind_CreateRegistry : M (option error) := run KindCreateRegistry.

Definition kind_GetKubeconfig (name : string) : M (string + error) :=
  fun w =>
    let r := env_getKubeconfig env name (tick w) in
    (Ret match r with
         | inl out => inl out
         | inr msg => inr (ErrMsg msg)
         end,
     mkWorld (disk w) (S (tick w))
       (Called (KindGetKubeconfig name) (succeeded r) :: trace w) (logs w)).

(** ** internal/host/init.go *)

(** [Manager.createBaseInfrastructure]. *)
Definition createBaseInfrastructure : M (option error) :=
  let* _ := logf "Creating shared container registry..." in
  let* err := kind_CreateRegistry in
  match err with
  | Some e => ret (Some (Errorf "failed to create registry: " e))
  | None =>
  let* err := SetRegistryStatus true in
  match err with
  | Some e => ret (Some (Errorf "failed to update registry status: " e))
  | None =>
  let* _ := logf "Creating base infrastructure cluster..." in
  let* err := kind_CreateCluster "kind" true in
  match err with
  | Some e => ret (Some (Errorf "failed to create base cluster: " e))
  | None =>
  let* err := UpdateCluster "kind" "running" "infrastructure" false in
  match err with
  | Some e => ret (Some (Errorf "failed to update cluster state: " e))
  | None =>
  let* err := SetBaseClusterReady in
  match err with
  | Some e => ret (Some (Errorf "failed to mark base cluster ready: " e))
  | None => ret None
  end end end end end.

(** [Manager.Initialize]. *)
Definition Initialize : M (option error) :=
  let* _ := logf "Starting host initialization..." in
  let* r := detectStorage in
  match r with
  | inr e => ret (Some (Errorf "failed to detect storage: " e))
  | inl storage =>
  let* it := getInstanceType in
  let* instanceType :=
    match it with
    | inl metaInstanceType =>
        let* _ := logf ("Detected instance type: " +:+ metaInstanceType) in
        ret metaInstanceType
    | inr e =>
        let* _ := logf ("Could not detect instance type: " +:+ Error e) in
        ret "unknown"
    end in
  let* _ := logf ("Storage configuration: type=" +:+ sc_Type storage +:+
                  ", device=" +:+ Device storage) in
  let* _ := logf "Installing system packages..." in
  let* err := installPackages in
  match err with
  | Some e => ret (Some (Errorf "failed to install packages: " e))
  | None =>
  let* _ := logf "Configuring storage..." in
  let* err := configureStorage storage in
  match err with
  | Some e => ret (Some (Errorf "failed to configure storage: " e))
  | None =>
  let* _ := logf "Configuring SSH..." in
  let* err := configureSSH in
  match err with
  | Some e => ret (Some (Errorf "failed to configure SSH: " e))
  | None =>
  let* _ := logf "Creating base infrastructure..." in
  let* err := createBaseInfrastructure in
  match err with
  | Some e => ret (Some (Errorf "failed to create base infrastructure: " e))
  | None =>
  let* err := MarkInitialized instanceType (sc_Type storage) (Device storage) in
  match err with
  | Some e => ret (Some (Errorf "failed to save initialization state: " e))
  | None =>
  let* _ := logf "Host initialization completed successfully" in
  ret None
  end end end end end end.

(** ** main.go, from the state manager to the start of the server *)

(** How [main] goes on after the start-up: the HTTP server is started, or the
    process has left with [os.Exit(code)]. *)
Inductive Startup :=
| Serve
| Exit (code : nat).

(** [main], lines 58 to 81. *)
Definition main : M Startup :=
  let* r := Load in
  let* hostState :=
    match r with
    | inr e =>
        let* _ := logf ("Failed to load state, assuming fresh host error=" +:+
                        Error e) in
        ret zeroHostState
    | inl st => ret st
    end in
  if negb (Initialized hostState) then
    let* _ := logf "Fresh host detected, running initialization" in
    let* err := Initialize in
    match err with
    | Some e =>
        let* _ := logf ("Host setup failed error=" +:+ Error e) in
        ret (Exit 1)
    | None =>
        let* _ := logf "Host initialization complete" in
        ret Serve
    end
  else
    let* _ := logf "Host already initialized, skipping setup" in
    ret Serve.

(** ** internal/server/server.go *)

(** The body of a response: the text of [http.Error], or what is encoded. *)
Inductive Body :=
| BodyText (msg : string)
| BodyHealth (h : HealthResponse)
| BodyHostState (st : HostState)
| BodyVersion (service_version api_version : string)
| BodyClusters (l : list ClusterResponse)
| BodyCluster (c : ClusterResponse)
| BodyCreated (success : bool) (cluster : ClusterResponse)
| BodyDone (success : bool) (message : string)
| BodyYaml (kubeconfig : string)
| BodyRegistry (r : RegistryStatus).

Record Response := mkResponse {
  status : nat;
  body : Body
}.

Definition StatusOK : nat := 200.
Definition StatusCreated : nat := 201.
Definition StatusBadRequest : nat := 400.
Definition StatusForbidden : nat := 403.
Definition StatusNotFound : nat := 404.
Definition StatusConflict : nat := 409.
Definition StatusInternalServerError : nat := 500.

(** [http.Error(w, msg, code)]. *)
Definition http_Error (msg : string) (code : nat) : Response :=
  mkResponse code (BodyText msg).

(** [Server.handleHealth]. *)
Definition handleHealth : M Response :=
  let* r := Load in
  match r with
  | inr _ => ret (http_Error "Failed to load host state" StatusInternalServerError)
  | inl hostState =>
      ret (mkResponse StatusOK
             (BodyHealth (mkHealthResponse "healthy" (Initialized hostState)
                            "1.0.0")))
  end.

(** [Server.handleHostStatus]. *)
Definition handleHostStatus : M Response :=
  let* r := Load in
  match r with
  | inr _ => ret (http_Error "Failed to load host state" StatusInternalServerError)
  | inl hostState => ret (mkResponse StatusOK (BodyHostState hostState))
  end.

(** [Server.handleVersion]. *)
Definition handleVersion : M Response :=
  ret (mkResponse StatusOK (BodyVersion "1.0.0" "v1")).

(** [Server.handleListClusters]; the order of the entries is that of the
    iteration over the map, which Go leaves open. *)
Definition handleListClusters : M Response :=
  let* r := Load in
  match r with
  | inr _ => ret (http_Error "Failed to load host state" StatusInternalServerError)
  | inl hostState =>
      let clusters :=
        (fun ni : string * ClusterInfo =>
           mkClusterResponse ni.1 (Status ni.2) (Created ni.2) (Type_ ni.2)
             (KubeVirt ni.2))
        <$> match Clusters hostState with
            | None => []
            | Some m => map_to_list m
            end in
      ret (mkResponse StatusOK (BodyClusters clusters))
  end.

(** [Server.handleCreateCluster]; [req] is the decoded body, [None] when
    decoding fails. *)
Definition handleCreateCluster (req : option ClusterCreateRequest)
    : M Response :=
  match req with
  | None => ret (http_Error "Invalid request body" StatusBadRequest)
  | Some req =>
  if bool_decide (req_Name req = "") then
    ret (http_Error "Cluster name is required" StatusBadRequest)
  else
  let* r := Load in
  match r with
  | inr _ => ret (http_Error "Failed to load host state" StatusInternalServerError)
  | inl hostState =>
  match map_index (Clusters hostState) (req_Name req) with
  | Some _ =>
      ret (http_Error ("Cluster " +:+ req_Name req +:+ " already exists")
             StatusConflict)
  | None =>
  let* err := kind_CreateCluster (req_Name req) true in
  match err with
  | Some e =>
      ret (http_Error ("Failed to create cluster: " +:+ Error e)
             StatusInternalServerError)
  | None =>
  let clusterType :=
    if bool_decide (req_Name req = "kind") then "infrastructure"
    else "development" in
  let* err := UpdateCluster (req_Name req) "running" clusterType
                (req_KubeVirt req) in
  let* _ :=
    match err with
    | Some e => logf ("Failed to update cluster state: " +:+ Error e)
    | None => ret tt
    end in
  ret (mkResponse StatusCreated
         (BodyCreated true
            (mkClusterResponse (req_Name req) "running" None clusterType
               (req_KubeVirt req))))
  end end end end.

(** [Server.handleGetCluster]. *)
Definition handleGetCluster (name : string) : M Response :=
  let* r := Load in
  match r with
  | inr _ => ret (http_Error "Failed to load host state" StatusInternalServerError)
  | inl hostState =>
      match map_index (Clusters hostState) name with
      | None => ret (http_Error "Cluster not found" StatusNotFound)
      | Some info =>
          ret (mkResponse StatusOK
                 (BodyCluster
                    (mkClusterResponse name (Status info) (Created info)
                       (Type_ info) (KubeVirt info))))
      end
  end.

(** [Server.handleDeleteCluster]. *)
Definition handleDeleteCluster (name : string) : M Response :=
  if bool_decide (name = "kind") then
    ret (http_Error "Cannot delete infrastructure cluster" StatusForbidden)
  else
  let* err := kind_DeleteCluster name in
  match err with
  | Some e =>
      ret (http_Error ("Failed to delete cluster: " +:+ Error e)
             StatusInternalServerError)
  | None =>
  let* err := RemoveCluster name in
  let* _ :=
    match err with
    | Some e => logf ("Failed to remove cluster from state: " +:+ Error e)
    | None => ret tt
    end in
  ret (mkResponse StatusOK
         (BodyDone true ("Cluster " +:+ name +:+ " deleted")))
  end.

(** [Server.handleGetKubeconfig]. *)
Definition handleGetKubeconfig (name : string) : M Response :=
  let* r := kind_GetKubeconfig name in
  match r with
  | inr e =>
      ret (http_Error ("Failed to get kubeconfig: " +:+ Error e)
             StatusInternalServerError)
  | inl kubeconfig => ret (mkResponse StatusOK (BodyYaml kubeconfig))
  end.

(** [Server.handleLoadImage]; [image] is the decoded body, [None] when
    decoding fails. *)
Definition handleLoadImage (name : string) (image : option string)
    : M Response :=
  match image with
  | None => ret (http_Error "Invalid request body" StatusBadRequest)
  | Some image =>
  if bool_decide (image = "") then
    ret (http_Error "Image name is required" StatusBadRequest)
  else
  let* err := kind_LoadImage name image in
  match err with
  | Some e =>
      ret (http_Error ("Failed to load image: " +:+ Error e)
             StatusInternalServerError)
  | None =>
      ret (mkResponse StatusOK
             (BodyDone true ("Image " +:+ image +:+ " loaded into cluster " +:+
                             name)))
  end
  end.

(** [Server.handleRegistryStatus]. *)
Definition handleRegistryStatus : M Response :=
  ret (mkResponse StatusOK
         (BodyRegistry (mkRegistryStatus true 5001%N "localhost:5001"))).

(** [Server.handleRegistryStart]. *)
Definition handleRegistryStart : M Response :=
  let* err := kind_CreateRegistry in
  match err with
  | Some e =>
      ret (http_Error ("Failed to start registry: " +:+ Error e)
             StatusInternalServerError)
  | None =>
  let* err := SetRegistryStatus true in
  let* _ :=
    match err with
    | Some e => logf ("Failed to update registry status: " +:+ Error e)
    | None => ret tt
    end in
  ret (mkResponse StatusOK (BodyDone true "Registry started"))
  end.

(** The routes of [Server.setupRoutes], as the requests they match. *)
Inductive Request :=
| GetHealth
| GetHostStatus
| GetVersion
| GetClusters
| PostClusters (req : option ClusterCreateRequest)
| GetCluster (name : string)
| DeleteCluster (name : string)
| GetKubeconfig (name : string)
| PostLoadImage (name : string) (image : option string)
| GetRegistryStatus
| PostRegistryStart.

(** [r.Method] and [r.URL.Path] of the requests the routes of [setupRoutes]
    match. *)
Definition Method (r : Request) : string :=
  match r with
  | GetHealth | GetHostStatus | GetVersion | GetClusters | GetCluster _
  | GetKubeconfig _ | GetRegistryStatus => "GET"
  | PostClusters _ | PostLoadImage _ _ | PostRegistryStart => "POST"
  | DeleteCluster _ => "DELETE"
  end.

Definition Path (r : Request) : string :=
  match r with
  | GetHealth => "/health"
  | GetHostStatus => "/host/status"
  | GetVersion => "/version"
  | GetClusters | PostClusters _ => "/clusters"
  | GetCluster name | DeleteCluster name => "/clusters/" +:+ name
  | GetKubeconfig name => "/clusters/" +:+ name +:+ "/kubeconfig"
  | PostLoadImage name _ => "/clusters/" +:+ name +:+ "/load-image"
  | GetRegistryStatus => "/registry/status"
  | PostRegistryStart => "/registry/start"
  end.

(** [corsMiddleware] on a request that a route matches: it sets three
    headers of the response, which [Response] does not keep, and hands the
    request on. (It answers [OPTIONS] itself, a method that no route
    matches, so that the router never gets there.) *)
Definition corsMiddleware (r : Request) (next : M Response) : M Response :=
  next.

(** [loggingMiddleware]: it logs the method, the path and the address of the
    peer, then hands the request on. *)
Definition loggingMiddleware (r : Request) (next : M Response) : M Response :=
  fun w =>
    (let* _ := logf (Method r +:+ " " +:+ Path r +:+ " " +:+
                     env_remoteAddr env (tick w)) in
     next) w.

(** The handler that [setupRoutes] gives a request. *)
Definition handler (r : Request) : M Response :=
  match r with
  | GetHealth => handleHealth
  | GetHostStatus => handleHostStatus
  | GetVersion => handleVersion
  | GetClusters => handleListClusters
  | PostClusters req => handleCreateCluster req
  | GetCluster name => handleGetCluster name
  | DeleteCluster name => handleDeleteCluster name
  | GetKubeconfig name => handleGetKubeconfig name
  | PostLoadImage name image => handleLoadImage name image
  | GetRegistryStatus => handleRegistryStatus
  | PostRegistryStart => handleRegistryStart
  end.

(** The router on a request that a route matches: the middlewares in the
    order [setupRoutes] adds them, then the handler. *)
Definition route (r : Request) : M Response :=
  corsMiddleware r (loggingMiddleware r (handler r)).

End Program.

(** ** The [strings] package, as far as the code uses it *)

(** [strings.HasPrefix(s, prefix)]. *)
Fixpoint HasPrefix (s prefix : string) {struct prefix} : bool :=
  match prefix, s with
  | EmptyString, _ => true
  | String _ _, EmptyString => false
  | String c prefix', String d s' =>
      if bool_decide (c = d) then HasPrefix s' prefix' else false
  end.

(** [strings.HasSuffix(s, suffix)]. *)
Fixpoint HasSuffix (s suffix : string) : bool :=
  bool_decide (s = suffix)
  || match s with
     | EmptyString => false
     | String _ s' => HasSuffix s' suffix
     end.

(** [strings.Contains(s, substr)]. *)
Fixpoint Contains (s substr : string) : bool :=
  HasPrefix s substr
  || match s with
     | EmptyString => false
     | String _ s' => Contains s' substr
     end.

(** ** internal/host: storage detection *)

(** The [nvmePatterns] of [hasNVMeStorage]. *)
Definition nvmePatterns : list string :=
  [ "c5d."; "c5ad."; "c6gd."; "c6id."; "c7gd.";
    "m5d."; "m5ad."; "m5dn."; "m5zn."; "m6gd."; "m6id."; "m6idn.";
    "r5d."; "r5ad."; "r5dn."; "r6gd."; "r6id."; "r6idn.";
    "x1e."; "x2gd."; "x2idn."; "x2iedn.";
    "i3."; "i3en."; "i4i."; "d2."; "d3."; "d3en.";
    "a1."; "t3."; "t4g.";
    "hpc6a."; "hpc6id."; "hpc7a."; "hpc7g.";
    ".metal" ].

(** [hasNVMeStorage]. *)
Definition hasNVMeStorage (instanceType : string) : bool :=
  existsb (fun pattern => Contains instanceType pattern) nvmePatterns.

(** [detectStorageFromInstanceType]. *)
Definition detectStorageFromInstanceType (instanceType : string)
    : StorageConfig :=
  if hasNVMeStorage instanceType then
    mkStorageConfig true "/dev/nvme1n1" "instance-store"
  else mkStorageConfig false "" "ebs-only".

(** What the machine shows to the device scan: the names in [/dev/] as
    [ioutil.ReadDir] lists them (or the text of its error), whether
    [blkid device] exits with success, and the size that
    [blockdev --getsize64 device] prints ([None] when the command fails or
    when [strconv.ParseInt] rejects what it printed). *)
Record Machine := mkMachine {
  readDir : list string + string;
  blkid : string -> bool;
  blockdev_size : string -> option Z
}.

(** [isInstanceStore]; the division of [int64] truncates. *)
Definition isInstanceStore (mc : Machine) (device : string) : bool :=
  if blkid mc device then false
  else
    match blockdev_size mc device with
    | None => false
    | Some size =>
        let sizeGB := (size ÷ (1024 * 1024 * 1024))%Z in
        (50 <? sizeGB)%Z
    end.

(** The loop of [scanForNVMeDevices] over the listing. *)
Fixpoint scanDevices (mc : Machine) (devices : list string) : StorageConfig :=
  match devices with
  | [] => mkStorageConfig false "" "ebs-only"
  | name :: devices' =>
      if HasPrefix name "nvme" && HasSuffix name "n1" then
        let devicePath := "/dev/" +:+ name in
        if isInstanceStore mc devicePath then
          mkStorageConfig true devicePath "instance-store"
        else scanDevices mc devices'
      else scanDevices mc devices'
  end.

(** [scanForNVMeDevices]. *)
Definition scanForNVMeDevices (mc : Machine) : StorageConfig + error :=
  match readDir mc with
  | inr msg => inr (Errorf "failed to scan /dev/: " (ErrMsg msg))
  | inl devices => inl (scanDevices mc devices)
  end.

(** The body of [detectStorage], on what its [getInstanceType()] returned:
    the answers [env_detectStorage] stands for. *)
Definition detectStorage_on (metadata : string + error) (mc : Machine)
    : StorageConfig + error :=
  match metadata with
  | inl instanceType => inl (detectStorageFromInstanceType instanceType)
  | inr _ => scanForNVMeDevices mc
  end.

(** ** internal/kind/client.go, command by command *)

(** The line feed and the double quote of the Go literals. *)
Definition LF : Ascii.ascii := "010"%char.
Definition nl : string := String LF "".
Definition dq : string := String "034"%char "".

(** [strings.Split(s, sep)] for a separator of one byte. *)
Fixpoint Split (s : string) (sep : Ascii.ascii) : list string :=
  match s with
  | EmptyString => [""]
  | String c s' =>
      if bool_decide (c = sep) then "" :: Split s' sep
      else
        match Split s' sep with
        | [] => [String c ""]
        | field :: fields => String c field :: fields
        end
  end.

(** [exec.Command(name, arg...)], with the text the code gives it as
    [cmd.Stdin], if any. *)
Record Command := mkCommand {
  argv : list string;
  stdin : option string
}.

(** How the programs answer: at a tick, a command gives the error of
    [cmd.Run], [cmd.Output] or [cmd.CombinedOutput] ([Some msg], or [None]
    when it exits with success) and the bytes that [Output] or
    [CombinedOutput] returns. *)
Record Shell := mkShell {
  sh_answer : Command -> nat -> option string * string
}.

(** The commands run so far, newest first, each with whether it succeeded,
    and the tick. *)
Record Session := mkSession {
  sh_tick : nat;
  sh_trace : list (Command * bool)
}.

Definition Sh (A : Type) : Type := Session -> A * Session.

Definition sh_ret {A} (a : A) : Sh A := fun s => (a, s).

Definition sh_bind {A B} (m : Sh A) (k : A -> Sh B) : Sh B :=
  fun s => let '(a, s') := m s in k a s'.

Notation "'let+' x ':=' m 'in' k" := (sh_bind m (fun x => k))
  (at level 10, x name, m at level 100, k at level 200).

(** The package [kind]. *)
Module kind.

(** [getClusterConfigWithRegistry]. *)
Definition getClusterConfigWithRegistry : string :=
  String.concat nl
    [ "kind: Cluster";
      "apiVersion: kind.x-k8s.io/v1alpha4";
      "containerdConfigPatches:";
      "- |-";
      "  [plugins." +:+ dq +:+ "io.containerd.grpc.v1.cri" +:+ dq +:+
        ".registry]";
      "    config_path = " +:+ dq +:+ "/etc/containerd/certs.d" +:+ dq;
      "kubeadmConfigPatches:";
      "- |";
      "  apiVersion: kubeadm.k8s.io/v1";
      "  kind: ClusterConfiguration";
      "  metadata:";
      "    name: config";
      "  kubernetesVersion: " +:+ dq +:+ "v1.32.0" +:+ dq;
      "nodes:";
      "- role: control-plane";
      "  extraPortMappings:";
      "  - containerPort: 32222";
      "    hostPort: 2222";
      "  extraMounts:";
      "  - containerPath: /local";
      "    hostPath: /root/kind" ].

(** [getBasicClusterConfig]. *)
Definition getBasicClusterConfig : string :=
  String.concat nl
    [ "kind: Cluster";
      "apiVersion: kind.x-k8s.io/v1alpha4";
      "kubeadmConfigPatches:";
      "- |";
      "  apiVersion: kubeadm.k8s.io/v1";
      "  kind: ClusterConfiguration";
      "  metadata:";
      "    name: config";
      "  kubernetesVersion: " +:+ dq +:+ "v1.32.0" +:+ dq;
      "nodes:";
      "- role: control-plane" ].

Section KindClient.

Variable sh : Shell.

(** [strings.TrimSpace]; the client is modelled for any function in its
    place. *)
Variable TrimSpace : string -> string.

(** [cmd.Run()], [cmd.Output()], [cmd.CombinedOutput()]: the output and the
    error. *)
Definition exec (c : Command) : Sh (string * option error) :=
  fun s =>
    let '(err, output) := sh_answer sh c (sh_tick s) in
    ((output, ErrMsg <$> err),
     mkSession (S (sh_tick s)) ((c, exited_ok err) :: sh_trace s)).

(** The loop of [connectToRegistry] over the nodes. *)
Fixpoint configureNodes (nodes : list string) : Sh (option error) :=
  match nodes with
  | [] => sh_ret None
  | node :: nodes' =>
      if bool_decide (node = "") then configureNodes nodes'
      else
        let+ r :=
          exec (mkCommand
                  ["podman"; "exec"; node; "mkdir"; "-p";
                   "/etc/containerd/certs.d/localhost:5001"] None) in
        match r.2 with
        | Some err =>
            sh_ret (Some (Errorf ("failed to create registry config dir in node "
                                  +:+ node +:+ ": ") err))
        | None =>
            let config :=
              "[host." +:+ dq +:+ "http://kind-registry:5000" +:+ dq +:+ "]" in
            let+ r :=
              exec (mkCommand
                      ["podman"; "exec"; "-i"; node; "cp"; "/dev/stdin";
                       "/etc/containerd/certs.d/localhost:5001/hosts.toml"]
                      (Some config)) in
            match r.2 with
            | Some err =>
                sh_ret (Some (Errorf ("failed to write registry config in node "
                                      +:+ node +:+ ": ") err))
            | None => configureNodes nodes'
            end
        end
  end.

(** [Client.connectToRegistry]. *)
Definition connectToRegistry (clusterName : string) : Sh (option error) :=
  let+ r :=
    exec (mkCommand ["kind"; "get"; "nodes"; "--name"; clusterName] None) in
  match r.2 with
  | Some err => sh_ret (Some (Errorf "failed to get cluster nodes: " err))
  | None =>
      let nodes := Split (TrimSpace r.1) LF in
      let+ failed := configureNodes nodes in
      match failed with
      | Some err => sh_ret (Some err)
      | None =>
          let+ _ :=
            exec (mkCommand
                    ["podman"; "network"; "connect"; "kind"; "kind-registry"]
                    None) in
          sh_ret None
      end
  end.

(** [Client.CreateCluster]. *)
Definition CreateCluster (name : string) (withRegistry : bool)
    : Sh (option error) :=
  let config :=
    if withRegistry then getClusterConfigWithRegistry
    else getBasicClusterConfig in
  let+ r :=
    exec (mkCommand
            ["kind"; "create"; "cluster"; "--name"; name; "--config"; "-"]
            (Some config)) in
  match r.2 with
  | Some err =>
      sh_ret (Some (ErrMsg ("failed to create cluster " +:+ name +:+ ": " +:+
                            Error err +:+ nl +:+ "Output: " +:+ r.1)))
  | None =>
      if withRegistry then
        let+ failed := connectToRegistry name in
        match failed with
        | Some err =>
            sh_ret (Some (Errorf "failed to connect cluster to registry: " err))
        | None => sh_ret None
        end
      else sh_ret None
  end.

(** [Client.DeleteCluster]. *)
Definition DeleteCluster (name : string) : Sh (option error) :=
  let+ r :=
    exec (mkCommand ["kind"; "delete"; "cluster"; "--name"; name] None) in
  match r.2 with
  | Some err =>
      sh_ret (Some (ErrMsg ("failed to delete cluster " +:+ name +:+ ": " +:+
                            Error err +:+ nl +:+ "Output: " +:+ r.1)))
  | None => sh_ret None
  end.

(** [Client.ListClusters]. *)
Definition ListClusters : Sh (list string + error) :=
  let+ r := exec (mkCommand ["kind"; "get"; "clusters"] None) in
  match r.2 with
  | Some err => sh_ret (inr (Errorf "failed to list clusters: " err))
  | None =>
      let clusters := Split (TrimSpace r.1) LF in
      if Nat.eqb (length clusters) 1 && bool_decide (clusters !! 0 = Some "")
      then sh_ret (inl [])
      else sh_ret (inl clusters)
  end.

(** [Client.GetKubeconfig]. *)
Definition GetKubeconfig (name : string) : Sh (string + error) :=
  let+ r :=
    exec (mkCommand ["kind"; "get"; "kubeconfig"; "--name"; name] None) in
  match r.2 with
  | Some err =>
      sh_ret (inr (Errorf ("failed to get kubeconfig for " +:+ name +:+ ": ")
                     err))
  | None => sh_ret (inl r.1)
  end.

(** [Client.CreateRegistry]. *)
Definition CreateRegistry : Sh (option error) :=
  let+ r := exec (mkCommand ["podman"; "inspect"; "kind-registry"] None) in
  match r.2 with
  | None =>
      let+ r :=
        exec (mkCommand
                ["podman"; "inspect"; "-f"; "{{.State.Running}}";
                 "kind-registry"] None) in
      if exited_ok r.2 && bool_decide (TrimSpace r.1 = "true") then sh_ret None
      else
        let+ r := exec (mkCommand ["podman"; "start"; "kind-registry"] None) in
        sh_ret r.2
  | Some _ =>
      let+ r :=
        exec (mkCommand
                ["podman"; "run"; "-d"; "--restart=always";
                 "-p"; "127.0.0.1:5001:5000"; "--network"; "bridge";
                 "--name"; "kind-registry"; "registry:2"] None) in
      match r.2 with
      | Some err =>
          sh_ret (Some (ErrMsg ("failed to create registry: " +:+ Error err +:+
                                nl +:+ "Output: " +:+ r.1)))
      | None => sh_ret None
      end
  end.

(** [Client.LoadImage]. *)
Definition LoadImage (clusterName imageName : string) : Sh (option error) :=
  let+ r :=
    exec (mkCommand
            ["kind"; "load"; "docker-image"; imageName; "--name"; clusterName]
            None) in
  match r.2 with
  | Some err =>
      sh_ret (Some (ErrMsg ("failed to load image " +:+ imageName +:+
                            " into cluster " +:+ clusterName +:+ ": " +:+
                            Error err +:+ nl +:+ "Output: " +:+ r.1)))
  | None => sh_ret None
  end.

End KindClient.

End kind.

(** ** main.go: the environment of the daemon *)

(** The character classes of [validNameRegex],
    [^[A-Za-z_][A-Za-z0-9_]*=]. *)
Definition is_letter (c : Ascii.ascii) : bool :=
  let n := Ascii.nat_of_ascii c in
  Nat.leb 65 n && Nat.leb n 90 || Nat.leb 97 n && Nat.leb n 122.

Definition is_digit (c : Ascii.ascii) : bool :=
  let n := Ascii.nat_of_ascii c in
  Nat.leb 48 n && Nat.leb n 57.

Definition name_start (c : Ascii.ascii) : bool :=
  is_letter c || bool_decide (c = "_"%char).

Definition name_char (c : Ascii.ascii) : bool :=
  name_start c || is_digit c.

(** A match of [[A-Za-z0-9_]*=] at the start of [s]. *)
Fixpoint name_rest (s : string) : bool :=
  match s with
  | EmptyString => false
  | String c s' =>
      if bool_decide (c = "="%char) then true
      else if name_char c then name_rest s' else false
  end.

(** [validNameRegex.MatchString(env)]. *)
Definition validNameRegex (env : string) : bool :=
  match env with
  | EmptyString => false
  | String c s => name_start c && name_rest s
  end.

(** What [filterValidEnvVars] writes to the standard error. *)
Inductive Warning :=
| FilteredInvalid (invalidCount : nat)
| CriticalMissing (critical : string).

(** The first loop of [filterValidEnvVars]: the valid entries in their
    order, and the number of the others. *)
Fixpoint filterLoop (environ : list string) : list string * nat :=
  match environ with
  | [] => ([], 0)
  | env :: environ' =>
      let '(validEnv, invalidCount) := filterLoop environ' in
      if validNameRegex env then (env :: validEnv, invalidCount)
      else (validEnv, S invalidCount)
  end.

(** [filterValidEnvVars]: the filtered environment and the warnings. The
    pattern of a critical variable, [^PATH=], matches the entries that start
    with [PATH=]. *)
Definition filterValidEnvVars (environ : list string)
    : list string * list Warning :=
  let '(validEnv, invalidCount) := filterLoop environ in
  let filtered :=
    if Nat.ltb 0 invalidCount then [FilteredInvalid invalidCount] else [] in
  let missing :=
    flat_map
      (fun critical =>
         if existsb (fun env => HasPrefix env (critical +:+ "=")) validEnv
         then []
         else [CriticalMissing critical])
      ["PATH"] in
  (validEnv, filtered ++ missing).

(** The command line, as [flag.Parse] reads it. *)
Record Flags := mkFlags {
  help : bool;
  port : string;
  foreground : bool;
  auditLog : bool
}.

(** The process [main] runs in: which paths [os.Stat] finds, the
    environment, the effective user, the arguments, and what
    [syscall.ForkExec] answers (the pid of the child, or the text of its
    error). *)
Record Process := mkProcess {
  stat_ok : string -> bool;
  getenv : string -> string;
  geteuid : nat;
  os_Args : list string;
  os_Environ : list string;
  forkExec : string -> list string -> list string -> nat + string
}.

(** [isRunningInContainer]. *)
Definition isRunningInContainer (p : Process) : bool :=
  if existsb (stat_ok p) ["/.dockerenv"; "/run/.containerenv"] then true
  else if negb (bool_decide (getenv p "container" = ""))
          || negb (bool_decide (getenv p "KUBERNETES_SERVICE_HOST" = ""))
  then true
  else false.

(** What [main] and [daemonize] print on the standard output. *)
Inductive Printed :=
| PrintedContainer
| PrintedRoot
| PrintedHelp
| PrintedDaemonPid (pid : nat).

(** [daemonize]: the error, what is printed, and the warnings.
    [os.Args[0]] panics on an empty argument list. *)
Definition daemonize (p : Process)
    : M (option error * list Printed * list Warning) :=
  let '(validEnv, warnings) := filterValidEnvVars (os_Environ p) in
  match os_Args p with
  | [] => panic "index out of range [0] with length 0"
  | arg0 :: _ =>
      match forkExec p arg0 (os_Args p ++ ["--foreground"]) validEnv with
      | inr msg => ret (Some (ErrMsg ("fork failed: " +:+ msg)), [], warnings)
      | inl pid => ret (None, [PrintedDaemonPid pid], warnings)
      end
  end.

(** [showHelp], which prints [os.Args[0]] in the usage text. *)
Definition showHelp (p : Process) : M (list Printed) :=
  match os_Args p with
  | [] => panic "index out of range [0] with length 0"
  | _ :: _ => ret [PrintedHelp]
  end.

(** How [main] ends: with [os.Exit(code)], by returning, or in
    [srv.Start(addr)], which serves until the listener fails. *)
Inductive Ending :=
| Exited (code : nat)
| Returned
| Listening (addr : string).

(** [fmt.Sprintf("%v", b)] on a bool. *)
Definition bool_string (b : bool) : string := if b then "true" else "false".

(** [main], whole; its lines 58 to 81 are [main] above. It returns how the
    process ends, what it printed and the warnings of [daemonize]. *)
Definition main_process (env : Env) (flags : Flags) (p : Process)
    : M (Ending * list Printed * list Warning) :=
  if isRunningInContainer p then ret (Exited 1, [PrintedContainer], [])
  else if negb (Nat.eqb (geteuid p) 0) then ret (Exited 1, [PrintedRoot], [])
  else if help flags then
    let* printed := showHelp p in
    ret (Returned, printed, [])
  else if negb (foreground flags) then
    let* _ := logf "Starting daemonization process" in
    let* d := daemonize p in
    match d with
    | (Some err, printed, warnings) =>
        let* _ := logf ("Failed to daemonize error=" +:+ Error err) in
        ret (Exited 1, printed, warnings)
    | (None, printed, warnings) => ret (Returned, printed, warnings)
    end
  else
    let* _ := logf ("Starting host manager port=" +:+ port flags +:+
                    " audit=" +:+ bool_string (auditLog flags)) in
    let* started := main env in
    match started with
    | Exit code => ret (Exited code, [], [])
    | Serve =>
        let* _ := logf ("HTTP server ready address=:" +:+ port flags) in
        ret (Listening (":" +:+ port flags), [], [])
    end.

(** ** Vocabulary of the statements *)

(** The state of a freshly provisioned host, as [Load] makes it. *)
Definition freshState : HostState :=
  mkHostState false None "" "" "" false false false (Some ∅).

(** What [Load] answers on a given state file. *)
Definition Load_result (f : File) : HostState + error :=
  match f with
  | Absent => inl freshState
  | Unreadable why => inr (ErrMsg ("failed to read state file: " +:+ why))
  | Bytes (Json st) =>
      inl match Clusters st with
          | None => set_Clusters (Some ∅) st
          | Some _ => st
          end
  | Bytes Malformed =>
      inr (ErrMsg ("failed to parse state file: " +:+
                   "unexpected end of JSON input"))
  end.

(** Weakest precondition of a computation: [Q] holds of what it returns and
    of the world it leaves. *)
Definition wp {A} (m : M A) (Q : Outcome A -> World -> Prop) (w : World)
    : Prop :=
  Q (m w).1 (m w).2.

(** What [Save] leaves: either the write went through and the file holds the
    new state, or an error is returned and the file is as it was, cut off,
    or holds the new state all the same (the close failed). The write is the
    one thing added to the trace; the log is not touched. *)
Inductive Saved (st : HostState) (w : World)
    : Outcome (option error) -> World -> Prop :=
| Saved_ok t :
    Saved st w (Ret None)
      (mkWorld (Bytes (Json st)) t (Wrote (Json st) true :: trace w) (logs w))
| Saved_unchanged e t :
    Saved st w (Ret (Some e))
      (mkWorld (disk w) t (Wrote (Json st) false :: trace w) (logs w))
| Saved_cut e t :
    Saved st w (Ret (Some e))
      (mkWorld (Bytes Malformed) t (Wrote (Json st) false :: trace w) (logs w))
| Saved_written e t :
    Saved st w (Ret (Some e))
      (mkWorld (Bytes (Json st)) t (Wrote (Json st) false :: trace w) (logs w)).

(** What a mutator of the state store does: it fails at its [Load] and
    leaves the world as it was, or it saves a state [st'] that [f] relates to
    the loaded one. *)
Inductive Mutated (f : HostState -> HostState -> Prop) (w : World)
    : Outcome (option error) -> World -> Prop :=
| Mutated_noload e :
    Load_result (disk w) = inr e -> Mutated f w (Ret (Some e)) w
| Mutated_save st st' o w' :
    Load_result (disk w) = inl st -> f st st' -> Saved st' w o w' ->
    Mutated f w o w'.

(** The system calls [Save] makes on the state file when none of them
    fails: those of its [ioutil.WriteFile]. *)
Definition Save_ops (state : HostState) : list FsOp :=
  match MarshalIndent state with
  | inr _ => []
  | inl data => WriteFile_ops data
  end.

(** An event that lets the initializer go on: a call or a write that
    succeeded, or the lookup of the instance type, whose failure
    [Initialize] tolerates. *)
Definition ok_event (e : Event) : Prop :=
  match e with
  | Called GetInstanceType _ => True
  | Called _ ok => ok = true
  | Wrote _ ok => ok = true
  end.

(** The names of the clusters of a state all satisfy [N]. *)
Definition names_in (N : string -> Prop) (st : HostState) : Prop :=
  forall n c, map_index (Clusters st) n = Some c -> N n.

(** The reserved cluster is there, as an infrastructure cluster. *)
Definition has_kind (st : HostState) : Prop :=
  exists c, map_index (Clusters st) "kind" = Some c
            /\ Type_ c = "infrastructure".

(** A state file of a host that is not initialized: whenever it loads, the
    state has [initialized = false] (and cluster names in [N]). *)
Definition pending (N : string -> Prop) (f : File) : Prop :=
  forall st, Load_result f = inl st ->
    Initialized st = false /\ names_in N st.

(** The state after [createBaseInfrastructure] went through. *)
Definition base_ready (N : string -> Prop) (st : HostState) : Prop :=
  Initialized st = false /\ RegistryRunning st = true /\
  BaseClusterReady st = true /\ has_kind st /\ names_in N st.

(** The state after [Initialize] went through. *)
Definition initialized (N : string -> Prop) (st : HostState) : Prop :=
  Initialized st = true /\ PackagesInstalled st = true /\
  BaseClusterReady st = true /\ RegistryRunning st = true /\
  has_kind st /\ names_in N st.

(** The state file after a run of [Initialize] that returned an error: that
    of a host that is not initialized, or, when the last write failed at the
    close, that of an initialized one. *)
Definition stopped (N : string -> Prop) (f : File) : Prop :=
  pending N f \/ exists st, Load_result f = inl st /\ initialized N st.


(** The life of the host: the process is about to run [main] ([Starting]) or
    its server takes requests ([Serving]). A host starts without a state
    file; [main] either leaves with [os.Exit], and the process is started
    again later, or starts the server; the server handles one request after
    the other; the process may be stopped and started again at any time
    between requests. *)
Inductive Phase :=
| Starting
| Serving.

Inductive reachable (env : Env) : Phase -> World -> Prop :=
| reach_fresh t :
    reachable env Starting (mkWorld Absent t [] [])
| reach_exit w w' code :
    reachable env Starting w -> main env w = (Ret (Exit code), w') ->
    reachable env Starting w'
| reach_serve w w' :
    reachable env Starting w -> main env w = (Ret Serve, w') ->
    reachable env Serving w'
| reach_request w r :
    reachable env Serving w -> reachable env Serving (route env r w).2
| reach_restart w :
    reachable env Serving w -> reachable env Starting w.

(** What a run of the initializer that started in [w0] has come to: it
    returned [r]; what it did to the outside is [l], newest first, and every
    event but the newest went well; when it returns an error the state file
    satisfies [bad], and when it returns none every event went well and the
    state file loads into a state that satisfies [good]. *)
Definition run_post (w0 : World) (bad : File -> Prop) (good : HostState -> Prop)
    (o : Outcome (option error)) (w' : World) : Prop :=
  exists r l, o = Ret r /\ trace w' = l ++ trace w0 /\
    Forall ok_event (tail l) /\
    match r with
    | Some _ => bad (disk w')
    | None => Forall ok_event l /\
              exists st, Load_result (disk w') = inl st /\ good st
    end.

(** The state of an initialized host: the reserved cluster is there as the
    infrastructure cluster, every other cluster is a development cluster,
    and no cluster has the empty name. *)
Definition settled (st : HostState) : Prop :=
  Initialized st = true /\ has_kind st /\
  (forall n c, map_index (Clusters st) n = Some c -> n <> "kind" ->
     Type_ c = "development") /\
  names_in (fun n => n <> "") st.

(** The state file while the server runs, and before [main] runs. *)
Definition serving_file (f : File) : Prop :=
  forall st, Load_result f = inl st -> settled st.

Definition starting_file (f : File) : Prop :=
  forall st, Load_result f = inl st ->
    settled st \/ (Initialized st = false /\ names_in (fun n => n = "kind") st).

(** What a request that came in [w0] has done to the state file: nothing, or
    it left it cut off, or it replaced the state by one that is settled when
    the old one was, with the same entry for the reserved cluster. *)
Definition request_post (w0 : World) (o : Outcome Response) (w' : World)
    : Prop :=
  (exists resp, o = Ret resp)
  /\ (disk w' = disk w0
      \/ disk w' = Bytes Malformed
      \/ exists st st',
           Load_result (disk w0) = inl st
           /\ Load_result (disk w') = inl st'
           /\ (settled st ->
               settled st'
               /\ map_index (Clusters st') "kind"
                  = map_index (Clusters st) "kind")).

(** What [Load] makes of a parsed state: a nil cluster map becomes an
    allocated, empty one. *)
Definition allocated (st : HostState) : HostState :=
  match Clusters st with
  | None => set_Clusters (Some ∅) st
  | Some _ => st
  end.

(** The type [handleCreateCluster] gives a new cluster. *)
Definition clusterType_of (name : string) : string :=
  if bool_decide (name = "kind") then "infrastructure" else "development".

(** The requests that only read. *)
Definition reads_state_only (r : Request) : bool :=
  match r with
  | GetHealth | GetHostStatus | GetVersion | GetClusters | GetCluster _
  | GetRegistryStatus => true
  | _ => false
  end.

(** The projection of a cluster of the state onto the response shape. *)
Definition response_of (name : string) (info : ClusterInfo) : ClusterResponse :=
  mkClusterResponse name (Status info) (Created info) (Type_ info)
    (KubeVirt info).

(** An event that is a call, not a write of the state file. *)
Definition is_call (e : Event) : Prop :=
  match e with
  | Called _ _ => True
  | Wrote _ _ => False
  end.

(** What a run of the initializer comes to on a state file that does not
    load: an error, the file as it was, only calls in the trace, the oldest
    of them the storage detection. *)
Definition unloadable_post (w0 : World) (o : Outcome (option error))
    (w' : World) : Prop :=
  exists e l ok,
    o = Ret (Some e) /\ disk w' = disk w0
    /\ trace w' = l ++ trace w0
    /\ Forall is_call l
    /\ last l = Some (Called DetectStorage ok).

(** A device name that the scan takes for the instance store. *)
Definition eligible (mc : Machine) (name : string) : Prop :=
  HasPrefix name "nvme" = true /\ HasSuffix name "n1" = true
  /\ isInstanceStore mc ("/dev/" +:+ name) = true.

(** A storage configuration whose three fields agree. *)
Definition coherent (c : StorageConfig) : Prop :=
  (HasNVMe c = true /\ sc_Type c = "instance-store"
   /\ HasPrefix (Device c) "/dev/nvme" = true)
  \/ (HasNVMe c = false /\ sc_Type c = "ebs-only" /\ Device c = "").

(** A name of an environment variable: a letter or an underscore, then
    letters, digits and underscores. *)
Definition valid_name (name : string) : bool :=
  match name with
  | EmptyString => false
  | String c rest =>
      name_start c && forallb name_char (String.list_ascii_of_string rest)
  end.

(** The two commands [kind.connectToRegistry] runs in a node. *)
Definition node_commands (node : string) : list Command :=
  [ mkCommand ["podman"; "exec"; node; "mkdir"; "-p";
               "/etc/containerd/certs.d/localhost:5001"] None;
    mkCommand ["podman"; "exec"; "-i"; node; "cp"; "/dev/stdin";
               "/etc/containerd/certs.d/localhost:5001/hosts.toml"]
      (Some ("[host." +:+ dq +:+ "http://kind-registry:5000" +:+ dq +:+ "]")) ].

(** What [kind.connectToRegistry] has to run for a list of node names: the two
    commands of every node with a name, in the order of the list. *)
Definition node_plan (nodes : list string) : list Command :=
  flat_map node_commands
    (List.filter (fun node => negb (bool_decide (node = ""))) nodes).

(** Commands that all succeeded. *)
Definition all_ok (cs : list Command) : list (Command * bool) :=
  (fun c => (c, true)) <$> cs.

(** The program a command runs. *)
Definition program (c : Command) : string := hd "" (argv c).




(** ** Scenarios *)

(** An environment in which everything succeeds. *)
Definition env_ok : Env :=
  mkEnv (fun _ => inl (mkStorageConfig false "" "ebs-only"))
        (fun _ => inl "t3.large")
        (fun _ _ => inl "apiVersion: v1")
        (fun _ _ => None)
        (fun _ => None)
        (fun t => t)
        (fun _ => "127.0.0.1:40312").


(** The state file cannot be opened for writing; everything else succeeds. *)
Definition env_read_only : Env :=
  mkEnv (fun _ => inl (mkStorageConfig false "" "ebs-only"))
        (fun _ => inl "t3.large")
        (fun _ _ => inl "apiVersion: v1")
        (fun _ _ => None)
        (fun _ => Some (FailOpen, "read-only file system"))
        (fun t => t)
        (fun _ => "127.0.0.1:40312").

(** A fresh host. *)
Definition w_fresh : World := mkWorld Absent 0 [] [].

(** An initialized host with the reserved cluster and a cluster [dev1]. *)
Definition info_kind : ClusterInfo :=
  mkClusterInfo "running" (Some 7) "infrastructure" false.
Definition info_dev1 : ClusterInfo :=
  mkClusterInfo "running" (Some 12) "development" false.
Definition st_dev1 : HostState :=
  mkHostState true (Some 10) "t3.large" "ebs-only" "" true true true
    (Some (<["dev1" := info_dev1]> (<["kind" := info_kind]> ∅))).
Definition w_dev1 : World := mkWorld (Bytes (Json st_dev1)) 20 [] [].

(** The host after a first start in which everything succeeded. *)
Definition w_served : World := (main env_ok w_fresh).2.

(** A host whose state file is cut off. *)
Definition w_corrupt : World := mkWorld (Bytes Malformed) 0 [] [].

(** A machine with two NVMe namespaces, the first one with a file system,
    and a disk; every device has 75 GiB. *)
Definition mc_nvme : Machine :=
  mkMachine (inl ["nvme0n1"; "nvme1n1"; "sda"])
            (fun device => bool_decide (device = "/dev/nvme0n1"))
            (fun _ => Some 80530636800%Z).

(** The daemon started in the foreground, by root, outside a container, with
    an environment that holds an entry without a valid name. *)
Definition flags_fg : Flags := mkFlags false "8080" true false.
Definition p_root : Process :=
  mkProcess (fun _ => false) (fun _ => "") 0 ["/usr/local/bin/host-manager"]
            ["PATH=/usr/bin"; "1BAD=x"] (fun _ _ _ => inl 4242).

(** [strings.TrimSpace] on ASCII text. *)
Definition is_space (c : Ascii.ascii) : bool :=
  let n := Ascii.nat_of_ascii c in
  Nat.leb 9 n && Nat.leb n 13 || Nat.eqb n 32.

Fixpoint trim_left (s : string) : string :=
  match s with
  | EmptyString => EmptyString
  | String c s' => if is_space c then trim_left s' else s
  end.

Fixpoint trim_right (s : string) : string :=
  match s with
  | EmptyString => EmptyString
  | String c s' =>
      match trim_right s' with
      | EmptyString => if is_space c then EmptyString else String c EmptyString
      | t => String c t
      end
  end.

Definition trimSpace (s : string) : string := trim_right (trim_left s).

(** A host on which every command succeeds; kind knows the clusters [kind]
    and [dev1], and each cluster has one node. *)
Definition sh_ok : Shell :=
  mkShell (fun c _ =>
             (None,
              match argv c with
              | ["kind"; "get"; "clusters"] =>
                  "kind" +:+ nl +:+ "dev1" +:+ nl
              | ["kind"; "get"; "nodes"; "--name"; name] =>
                  name +:+ "-control-plane" +:+ nl
              | _ => ""
              end)).

Definition s_start : Session := mkSession 0 [].

(** A host on which kind makes the cluster and then cannot list its nodes;
    every other command succeeds. *)
Definition sh_no_nodes : Shell :=
  mkShell (fun c _ =>
             match argv c with
             | ["kind"; "get"; "nodes"; "--name"; _] =>
                 (Some "exit status 1", "")
             | _ => (None, "")
             end).


(** Every write of the state file fails when the file is closed, with the
    whole document in it; everything else succeeds. *)
Definition env_close_always : Env :=
  mkEnv (fun _ => inl (mkStorageConfig false "" "ebs-only"))
        (fun _ => inl "t3.large")
        (fun _ _ => inl "apiVersion: v1")
        (fun _ _ => None)
        (fun _ => Some (FailClose, "disk quota exceeded"))
        (fun t => t)
        (fun _ => "127.0.0.1:40312").

(** ** Rules of the monad and of the weakest precondition *)

Lemma bind_Ret {A B} (m : M A) (k : A -> M B) (w : World) (a : A)
    (w' : World) :
  m w = (Ret a, w') -> bind m k w = k a w'.
Proof. unfold bind. intros ->. reflexivity. Qed.

Lemma run_eq (env : Env) (c : ExtCall) (w : World) :
  run env c w
    = (Ret (ErrMsg <$> env_run env c (tick w)),
       mkWorld (disk w) (S (tick w))
         (Called c (exited_ok (env_run env c (tick w))) :: trace w) (logs w)).
Proof. reflexivity. Qed.

Lemma wp_ret {A} (a : A) Q w : Q (Ret a) w -> wp (ret a) Q w.
Proof. exact id. Qed.

Lemma wp_bind {A B} (m : M A) (k : A -> M B) Q w :
  wp m (fun o w' => match o with
                    | Ret a => wp (k a) Q w'
                    | Panic msg => Q (Panic msg) w'
                    end) w ->
  wp (bind m k) Q w.
Proof. unfold wp, bind. destruct (m w) as [[a|msg] w']; exact id. Qed.

Lemma wp_conseq {A} (m : M A) (Q1 Q2 : Outcome A -> World -> Prop) w :
  wp m Q1 w -> (forall o w', Q1 o w' -> Q2 o w') -> wp m Q2 w.
Proof. unfold wp. auto. Qed.

Lemma wp_out {A} (m : M A) Q w o w' : m w = (o, w') -> wp m Q w -> Q o w'.
Proof. unfold wp. intros ->. exact id. Qed.

Lemma wp_logf line Q w :
  Q (Ret tt) (mkWorld (disk w) (tick w) (trace w) (line :: logs w)) ->
  wp (logf line) Q w.
Proof. exact id. Qed.

Lemma wp_run env c Q w :
  (forall t,
     (Q (Ret None) (mkWorld (disk w) t (Called c true :: trace w) (logs w)))
     /\ forall e, Q (Ret (Some e))
                   (mkWorld (disk w) t (Called c false :: trace w) (logs w))) ->
  wp (run env c) Q w.
Proof.
  intros H. unfold wp. rewrite run_eq.
  destruct (env_run env c (tick w)); simpl; apply H.
Qed.

Lemma wp_detectStorage env Q w :
  (forall t,
     (forall storage,
        Q (Ret (inl storage))
          (mkWorld (disk w) t (Called DetectStorage true :: trace w) (logs w)))
     /\ forall e,
          Q (Ret (inr e))
            (mkWorld (disk w) t (Called DetectStorage false :: trace w)
               (logs w))) ->
  wp (detectStorage env) Q w.
Proof.
  intros H. unfold wp, detectStorage.
  destruct (env_detectStorage env (tick w)); simpl; apply H.
Qed.

Lemma wp_getInstanceType env Q w :
  (forall t r ok,
     Q (Ret r)
       (mkWorld (disk w) t (Called GetInstanceType ok :: trace w) (logs w))) ->
  wp (getInstanceType env) Q w.
Proof. intros H. unfold wp, getInstanceType. simpl. apply H. Qed.

Lemma wp_GetKubeconfig env name Q w :
  (forall t r ok,
     Q (Ret r)
       (mkWorld (disk w) t (Called (KindGetKubeconfig name) ok :: trace w)
          (logs w))) ->
  wp (kind_GetKubeconfig env name) Q w.
Proof. intros H. unfold wp, kind_GetKubeconfig. simpl. apply H. Qed.

(** ** The state store *)

Lemma Load_eq (w : World) : Load w = (Ret (Load_result (disk w)), w).
Proof.
  unfold Load, bind, ReadFile, ret.
  destruct (disk w) as [|why|[st|]]; reflexivity.
Qed.

Lemma Load_inv (w : World) (o : Outcome (HostState + error)) (w' : World) :
  Load w = (o, w') -> o = Ret (Load_result (disk w)) /\ w' = w.
Proof. rewrite Load_eq. intros H; inversion H; auto. Qed.

Lemma wp_Load Q w : Q (Ret (Load_result (disk w))) w -> wp Load Q w.
Proof. unfold wp. rewrite Load_eq. exact id. Qed.

Lemma Load_result_allocated (f : File) (st : HostState) :
  Load_result f = inl st -> exists m, Clusters st = Some m.
Proof.
  destruct f as [|why|[st0|]]; simpl; intros H; inversion H; subst.
  - exists ∅. reflexivity.
  - destruct (Clusters st0) eqn:E; eauto.
Qed.

Lemma Load_result_Json st m :
  Clusters st = Some m -> Load_result (Bytes (Json st)) = inl st.
Proof. intros H. simpl. rewrite H. reflexivity. Qed.

(** C7. [Load] on a missing state file returns the fresh state
    [{initialized: false, clusters: {}}] and no error; on a file that parses
    it returns the persisted state (with an allocated, empty cluster map in
    place of a nil one); on a file that does not parse it returns an error
    and no state. It never changes the world and never panics. *)
Theorem Load_fresh_persisted_or_corrupt (t : nat) (c : list Event)
    (l : list string) :
  Load (mkWorld Absent t c l)
    = (Ret (inl (mkHostState false None "" "" "" false false false (Some ∅))),
       mkWorld Absent t c l)
  /\ (forall st m, Clusters st = Some m ->
        Load (mkWorld (Bytes (Json st)) t c l)
          = (Ret (inl st), mkWorld (Bytes (Json st)) t c l))
  /\ (forall st, Clusters st = None ->
        Load (mkWorld (Bytes (Json st)) t c l)
          = (Ret (inl (set_Clusters (Some ∅) st)),
             mkWorld (Bytes (Json st)) t c l))
  /\ (exists e, Load (mkWorld (Bytes Malformed) t c l)
                = (Ret (inr e), mkWorld (Bytes Malformed) t c l)).
Proof.
  split; [reflexivity|].
  split; [|split].
  - intros st m Hm. rewrite Load_eq. simpl. rewrite Hm. reflexivity.
  - intros st Hm. rewrite Load_eq. simpl. rewrite Hm. reflexivity.
  - eexists. rewrite Load_eq. reflexivity.
Qed.

Lemma Load_fresh_persisted_or_corrupt_witness :
  Load w_dev1 = (Ret (inl st_dev1), w_dev1).
Proof.
  exact (proj1 (proj2 (Load_fresh_persisted_or_corrupt 20 [] []))
           st_dev1 _ eq_refl).
Defined.

Lemma Save_cases (env : Env) (st : HostState) (w : World) :
  match env_writeFile env (tick w) with
  | None =>
      Save env st w
        = (Ret None,
           mkWorld (Bytes (Json st)) (S (tick w))
             (Wrote (Json st) true :: trace w) (logs w))
  | Some (FailOpen, why) =>
      Save env st w
        = (Ret (Some (ErrMsg ("failed to write state file: " +:+ why))),
           mkWorld (disk w) (S (tick w))
             (Wrote (Json st) false :: trace w) (logs w))
  | Some (FailWrite, why) =>
      Save env st w
        = (Ret (Some (ErrMsg ("failed to write state file: " +:+ why))),
           mkWorld (Bytes Malformed) (S (tick w))
             (Wrote (Json st) false :: trace w) (logs w))
  | Some (FailClose, why) =>
      Save env st w
        = (Ret (Some (ErrMsg ("failed to write state file: " +:+ why))),
           mkWorld (Bytes (Json st)) (S (tick w))
             (Wrote (Json st) false :: trace w) (logs w))
  end.
Proof.
  unfold Save, MarshalIndent, bind, WriteFile.
  destruct (env_writeFile env (tick w)) as [[[| |] why]|]; reflexivity.
Qed.

Lemma Save_Saved (env : Env) (st : HostState) (w : World) :
  Saved st w (Save env st w).1 (Save env st w).2.
Proof.
  pose proof (Save_cases env st w) as H.
  destruct (env_writeFile env (tick w)) as [[[| |] why]|]; rewrite H;
    constructor.
Qed.

Lemma Save_Saved_later (env : Env) (st : HostState) (w : World) (t : nat) :
  Saved st w (Save env st (mkWorld (disk w) t (trace w) (logs w))).1
             (Save env st (mkWorld (disk w) t (trace w) (logs w))).2.
Proof.
  pose proof (Save_Saved env st (mkWorld (disk w) t (trace w) (logs w))) as H.
  inversion H; simpl in *.
  - apply Saved_ok.
  - apply Saved_unchanged.
  - apply Saved_cut.
  - apply Saved_written.
Qed.

Lemma MarkInitialized_Mutated (env : Env) (it sty sd : string) (w : World) :
  Mutated (fun st st' => exists now,
             st' = mkHostState true (Some now) it sty sd true
                     (BaseClusterReady st) (RegistryRunning st) (Clusters st))
    w (MarkInitialized env it sty sd w).1 (MarkInitialized env it sty sd w).2.
Proof.
  unfold MarkInitialized, bind. rewrite Load_eq.
  destruct (Load_result (disk w)) as [st|e] eqn:E.
  - unfold Now at 1. cbv beta iota.
    eapply Mutated_save; [exact E| |].
    + eexists. reflexivity.
    + apply Save_Saved_later.
  - apply Mutated_noload. exact E.
Qed.

Lemma UpdateCluster_Mutated (env : Env) (name sta ty : string) (kv : bool)
    (w : World) :
  Mutated (fun st st' => exists now m,
             Clusters st = Some m /\
             st' = set_Clusters
                     (Some (<[name := mkClusterInfo sta (Some now) ty kv]> m))
                     st)
    w (UpdateCluster env name sta ty kv w).1
      (UpdateCluster env name sta ty kv w).2.
Proof.
  unfold UpdateCluster, bind. rewrite Load_eq.
  destruct (Load_result (disk w)) as [st|e] eqn:E.
  - unfold Now at 1. cbv beta iota.
    destruct (Load_result_allocated _ _ E) as [m Hm]. rewrite Hm.
    eapply Mutated_save; [exact E| |].
    + eexists _, m. split; [exact Hm|reflexivity].
    + apply Save_Saved_later.
  - apply Mutated_noload. exact E.
Qed.

Lemma RemoveCluster_Mutated (env : Env) (name : string) (w : World) :
  Mutated (fun st st' =>
             st' = set_Clusters (delete name <$> Clusters st) st)
    w (RemoveCluster env name w).1 (RemoveCluster env name w).2.
Proof.
  unfold RemoveCluster, bind. rewrite Load_eq.
  destruct (Load_result (disk w)) as [st|e] eqn:E.
  - eapply Mutated_save; [exact E|reflexivity|]. apply Save_Saved.
  - apply Mutated_noload. exact E.
Qed.

Lemma SetRegistryStatus_Mutated (env : Env) (running : bool) (w : World) :
  Mutated (fun st st' => st' = set_RegistryRunning running st)
    w (SetRegistryStatus env running w).1 (SetRegistryStatus env running w).2.
Proof.
  unfold SetRegistryStatus, bind. rewrite Load_eq.
  destruct (Load_result (disk w)) as [st|e] eqn:E.
  - eapply Mutated_save; [exact E|reflexivity|]. apply Save_Saved.
  - apply Mutated_noload. exact E.
Qed.

Lemma SetBaseClusterReady_Mutated (env : Env) (w : World) :
  Mutated (fun st st' => st' = set_BaseClusterReady true st)
    w (SetBaseClusterReady env w).1 (SetBaseClusterReady env w).2.
Proof.
  unfold SetBaseClusterReady, bind. rewrite Load_eq.
  destruct (Load_result (disk w)) as [st|e] eqn:E.
  - eapply Mutated_save; [exact E|reflexivity|]. apply Save_Saved.
  - apply Mutated_noload. exact E.
Qed.

(** A mutator returns: it does not panic. *)
Lemma Mutated_returns f w o w' :
  Mutated f w o w' -> exists r, o = Ret r.
Proof.
  intros [e He|st st' o' w'' Hl Hf Hs]; [eauto|].
  inversion Hs; subst; eauto.
Qed.

(** When a mutator returns an error, the log is as it was, and the state
    file is as it was, or cut off, or holds the state the mutator made: its
    write failed at the close. *)
Lemma Mutated_error f w e w' :
  Mutated f w (Ret (Some e)) w' ->
  logs w' = logs w
  /\ (disk w' = disk w \/ disk w' = Bytes Malformed
      \/ exists st st', Load_result (disk w) = inl st /\ f st st'
                        /\ disk w' = Bytes (Json st')).
Proof.
  intros H. inversion H as [e' He|st st' o' w'' Hl Hf Hs]; subst.
  - auto.
  - inversion Hs; subst; simpl; eauto 8.
Qed.

Lemma wp_Mutated {f} {m : M (option error)} Q w :
  Mutated f w (m w).1 (m w).2 ->
  (forall e, Load_result (disk w) = inr e -> Q (Ret (Some e)) w) ->
  (forall st st' t, Load_result (disk w) = inl st -> f st st' ->
     Q (Ret None)
       (mkWorld (Bytes (Json st')) t (Wrote (Json st') true :: trace w)
          (logs w))
     /\ (forall e,
          Q (Ret (Some e))
            (mkWorld (disk w) t (Wrote (Json st') false :: trace w) (logs w))
          /\ Q (Ret (Some e))
               (mkWorld (Bytes Malformed) t (Wrote (Json st') false :: trace w)
                  (logs w))
          /\ Q (Ret (Some e))
               (mkWorld (Bytes (Json st')) t
                  (Wrote (Json st') false :: trace w) (logs w)))) ->
  wp m Q w.
Proof.
  unfold wp. destruct (m w) as [o w']. simpl. intros HM Hno Hsave.
  inversion HM as [e He|st st' o' w'' Hl Hf Hs]; subst.
  - apply Hno, He.
  - inversion Hs; subst; apply (Hsave st st' t Hl Hf).
Qed.

Lemma handleGetCluster_eq (name : string) (w : World) :
  handleGetCluster name w
    = (Ret match Load_result (disk w) with
           | inr _ => http_Error "Failed to load host state"
                        StatusInternalServerError
           | inl st =>
               match map_index (Clusters st) name with
               | None => http_Error "Cluster not found" StatusNotFound
               | Some info =>
                   mkResponse StatusOK
                     (BodyCluster
                        (mkClusterResponse name (Status info) (Created info)
                           (Type_ info) (KubeVirt info)))
               end
           end, w).
Proof.
  unfold handleGetCluster, bind. rewrite Load_eq.
  destruct (Load_result (disk w)) as [st|e]; [|reflexivity].
  destruct (map_index (Clusters st) name); reflexivity.
Qed.

(** C10. A state file that parses but has no [clusters] field, or a null one,
    loads into a state whose cluster map is allocated and empty; no state
    that [Load] returns has a nil map, so that the insertion of
    [UpdateCluster], the deletion of [RemoveCluster] and the lookup of
    [handleGetCluster] all return and none panics. *)
Theorem Load_allocates_cluster_map :
  (forall i ia it sty sd p b r t c l,
     Load (mkWorld (Bytes (Json (mkHostState i ia it sty sd p b r None))) t c l)
       = (Ret (inl (mkHostState i ia it sty sd p b r (Some ∅))),
          mkWorld (Bytes (Json (mkHostState i ia it sty sd p b r None))) t c l))
  /\ (forall w,
        match (Load w).1 with
        | Ret (inl st) => exists m, Clusters st = Some m
        | Ret (inr _) => True
        | Panic _ => False
        end)
  /\ (forall env name sta ty kv w,
        exists r, (UpdateCluster env name sta ty kv w).1 = Ret r)
  /\ (forall env name w, exists r, (RemoveCluster env name w).1 = Ret r)
  /\ (forall name w, exists resp, (handleGetCluster name w).1 = Ret resp).
Proof.
  split; [reflexivity|].
  split; [|split; [|split]].
  - intros w. rewrite Load_eq. simpl.
    destruct (Load_result (disk w)) as [st|e] eqn:E; [|exact I].
    eapply Load_result_allocated, E.
  - intros env name sta ty kv w.
    eapply Mutated_returns, UpdateCluster_Mutated.
  - intros env name w. eapply Mutated_returns, RemoveCluster_Mutated.
  - intros name w. rewrite handleGetCluster_eq. eauto.
Qed.

(** ** The atomicity of [Save] *)

(** C2, as the code has it. [Save] writes the state file in place: its
    system calls are the truncating open of the state file and the write of
    the document, and what it leaves on disk is what the calls made before a
    failure leave. Whoever reads the file between the two calls finds it
    empty, so that a [Load] at any point of a [Save] returns the old state,
    a parse error or the new state; after the last call it returns the new
    state. *)
Theorem Save_writes_in_place (st : HostState) (f : File) :
  Save_ops st = [OpenTrunc; WriteAll (Json st)]
  /\ (forall env w,
        disk (Save env st w).2
          = fs_run (take match env_writeFile env (tick w) with
                         | None => 2
                         | Some (fault, _) => fault_ops fault
                         end (Save_ops st)) (disk w))
  /\ (forall k,
        let seen := Load_result (fs_run (take k (Save_ops st)) f) in
        seen = Load_result f
        \/ seen = Load_result (Bytes Malformed)
        \/ seen = Load_result (Bytes (Json st)))
  /\ Load_result (fs_run (take 1 (Save_ops st)) f) = Load_result (Bytes Malformed)
  /\ Load_result (fs_run (Save_ops st) f) = Load_result (Bytes (Json st)).
Proof.
  split; [reflexivity|]. split; [|split; [|split; reflexivity]].
  - intros env w. pose proof (Save_cases env st w) as H.
    destruct (env_writeFile env (tick w)) as [[[| |] why]|]; rewrite H;
      reflexivity.
  - intros [|[|k]]; cbv zeta.
    + left. reflexivity.
    + right. left. reflexivity.
    + right. right. destruct k; reflexivity.
Qed.

(** C2, as the claim states it, fails: a reader that comes after the first
    system call of a [Save] finds neither the old state nor the new one, but
    a file that does not parse. *)
Lemma Save_exposes_truncated_file :
  let old := freshState in
  let new := set_RegistryRunning true freshState in
  let seen := (Load (mkWorld (fs_run (take 1 (Save_ops new)) (Bytes (Json old)))
                       0 [] [])).1 in
  take 1 (Save_ops new) = [OpenTrunc]
  /\ seen = Ret (inr (ErrMsg ("failed to parse state file: " +:+
                               "unexpected end of JSON input")))
  /\ seen <> Ret (inl old)
  /\ seen <> Ret (inl new).
Proof. vm_compute. repeat split; discriminate. Qed.

(** ** The host initializer *)

Lemma pending_Malformed N : pending N (Bytes Malformed).
Proof. intros st H. discriminate. Qed.

Lemma pending_Json N st m :
  Clusters st = Some m -> Initialized st = false -> names_in N st ->
  pending N (Bytes (Json st)).
Proof.
  intros Hm Hi Hn st2 H. rewrite (Load_result_Json _ _ Hm) in H.
  inversion H; subst; auto.
Qed.

Lemma names_in_insert N st m name info :
  Clusters st = Some m -> names_in N st -> N name ->
  names_in N (set_Clusters (Some (<[name := info]> m)) st).
Proof.
  intros Hm Hn HN n c. simpl. rewrite lookup_insert.
  destruct (decide (name = n)) as [<-|Hne].
  - auto.
  - intros Hc. apply (Hn n c). rewrite Hm. exact Hc.
Qed.

Ltac prefix_of tr base :=
  lazymatch tr with
  | base => constr:(@nil Event)
  | ?e :: ?tr' => let p := prefix_of tr' base in constr:(e :: p)
  end.

Ltac ok_events := simpl; repeat (constructor; simpl); try reflexivity; try exact I.

(** Closes the branch in which the run has ended. *)
Ltac post_ends :=
  cbn [disk tick trace logs];
  lazymatch goal with
  | |- run_post ?w0 _ _ (Ret ?r) (mkWorld _ _ ?tr _) =>
      let p := prefix_of tr (trace w0) in
      exists r, p; split; [reflexivity|]; split; [reflexivity|];
      split; [ok_events|]
  end.

Ltac run_ends := apply wp_ret; post_ends.

Lemma Forall_tail_app {A} (P : A -> Prop) (l p : list A) :
  Forall P (tail l) -> Forall P p -> Forall P (tail (l ++ p)).
Proof.
  intros Hl Hp. destruct l as [|x l]; simpl in *.
  - destruct p; simpl; [constructor|]. inversion Hp; assumption.
  - apply Forall_app; auto.
Qed.

Lemma run_post_extend w0 w1 p bad good o w' :
  trace w1 = p ++ trace w0 -> Forall ok_event p ->
  run_post w1 bad good o w' -> run_post w0 bad good o w'.
Proof.
  intros Hp Hok (r & l & -> & Htr & Htl & Hr).
  exists r, (l ++ p). split; [reflexivity|].
  split; [rewrite Htr, Hp, app_assoc; reflexivity|].
  split; [apply Forall_tail_app; assumption|].
  destruct r; [assumption|].
  destruct Hr as [Hl Hst]. split; [apply Forall_app; auto|assumption].
Qed.

Lemma run_post_error w0 (bad bad' : File -> Prop) good good' e e' w' :
  (forall f, bad f -> bad' f) ->
  run_post w0 bad good (Ret (Some e)) w' ->
  run_post w0 bad' good' (Ret (Some e')) w'.
Proof.
  intros Hbad' (r & l & Hr & Htr & Htl & Hbad).
  injection Hr as <-. exists (Some e'), l. auto.
Qed.

(** The runs of the initializer on a host that is not initialized, whose
    clusters have names in [N]; the reserved name is one of them. *)
Section Initializer.

Variable env : Env.
Variable N : string -> Prop.
Hypothesis N_kind : N "kind".

Lemma createBaseInfrastructure_spec w :
  pending N (disk w) ->
  wp (createBaseInfrastructure env) (run_post w (pending N) (base_ready N)) w.
Proof.
  intros Hpre. unfold createBaseInfrastructure.
  apply wp_bind, wp_logf. cbv beta iota.
  apply wp_bind, wp_run. intros t; split; [|intros e]; cbv beta iota.
  2:{ run_ends. exact Hpre. }
  apply wp_bind. eapply wp_Mutated; [apply SetRegistryStatus_Mutated| |];
    cbn [disk trace logs tick].
  { intros e He. run_ends. exact Hpre. }
  intros st st1 t1 Hst ->.
  destruct (Hpre _ Hst) as [Hi Hn].
  destruct (Load_result_allocated _ _ Hst) as [m Hm].
  assert (Hpre1 : pending N (Bytes (Json (set_RegistryRunning true st))))
    by (eapply pending_Json; eauto).
  split; [|intros e; split; [|split]]; cbv beta iota.
  2:{ run_ends. exact Hpre. }
  2:{ run_ends. apply pending_Malformed. }
  2:{ run_ends. exact Hpre1. }
  apply wp_bind, wp_logf. cbv beta iota. cbn [disk trace logs tick].
  apply wp_bind, wp_run. intros t2; split; [|intros e]; cbv beta iota.
  2:{ run_ends. exact Hpre1. }
  apply wp_bind. eapply wp_Mutated; [apply UpdateCluster_Mutated| |];
    cbn [disk trace logs tick].
  { intros e He. run_ends. exact Hpre1. }
  intros st' st2 t3 Hst' (now & m' & Hm' & ->).
  rewrite (Load_result_Json (set_RegistryRunning true st) m Hm) in Hst'.
  injection Hst' as <-.
  simpl in Hm'. rewrite Hm in Hm'. injection Hm' as <-.
  set (st2 := set_Clusters _ _).
  assert (Hn2 : names_in N st2).
  { apply names_in_insert; auto. }
  assert (Hpre2 : pending N (Bytes (Json st2))).
  { eapply pending_Json; eauto. }
  assert (Hk2 : has_kind st2).
  { eexists. simpl. rewrite lookup_insert_eq. split; reflexivity. }
  split; [|intros e; split; [|split]]; cbv beta iota.
  2:{ run_ends. exact Hpre1. }
  2:{ run_ends. apply pending_Malformed. }
  2:{ run_ends. exact Hpre2. }
  apply wp_bind. eapply wp_Mutated; [apply SetBaseClusterReady_Mutated| |];
    cbn [disk trace logs tick].
  { intros e He. run_ends. exact Hpre2. }
  intros st' st3 t4 Hst' ->.
  rewrite (Load_result_Json st2 _ eq_refl) in Hst'. injection Hst' as <-.
  assert (Hpre3 : pending N (Bytes (Json (set_BaseClusterReady true st2)))).
  { eapply pending_Json; eauto. }
  split; [|intros e; split; [|split]]; cbv beta iota.
  2:{ run_ends. exact Hpre2. }
  2:{ run_ends. apply pending_Malformed. }
  2:{ run_ends. exact Hpre3. }
  run_ends. split; [ok_events|].
  exists (set_BaseClusterReady true st2).
  split; [reflexivity|].
  repeat split; auto.
Qed.

Lemma MarkInitialized_spec it sty sd w st :
  Load_result (disk w) = inl st -> base_ready N st ->
  wp (MarkInitialized env it sty sd)
    (run_post w (stopped N) (initialized N)) w.
Proof.
  intros Hst (Hi & Hr & Hb & Hk & Hn).
  assert (Hpre : pending N (disk w)).
  { intros st' Hst'. rewrite Hst in Hst'. injection Hst' as <-. auto. }
  eapply wp_Mutated; [apply MarkInitialized_Mutated| |].
  { intros e He. congruence. }
  intros st' st1 t Hst' (now & ->).
  rewrite Hst in Hst'. injection Hst' as <-.
  destruct (Load_result_allocated _ _ Hst) as [m Hm].
  assert (Hdone : exists st1,
            Load_result (Bytes (Json (mkHostState true (Some now) it sty sd
                                        true (BaseClusterReady st)
                                        (RegistryRunning st) (Clusters st))))
              = inl st1 /\ initialized N st1).
  { eexists. split; [eapply Load_result_Json; exact Hm|].
    repeat split; assumption. }
  split; [|intros e; split; [|split]].
  - post_ends. split; [ok_events|]. exact Hdone.
  - post_ends. left. exact Hpre.
  - post_ends. left. apply pending_Malformed.
  - post_ends. right. exact Hdone.
Qed.

Lemma Initialize_spec w :
  pending N (disk w) ->
  wp (Initialize env) (run_post w (stopped N) (initialized N)) w.
Proof.
  intros Hpre. unfold Initialize.
  apply wp_bind, wp_logf. cbv beta iota.
  apply wp_bind, wp_detectStorage.
  intros t; split; [intros storage|intros e]; cbv beta iota.
  2:{ run_ends. left. exact Hpre. }
  apply wp_bind, wp_getInstanceType. intros t1 it it_ok. cbv beta iota.
  apply wp_bind.
  eapply (wp_conseq _
    (fun o w' => exists a, o = Ret a /\ disk w' = disk w /\
       trace w' = [Called GetInstanceType it_ok; Called DetectStorage true]
                  ++ trace w)).
  { destruct it as [ty|e]; apply wp_bind, wp_logf, wp_ret; eexists; eauto. }
  intros o [d0 t0 tr0 lg0] (instanceType & -> & Hd & Htr).
  cbn [disk trace] in Hd, Htr. subst d0 tr0. simpl app.
  apply wp_bind, wp_logf. cbv beta iota.
  apply wp_bind, wp_logf. cbv beta iota.
  apply wp_bind. unfold installPackages. apply wp_run.
  intros t2; split; [|intros e]; cbv beta iota.
  2:{ run_ends. left. exact Hpre. }
  apply wp_bind, wp_logf. cbv beta iota.
  apply wp_bind.
  eapply (wp_conseq _
    (fun o w' => exists r setup ok, o = Ret r /\ disk w' = disk w /\
       trace w' = [Called setup ok; Called InstallPackages true;
                   Called GetInstanceType it_ok; Called DetectStorage true]
                  ++ trace w /\
       setup <> GetInstanceType /\
       (r = None -> ok = true))).
  { unfold configureStorage, setupNVMeStorage, setupDefaultStorage.
    destruct (HasNVMe storage); apply wp_bind, wp_logf, wp_run;
      intros t3; split; [|intros e| |intros e]; eexists _, _, _;
      repeat split; (reflexivity || discriminate). }
  intros o [d0 t3 tr0 lg1] (r & setup & ok & -> & Hd & Htr & Hsetup & Hok).
  cbn [disk trace] in Hd, Htr. subst d0 tr0. simpl app.
  destruct r as [e|].
  { apply wp_ret. exists (Some (Errorf "failed to configure storage: " e)),
      [Called setup ok; Called InstallPackages true;
       Called GetInstanceType it_ok; Called DetectStorage true].
    split; [reflexivity|]. split; [reflexivity|]. split; [ok_events|].
    left. exact Hpre. }
  rewrite (Hok eq_refl).
  assert (Hsetup_ok : ok_event (Called setup true)).
  { destruct setup; simpl; reflexivity || exact I. }
  apply wp_bind, wp_logf. cbv beta iota.
  apply wp_bind. unfold configureSSH. apply wp_bind, wp_logf, wp_ret.
  cbv beta iota.
  apply wp_bind, wp_logf. cbv beta iota. cbn [disk tick trace logs].
  match goal with |- wp _ _ ?x => set (w1 := x) end.
  assert (Hext : trace w1 = [Called setup true; Called InstallPackages true;
                             Called GetInstanceType it_ok;
                             Called DetectStorage true] ++ trace w)
    by reflexivity.
  assert (Hoks : Forall ok_event [Called setup true; Called InstallPackages true;
                                  Called GetInstanceType it_ok;
                                  Called DetectStorage true]).
  { repeat constructor. exact Hsetup_ok. }
  apply wp_bind.
  eapply wp_conseq; [apply (createBaseInfrastructure_spec w1 Hpre)|].
  intros o w2 Hpost.
  pose proof (run_post_extend _ _ _ _ _ _ _ Hext Hoks Hpost) as Hpost0.
  destruct Hpost as (r & l & -> & Htr2 & Htl & Hr).
  destruct r as [e|].
  { apply wp_ret. eapply run_post_error; [|exact Hpost0].
    intros f Hf. left. exact Hf. }
  destruct Hr as [Hl (st & Hst & Hready)].
  apply wp_bind.
  eapply wp_conseq; [apply (MarkInitialized_spec _ _ _ w2 st Hst Hready)|].
  intros o w3 Hpost3.
  assert (Hext2 : trace w2 = (l ++ [Called setup true; Called InstallPackages true;
                             Called GetInstanceType it_ok;
                             Called DetectStorage true]) ++ trace w).
  { rewrite Htr2, Hext, app_assoc. reflexivity. }
  assert (Hoks2 : Forall ok_event (l ++ [Called setup true; Called InstallPackages true;
                             Called GetInstanceType it_ok;
                             Called DetectStorage true])).
  { apply Forall_app; auto. }
  pose proof (run_post_extend _ _ _ _ _ _ _ Hext2 Hoks2 Hpost3) as Hpost4.
  destruct Hpost3 as (r & l3 & -> & _).
  destruct r as [e|].
  { apply wp_ret. eapply run_post_error; [|exact Hpost4]. auto. }
  apply wp_bind, wp_logf, wp_ret. exact Hpost4.
Qed.

End Initializer.







(** ** The start-up *)

(** C3. When the state loaded at start-up has [initialized = true], [main]
    goes straight to the server: it logs one line and does nothing else, so
    the world it leaves has the same state file, the same tick (no
    interaction with the outside at all) and the same trace of external
    calls and writes. The initializer is therefore run only when no state with
    [initialized = true] was loaded. *)
Theorem main_skips_initialized_host (env : Env) (w : World) :
  (forall st,
     Load w = (Ret (inl st), w) ->
     Initialized st = true ->
     main env w
       = (Ret Serve,
          mkWorld (disk w) (tick w) (trace w)
            ("Host already initialized, skipping setup" :: logs w)))
  /\ (trace (main env w).2 <> trace w ->
      forall st, Load w = (Ret (inl st), w) -> Initialized st = false).
Proof.
  assert (Hskip : forall st,
            Load w = (Ret (inl st), w) -> Initialized st = true ->
            main env w
              = (Ret Serve,
                 mkWorld (disk w) (tick w) (trace w)
                   ("Host already initialized, skipping setup" :: logs w))).
  { intros st Hload Hinit. unfold main.
    rewrite (bind_Ret _ _ _ _ _ Hload).
    rewrite (bind_Ret _ _ w st w eq_refl).
    rewrite Hinit. reflexivity. }
  split; [exact Hskip|].
  intros Htrace st Hload.
  destruct (Initialized st) eqn:Hinit; [|reflexivity].
  rewrite (Hskip st Hload Hinit) in Htrace. simpl in Htrace. congruence.
Qed.

Lemma main_skips_initialized_host_witness :
  main env_ok w_dev1
    = (Ret Serve,
       mkWorld (disk w_dev1) (tick w_dev1) (trace w_dev1)
         ["Host already initialized, skipping setup"]).
Proof.
  apply (proj1 (main_skips_initialized_host env_ok w_dev1) st_dev1);
    reflexivity.
Defined.

Lemma main_spec env w :
  starting_file (disk w) ->
  wp (main env)
    (fun o w' => exists s, o = Ret s /\
       match s with
       | Serve => serving_file (disk w')
       | Exit _ => starting_file (disk w')
       end) w.
Proof.
  intros Hinv. unfold main. apply wp_bind, wp_Load. cbv beta iota.
  assert (Hinit : forall w1, disk w1 = disk w ->
            pending (fun n => n = "kind") (disk w1) ->
            wp (bind (logf "Fresh host detected, running initialization")
                  (fun _ => bind (Initialize env)
                     (fun err => match err with
                        | Some e =>
                            bind (logf ("Host setup failed error=" +:+ Error e))
                              (fun _ => ret (Exit 1))
                        | None =>
                            bind (logf "Host initialization complete")
                              (fun _ => ret Serve)
                        end)))
              (fun o w' => exists s, o = Ret s /\
                 match s with
                 | Serve => serving_file (disk w')
                 | Exit _ => starting_file (disk w')
                 end) w1).
  { intros w1 Hd Hpending. apply wp_bind, wp_logf. cbv beta iota.
    apply wp_bind.
    eapply wp_conseq;
      [apply (Initialize_spec env (fun n => n = "kind")); auto|].
    intros o w' (r & l & -> & _ & _ & Hr).
    assert (Hsettled : forall st,
              initialized (fun n => n = "kind") st -> settled st).
    { intros st (Hi & _ & _ & _ & Hk & Hn).
      split; [exact Hi|]. split; [exact Hk|]. split.
      - intros n c Hc Hne. destruct (Hne (Hn n c Hc)).
      - intros n c Hc. rewrite (Hn n c Hc). discriminate. }
    destruct r as [e|].
    - apply wp_bind, wp_logf, wp_ret. exists (Exit 1).
      split; [reflexivity|]. intros st Hst. cbn [disk] in Hst.
      destruct Hr as [Hp|(st1 & Hst1 & Hdone)].
      + right. apply Hp, Hst.
      + rewrite Hst1 in Hst. injection Hst as <-. left.
        apply Hsettled, Hdone.
    - apply wp_bind, wp_logf, wp_ret. exists Serve.
      split; [reflexivity|]. destruct Hr as (_ & st & Hst & Hdone).
      intros st2 Hst2. cbn [disk] in Hst2. rewrite Hst in Hst2.
      injection Hst2 as <-. apply Hsettled, Hdone. }
  destruct (Load_result (disk w)) as [st|e] eqn:Hst.
  - apply wp_bind, wp_ret. cbv beta iota.
    destruct (Initialized st) eqn:Hi; simpl negb; cbv iota.
    + apply wp_bind, wp_logf, wp_ret. exists Serve. split; [reflexivity|].
      intros st2 Hst2. cbn [disk] in Hst2. rewrite Hst in Hst2.
      injection Hst2 as <-.
      destruct (Hinv st Hst) as [Hs|[Hf _]]; [exact Hs|congruence].
    + apply Hinit; [reflexivity|].
      intros st2 Hst2. rewrite Hst in Hst2. injection Hst2 as <-.
      destruct (Hinv st Hst) as [(Ht & _)|Hp]; [congruence|exact Hp].
  - apply wp_bind, wp_bind, wp_logf, wp_ret. cbv beta iota.
    simpl negb. cbv iota.
    apply Hinit; [reflexivity|].
    intros st Hst'. cbn [disk] in Hst'. congruence.
Qed.

(** ** The request handlers *)

(** C5. A delete request for the reserved cluster ["kind"] is answered with
    403 Forbidden whatever the environment and the world, and the world is
    left exactly as it was: no call to the kind client, no write. *)
Theorem delete_reserved_is_forbidden (env : Env) (w : World) :
  handleDeleteCluster env "kind" w
    = (Ret (http_Error "Cannot delete infrastructure cluster" StatusForbidden),
       w).
Proof. reflexivity. Qed.

(** C6. A delete request for another name whose external delete succeeds is
    answered with 200 and [success: true], whatever [RemoveCluster] does
    afterwards; when [RemoveCluster] returns an error, the handler only adds
    a line with that error to the log. *)
Theorem delete_succeeds_despite_state_failure (env : Env) (name : string)
    (w : World) :
  name <> "kind" ->
  env_run env (KindDeleteCluster name) (tick w) = None ->
  let w1 := mkWorld (disk w) (S (tick w))
              (Called (KindDeleteCluster name) true :: trace w) (logs w) in
  (handleDeleteCluster env name w).1
    = Ret (mkResponse StatusOK
             (BodyDone true ("Cluster " +:+ name +:+ " deleted")))
  /\ forall e w2,
       RemoveCluster env name w1 = (Ret (Some e), w2) ->
       (handleDeleteCluster env name w).2
         = mkWorld (disk w2) (tick w2) (trace w2)
             (("Failed to remove cluster from state: " +:+ Error e) :: logs w2).
Proof.
  intros Hname Hdel w1. unfold handleDeleteCluster.
  rewrite bool_decide_eq_false_2 by exact Hname.
  assert (Hk : kind_DeleteCluster env name w = (Ret None, w1)).
  { unfold kind_DeleteCluster. rewrite run_eq, Hdel. reflexivity. }
  rewrite (bind_Ret _ _ _ _ _ Hk).
  destruct (Mutated_returns _ _ _ _ (RemoveCluster_Mutated env name w1))
    as [r Hr].
  destruct (RemoveCluster env name w1) as [o w2] eqn:E. simpl in Hr. subst o.
  rewrite (bind_Ret _ _ _ _ _ E).
  split.
  - destruct r; reflexivity.
  - intros e w2' Heq. inversion Heq; subst. reflexivity.
Qed.

Lemma delete_succeeds_despite_state_failure_witness :
  (handleDeleteCluster env_read_only "dev1" w_dev1).1
    = Ret (mkResponse StatusOK (BodyDone true "Cluster dev1 deleted"))
  /\ logs (handleDeleteCluster env_read_only "dev1" w_dev1).2
     = ["Failed to remove cluster from state: " +:+
        "failed to write state file: read-only file system"]
  /\ disk (handleDeleteCluster env_read_only "dev1" w_dev1).2 = disk w_dev1.
Proof.
  destruct (delete_succeeds_despite_state_failure env_read_only "dev1" w_dev1)
    as [Hresp Hlog]; [discriminate|reflexivity|].
  split; [exact Hresp|].
  erewrite Hlog; [|vm_compute; reflexivity].
  split; reflexivity.
Defined.

Lemma handleListClusters_eq (w : World) :
  handleListClusters w
    = (Ret match Load_result (disk w) with
           | inr _ => http_Error "Failed to load host state"
                        StatusInternalServerError
           | inl st =>
               mkResponse StatusOK
                 (BodyClusters
                    ((fun ni : string * ClusterInfo =>
                        mkClusterResponse ni.1 (Status ni.2) (Created ni.2)
                          (Type_ ni.2) (KubeVirt ni.2))
                     <$> match Clusters st with
                         | None => []
                         | Some m => map_to_list m
                         end))
           end, w).
Proof.
  unfold handleListClusters, bind. rewrite Load_eq.
  destruct (Load_result (disk w)) as [st|e]; reflexivity.
Qed.

(** A name that the cluster map does not hold is not listed. *)
Lemma not_listed (m : option (gmap string ClusterInfo)) (name : string) :
  map_index m name = None ->
  name ∉ resp_Name <$>
    ((fun ni : string * ClusterInfo =>
        mkClusterResponse ni.1 (Status ni.2) (Created ni.2) (Type_ ni.2)
          (KubeVirt ni.2))
     <$> match m with
         | None => []
         | Some m => map_to_list m
         end).
Proof.
  intros Hnone Hin.
  apply list_elem_of_fmap in Hin as [r [Hr Hin]].
  apply list_elem_of_fmap in Hin as [[n c] [Hnc Hin]].
  subst r. simpl in Hr. subst n.
  destruct m as [m|]; simpl in *.
  - apply elem_of_map_to_list in Hin. congruence.
  - inversion Hin.
Qed.

(** A name that the cluster map holds is listed. *)
Lemma listed (m : gmap string ClusterInfo) (name : string) (info : ClusterInfo) :
  m !! name = Some info ->
  name ∈ resp_Name <$>
    ((fun ni : string * ClusterInfo =>
        mkClusterResponse ni.1 (Status ni.2) (Created ni.2) (Type_ ni.2)
          (KubeVirt ni.2))
     <$> map_to_list m).
Proof.
  intros Hin. apply list_elem_of_fmap. eexists. split; [|
    apply list_elem_of_fmap; exists (name, info); split; [reflexivity|];
    apply elem_of_map_to_list; exact Hin].
  reflexivity.
Qed.

(** C9. A create request for a new name whose external creation succeeds is
    answered with 201 and the cluster body, whatever [UpdateCluster] does
    afterwards. When [UpdateCluster] returns an error, the handler only adds
    a line with that error to the log, and whether the cluster the response
    announced is there afterwards depends on where the write failed: it is
    there ([handleGetCluster] answers 200 for it and [handleListClusters]
    lists it) exactly when the write of the state file failed at the close,
    with the whole document in the file; when the state did not reach the
    file, the cluster is not there. *)
Theorem create_succeeds_despite_state_failure (env : Env)
    (req : ClusterCreateRequest) (w : World) (st : HostState) :
  req_Name req <> "" ->
  Load w = (Ret (inl st), w) ->
  map_index (Clusters st) (req_Name req) = None ->
  env_run env (KindCreateCluster (req_Name req) true) (tick w) = None ->
  let clusterType :=
    if bool_decide (req_Name req = "kind") then "infrastructure"
    else "development" in
  let w1 := mkWorld (disk w) (S (tick w))
              (Called (KindCreateCluster (req_Name req) true) true :: trace w)
              (logs w) in
  let w' := (handleCreateCluster env (Some req) w).2 in
  let closed :=
    exists why, env_writeFile env (S (S (tick w))) = Some (FailClose, why) in
  (handleCreateCluster env (Some req) w).1
    = Ret (mkResponse StatusCreated
             (BodyCreated true
                (mkClusterResponse (req_Name req) "running" None clusterType
                   (req_KubeVirt req))))
  /\ forall e w2,
       UpdateCluster env (req_Name req) "running" clusterType
         (req_KubeVirt req) w1 = (Ret (Some e), w2) ->
       w' = mkWorld (disk w2) (tick w2) (trace w2)
              (("Failed to update cluster state: " +:+ Error e) :: logs w2)
       /\ (forall resp, (handleGetCluster (req_Name req) w').1 = Ret resp ->
             (status resp = StatusOK <-> closed))
       /\ (forall l, (handleListClusters w').1
                       = Ret (mkResponse StatusOK (BodyClusters l)) ->
             (req_Name req ∈ resp_Name <$> l <-> closed)).
Proof.
  intros Hname Hload Hnew Hcreate clusterType w1 w' closed.
  apply Load_inv in Hload as [Hload _].
  assert (Hst : Load_result (disk w) = inl st) by congruence. clear Hload.
  assert (Heq : handleCreateCluster env (Some req) w
                = bind (UpdateCluster env (req_Name req) "running" clusterType
                          (req_KubeVirt req))
                    (fun err =>
                       bind match err with
                            | Some e => logf ("Failed to update cluster state: "
                                              +:+ Error e)
                            | None => ret tt
                            end
                         (fun _ =>
                            ret (mkResponse StatusCreated
                                   (BodyCreated true
                                      (mkClusterResponse (req_Name req)
                                         "running" None clusterType
                                         (req_KubeVirt req)))))) w1).
  { unfold handleCreateCluster.
    rewrite bool_decide_eq_false_2 by exact Hname.
    rewrite (bind_Ret _ _ _ _ _ (Load_eq w)), Hst, Hnew.
    assert (Hk : kind_CreateCluster env (req_Name req) true w = (Ret None, w1)).
    { unfold kind_CreateCluster. rewrite run_eq, Hcreate. reflexivity. }
    rewrite (bind_Ret _ _ _ _ _ Hk). reflexivity. }
  destruct (Load_result_allocated _ _ Hst) as [m Hm].
  set (st2 := set_Clusters
                (Some (<[req_Name req :=
                           mkClusterInfo "running"
                             (Some (env_now env (S (tick w)))) clusterType
                             (req_KubeVirt req)]> m)) st).
  assert (Hup : UpdateCluster env (req_Name req) "running" clusterType
                  (req_KubeVirt req) w1
                = Save env st2
                    (mkWorld (disk w) (S (S (tick w))) (trace w1) (logs w))).
  { unfold UpdateCluster.
    rewrite (bind_Ret _ _ _ _ _ (Load_eq w1)). cbn [disk w1]. rewrite Hst.
    rewrite (bind_Ret _ _ w1 (env_now env (S (tick w)))
               (mkWorld (disk w) (S (S (tick w))) (trace w1) (logs w)) eq_refl).
    rewrite Hm. reflexivity. }
  pose proof (Save_cases env st2
                (mkWorld (disk w) (S (S (tick w))) (trace w1) (logs w))) as Hs.
  cbn [tick disk trace logs] in Hs.
  unfold w'. rewrite Heq. rewrite <- Hup in Hs. clear Hup Heq.
  assert (Hget2 : Load_result (Bytes (Json st2)) = inl st2)
    by (apply (Load_result_Json st2 _ eq_refl)).
  destruct (env_writeFile env (S (S (tick w)))) as [[[| |] why]|] eqn:Hw;
    rewrite (bind_Ret _ _ _ _ _ Hs); rewrite Hs;
    (split; [reflexivity|]); intros e w2 [= <- <-];
    (split; [reflexivity|]); unfold bind, logf, ret; cbv beta iota;
    cbn [fst snd disk tick trace logs].
  - split.
    + intros resp. rewrite handleGetCluster_eq. cbn [fst disk].
      rewrite Hst, Hnew. intros [= <-]. split; [discriminate|].
      intros [why' Hc]. discriminate Hc.
    + intros l. rewrite handleListClusters_eq. cbn [fst disk]. rewrite Hst.
      intros [= <-]. split.
      * intros Hin. destruct (not_listed _ _ Hnew Hin).
      * intros [why' Hc]. discriminate Hc.
  - split.
    + intros resp. rewrite handleGetCluster_eq. cbn [fst disk Load_result].
      intros [= <-]. split; [discriminate|].
      intros [why' Hc]. discriminate Hc.
    + intros l. rewrite handleListClusters_eq. cbn [fst disk Load_result].
      intros [=].
  - split.
    + intros resp. rewrite handleGetCluster_eq. cbn [fst disk].
      rewrite Hget2. cbn [st2 set_Clusters Clusters map_index].
      rewrite lookup_insert_eq. intros [= <-].
      split; [intros _; exists why; reflexivity|reflexivity].
    + intros l. rewrite handleListClusters_eq. cbn [fst disk].
      rewrite Hget2. intros [= <-].
      split; [intros _; exists why; reflexivity|]. intros _.
      cbn [st2 set_Clusters Clusters].
      eapply listed. apply lookup_insert_eq.
Qed.

Lemma create_succeeds_despite_state_failure_witness :
  let req := mkClusterCreateRequest "dev2" true in
  let w' := (handleCreateCluster env_read_only (Some req) w_dev1).2 in
  let w'' := (handleCreateCluster env_close_always (Some req) w_dev1).2 in
  (handleCreateCluster env_read_only (Some req) w_dev1).1
    = Ret (mkResponse StatusCreated
             (BodyCreated true
                (mkClusterResponse "dev2" "running" None "development" true)))
  /\ logs w' = ["Failed to update cluster state: " +:+
                "failed to write state file: read-only file system"]
  /\ (forall resp, (handleGetCluster "dev2" w').1 = Ret resp ->
        status resp <> StatusOK)
  /\ (handleCreateCluster env_close_always (Some req) w_dev1).1
     = (handleCreateCluster env_read_only (Some req) w_dev1).1
  /\ logs w'' = ["Failed to update cluster state: " +:+
                 "failed to write state file: disk quota exceeded"]
  /\ (forall resp, (handleGetCluster "dev2" w'').1 = Ret resp ->
        status resp = StatusOK).
Proof.
  intros req w' w''.
  destruct (create_succeeds_despite_state_failure env_read_only req w_dev1
              st_dev1) as [Hresp Hfail];
    [discriminate|reflexivity|vm_compute; reflexivity|reflexivity|].
  destruct (create_succeeds_despite_state_failure env_close_always req w_dev1
              st_dev1) as [Hresp2 Hfail2];
    [discriminate|reflexivity|vm_compute; reflexivity|reflexivity|].
  split; [exact Hresp|].
  edestruct Hfail as (Hw & Hget & _); [vm_compute; reflexivity|].
  edestruct Hfail2 as (Hw2 & Hget2 & _); [vm_compute; reflexivity|].
  split; [unfold w'; rewrite Hw; reflexivity|].
  split.
  { intros resp Hr Hok. apply (Hget resp Hr) in Hok as [why Hc].
    discriminate Hc. }
  split; [rewrite Hresp, Hresp2; reflexivity|].
  split; [unfold w''; rewrite Hw2; reflexivity|].
  intros resp Hr. apply (Hget2 resp Hr). eexists. reflexivity.
Defined.


(** Closes the branch in which the handler answers without a write. *)
Ltac req_ends :=
  apply wp_ret; split; [eexists; reflexivity|]; cbn [disk]; auto.

Lemma settled_insert st m name info :
  Clusters st = Some m -> m !! name = None -> name <> "" ->
  Type_ info = (if bool_decide (name = "kind") then "infrastructure"
                else "development") ->
  settled st ->
  settled (set_Clusters (Some (<[name := info]> m)) st)
  /\ <[name := info]> m !! "kind" = m !! "kind".
Proof.
  intros Hm Hnew Hnonempty Hty (Hi & (k & Hk & Hkt) & Hdev & Hnames).
  rewrite Hm in Hk. simpl in Hk.
  assert (Hne : name <> "kind") by congruence.
  rewrite bool_decide_eq_false_2 in Hty by exact Hne.
  split; [|apply lookup_insert_ne, Hne].
  split; [exact Hi|]. split; [|split].
  - exists k. simpl. rewrite lookup_insert_ne by exact Hne. auto.
  - intros n c. simpl. rewrite lookup_insert.
    destruct (decide (name = n)) as [<-|Hn].
    + intros [= <-] _. exact Hty.
    + intros Hc. apply Hdev. rewrite Hm. exact Hc.
  - apply names_in_insert; assumption.
Qed.

Lemma settled_delete st m name :
  Clusters st = Some m -> name <> "kind" -> settled st ->
  settled (set_Clusters (Some (delete name m)) st)
  /\ delete name m !! "kind" = m !! "kind".
Proof.
  intros Hm Hne (Hi & (k & Hk & Hkt) & Hdev & Hnames).
  rewrite Hm in Hk. simpl in Hk.
  split; [|apply lookup_delete_ne, Hne].
  split; [exact Hi|]. split; [|split].
  - exists k. simpl. rewrite lookup_delete_ne by exact Hne. auto.
  - intros n c. simpl. rewrite lookup_delete.
    destruct (decide (name = n)) as [<-|Hn]; [discriminate|].
    intros Hc. apply Hdev. rewrite Hm. exact Hc.
  - intros n c. simpl. rewrite lookup_delete.
    destruct (decide (name = n)) as [<-|Hn]; [discriminate|].
    intros Hc. apply (Hnames n c). rewrite Hm. exact Hc.
Qed.

Lemma handleCreateCluster_spec env req w :
  wp (handleCreateCluster env req) (request_post w) w.
Proof.
  unfold handleCreateCluster. destruct req as [req|]; [|req_ends].
  destruct (bool_decide (req_Name req = "")) eqn:Hname; [req_ends|].
  apply bool_decide_eq_false in Hname.
  apply wp_bind, wp_Load. cbv beta iota.
  destruct (Load_result (disk w)) as [st|e] eqn:Hst; [|req_ends].
  destruct (map_index (Clusters st) (req_Name req)) eqn:Hnew; [req_ends|].
  apply wp_bind. unfold kind_CreateCluster. apply wp_run.
  intros t; split; [|intros e]; cbv beta iota; [|req_ends].
  apply wp_bind. eapply wp_Mutated; [apply UpdateCluster_Mutated| |];
    cbn [disk trace logs tick].
  { intros e He. apply wp_bind, wp_logf. req_ends. }
  intros st0 st' t' Hst0 (now & m & Hm & ->).
  rewrite Hst in Hst0. injection Hst0 as <-.
  rewrite Hm in Hnew. simpl in Hnew.
  split; [|intros e; split; [|split]]; cbv beta iota.
  1: apply wp_bind, wp_ret.
  4: apply wp_bind, wp_logf.
  1, 4: cbv beta iota; apply wp_ret;
    (split; [eexists; reflexivity|]); right; right;
    eexists st, _; (split; [exact Hst|]);
    (split; [cbn [disk]; eapply Load_result_Json; reflexivity|]);
    intros Hsettled; rewrite Hm; simpl;
    apply settled_insert; auto.
  - apply wp_bind, wp_logf. req_ends.
  - apply wp_bind, wp_logf. req_ends.
Qed.

Lemma handleDeleteCluster_spec env name w :
  wp (handleDeleteCluster env name) (request_post w) w.
Proof.
  unfold handleDeleteCluster.
  destruct (bool_decide (name = "kind")) eqn:Hname; [req_ends|].
  apply bool_decide_eq_false in Hname.
  apply wp_bind. unfold kind_DeleteCluster. apply wp_run.
  intros t; split; [|intros e]; cbv beta iota; [|req_ends].
  apply wp_bind. eapply wp_Mutated; [apply RemoveCluster_Mutated| |];
    cbn [disk trace logs tick].
  { intros e He. apply wp_bind, wp_logf. req_ends. }
  intros st st' t' Hst ->.
  destruct (Load_result_allocated _ _ Hst) as [m Hm].
  split; [|intros e; split; [|split]]; cbv beta iota.
  1: apply wp_bind, wp_ret.
  4: apply wp_bind, wp_logf.
  1, 4: cbv beta iota; apply wp_ret;
    (split; [eexists; reflexivity|]); right; right;
    eexists st, _; (split; [exact Hst|]); rewrite Hm; simpl;
    (split; [reflexivity|]);
    intros Hsettled; apply settled_delete; auto.
  - apply wp_bind, wp_logf. req_ends.
  - apply wp_bind, wp_logf. req_ends.
Qed.

Lemma handleRegistryStart_spec env w :
  wp (handleRegistryStart env) (request_post w) w.
Proof.
  unfold handleRegistryStart.
  apply wp_bind. unfold kind_CreateRegistry. apply wp_run.
  intros t; split; [|intros e]; cbv beta iota; [|req_ends].
  apply wp_bind. eapply wp_Mutated; [apply SetRegistryStatus_Mutated| |];
    cbn [disk trace logs tick].
  { intros e He. apply wp_bind, wp_logf. req_ends. }
  intros st st' t' Hst ->.
  destruct (Load_result_allocated _ _ Hst) as [m Hm].
  split; [|intros e; split; [|split]]; cbv beta iota.
  1: apply wp_bind, wp_ret.
  4: apply wp_bind, wp_logf.
  1, 4: cbv beta iota; apply wp_ret;
    (split; [eexists; reflexivity|]); right; right;
    eexists st, _; (split; [exact Hst|]);
    (split; [cbn [disk]; eapply Load_result_Json; exact Hm|]);
    intros Hsettled; (split; [exact Hsettled|reflexivity]).
  - apply wp_bind, wp_logf. req_ends.
  - apply wp_bind, wp_logf. req_ends.
Qed.

Lemma handler_spec env r w : wp (handler env r) (request_post w) w.
Proof.
  destruct r; simpl handler.
  - unfold handleHealth. apply wp_bind, wp_Load.
    destruct (Load_result (disk w)); req_ends.
  - unfold handleHostStatus. apply wp_bind, wp_Load.
    destruct (Load_result (disk w)); req_ends.
  - unfold handleVersion. req_ends.
  - unfold handleListClusters. apply wp_bind, wp_Load.
    destruct (Load_result (disk w)); req_ends.
  - apply handleCreateCluster_spec.
  - unfold wp. rewrite handleGetCluster_eq. split; [eexists; reflexivity|].
    auto.
  - apply handleDeleteCluster_spec.
  - unfold handleGetKubeconfig. apply wp_bind, wp_GetKubeconfig.
    intros t [out|e] ok; req_ends.
  - unfold handleLoadImage. destruct image as [image|]; [|req_ends].
    destruct (bool_decide (image = "")); [req_ends|].
    apply wp_bind. unfold kind_LoadImage. apply wp_run.
    intros t; split; [|intros e]; req_ends.
  - unfold handleRegistryStatus. req_ends.
  - apply handleRegistryStart_spec.
Qed.

(** The middlewares in front of a handler add the line of the request to the
    log and leave the state file to the handler. *)
Lemma route_eq env r w :
  route env r w
    = handler env r
        (mkWorld (disk w) (tick w) (trace w)
           ((Method r +:+ " " +:+ Path r +:+ " "
             +:+ env_remoteAddr env (tick w)) :: logs w)).
Proof. reflexivity. Qed.

Lemma route_spec env r w : wp (route env r) (request_post w) w.
Proof.
  unfold wp. rewrite route_eq.
  exact (handler_spec env r
           (mkWorld (disk w) (tick w) (trace w)
              ((Method r +:+ " " +:+ Path r +:+ " "
                +:+ env_remoteAddr env (tick w)) :: logs w))).
Qed.

Lemma route_serving env r w :
  serving_file (disk w) -> serving_file (disk (route env r w).2).
Proof.
  intros Hinv. destruct (route_spec env r w) as [_ Hpost].
  destruct Hpost as [-> | [-> | (st & st' & Hst & Hst' & Hstep)]].
  - exact Hinv.
  - intros st Hst. discriminate.
  - intros st2 Hst2. rewrite Hst' in Hst2. injection Hst2 as <-.
    apply Hstep, Hinv, Hst.
Qed.

(** ** The life of the host *)

Lemma reachable_file env ph w :
  reachable env ph w ->
  match ph with
  | Starting => starting_file (disk w)
  | Serving => serving_file (disk w)
  end.
Proof.
  induction 1 as [t|w w' code _ IH Hmain|w w' _ IH Hmain|w r _ IH|w _ IH].
  - intros st [= <-]. right. split; [reflexivity|].
    intros n c Hc. simpl in Hc. rewrite lookup_empty in Hc. discriminate.
  - destruct (wp_out _ _ _ _ _ Hmain (main_spec env w IH)) as (s & [= <-] & Hs).
    exact Hs.
  - destruct (wp_out _ _ _ _ _ Hmain (main_spec env w IH)) as (s & [= <-] & Hs).
    exact Hs.
  - apply route_serving, IH.
  - intros st Hst. left. apply IH, Hst.
Qed.




(** C4. A create request for a name that the loaded state already holds is
    answered with 409 Conflict, and the world is left exactly as it was: no
    call to the kind client, no write, the stored entry untouched. This
    holds of every request that names a cluster, on any state file, and of
    every request on a state file that the host itself has made: there no
    cluster has the empty name, which the handler refuses before it loads
    the state. *)
Theorem create_existing_is_conflict (env : Env) (req : ClusterCreateRequest)
    (w : World) (st : HostState) (info : ClusterInfo) :
  req_Name req <> "" \/ reachable env Serving w ->
  Load w = (Ret (inl st), w) ->
  map_index (Clusters st) (req_Name req) = Some info ->
  handleCreateCluster env (Some req) w
    = (Ret (http_Error ("Cluster " +:+ req_Name req +:+ " already exists")
              StatusConflict), w).
Proof.
  intros Hvalid Hload Hin.
  assert (Hname : req_Name req <> "").
  { destruct Hvalid as [Hname|Hreach]; [exact Hname|].
    apply Load_inv in Hload as [[= Hst] _]. symmetry in Hst.
    destruct (reachable_file env Serving w Hreach st Hst)
      as (_ & _ & _ & Hnames).
    apply (Hnames _ _ Hin). }
  unfold handleCreateCluster.
  rewrite bool_decide_eq_false_2 by exact Hname.
  unfold bind. rewrite Hload, Hin. reflexivity.
Qed.

Lemma create_existing_is_conflict_witness :
  handleCreateCluster env_ok (Some (mkClusterCreateRequest "kind" false))
    w_served
  = (Ret (http_Error "Cluster kind already exists" StatusConflict), w_served)
  /\ handleCreateCluster env_ok (Some (mkClusterCreateRequest "dev1" false))
       w_dev1
     = (Ret (http_Error "Cluster dev1 already exists" StatusConflict), w_dev1).
Proof.
  split.
  - eapply (create_existing_is_conflict env_ok
              (mkClusterCreateRequest "kind" false) w_served).
    + right.
      apply (reach_serve env_ok w_fresh w_served (reach_fresh env_ok 0)).
      vm_compute. reflexivity.
    + vm_compute. reflexivity.
    + vm_compute. reflexivity.
  - apply (create_existing_is_conflict env_ok
             (mkClusterCreateRequest "dev1" false) w_dev1 st_dev1 info_dev1);
      [left; discriminate|reflexivity|vm_compute; reflexivity].
Defined.

(** ** The state store, operation by operation *)

Lemma Load_Json (st : HostState) t tr l :
  Load (mkWorld (Bytes (Json st)) t tr l)
    = (Ret (inl (allocated st)), mkWorld (Bytes (Json st)) t tr l).
Proof. apply Load_eq. Qed.

Lemma Load_loaded (w : World) (st : HostState) :
  Load w = (Ret (inl st), w) <-> Load_result (disk w) = inl st.
Proof.
  rewrite Load_eq. split.
  - intros [= H]. exact H.
  - intros ->. reflexivity.
Qed.

Lemma Load_failed (w : World) (e : error) :
  Load w = (Ret (inr e), w) <-> Load_result (disk w) = inr e.
Proof.
  rewrite Load_eq. split.
  - intros [= H]. exact H.
  - intros ->. reflexivity.
Qed.

Lemma allocated_loaded (f : File) (st : HostState) :
  Load_result f = inl st -> allocated st = st.
Proof.
  intros H. destruct (Load_result_allocated _ _ H) as [m Hm].
  unfold allocated. rewrite Hm. reflexivity.
Qed.

Lemma Save_ok (env : Env) (st : HostState) (w : World) :
  env_writeFile env (tick w) = None ->
  Save env st w
    = (Ret None,
       mkWorld (Bytes (Json st)) (S (tick w)) (Wrote (Json st) true :: trace w)
         (logs w)).
Proof. intros H. pose proof (Save_cases env st w) as E. rewrite H in E. exact E. Qed.

Lemma bind_logf {B} (line : string) (k : unit -> M B) (w : World) :
  bind (logf line) k w
    = k tt (mkWorld (disk w) (tick w) (trace w) (line :: logs w)).
Proof. reflexivity. Qed.

Lemma bind_inv {A B} (m : M A) (k : A -> M B) (w : World) (b : B)
    (w' : World) :
  bind m k w = (Ret b, w') ->
  exists a w1, m w = (Ret a, w1) /\ k a w1 = (Ret b, w').
Proof.
  unfold bind. destruct (m w) as [[a|msg] w1]; [eauto|discriminate].
Qed.

Lemma run_ok (env : Env) (c : ExtCall) (w : World) :
  env_run env c (tick w) = None ->
  run env c w
    = (Ret None,
       mkWorld (disk w) (S (tick w)) (Called c true :: trace w) (logs w)).
Proof. intros H. rewrite run_eq, H. reflexivity. Qed.

Lemma run_fails (env : Env) (c : ExtCall) (w : World) (msg : string) :
  env_run env c (tick w) = Some msg ->
  run env c w
    = (Ret (Some (ErrMsg msg)),
       mkWorld (disk w) (S (tick w)) (Called c false :: trace w) (logs w)).
Proof. intros H. rewrite run_eq, H. reflexivity. Qed.

Lemma run_inv (env : Env) (c : ExtCall) (w : World) (w1 : World) :
  run env c w = (Ret None, w1) ->
  env_run env c (tick w) = None
  /\ w1 = mkWorld (disk w) (S (tick w)) (Called c true :: trace w) (logs w).
Proof.
  rewrite run_eq. destruct (env_run env c (tick w)); [discriminate|].
  intros [= <-]. auto.
Qed.

Lemma Save_inv (env : Env) (st : HostState) (w w1 : World) :
  Save env st w = (Ret None, w1) ->
  env_writeFile env (tick w) = None
  /\ w1 = mkWorld (Bytes (Json st)) (S (tick w)) (Wrote (Json st) true :: trace w)
            (logs w).
Proof.
  pose proof (Save_cases env st w) as H.
  destruct (env_writeFile env (tick w)) as [[[| |] why]|]; rewrite H;
    [discriminate|discriminate|discriminate|]. intros [= <-]. auto.
Qed.

(** X1. A state that [Save] has written is the state that the next [Load]
    returns, whatever the file held before: exactly so when its cluster map
    is allocated, and with an empty map in the place of a nil one
    otherwise. *)
Theorem Save_Load_round_trip (env : Env) (st : HostState) (w : World) :
  env_writeFile env (tick w) = None ->
  exists w',
    Save env st w = (Ret None, w')
    /\ Load w' = (Ret (inl (allocated st)), w')
    /\ (forall m, Clusters st = Some m -> Load w' = (Ret (inl st), w')).
Proof.
  intros H. eexists. split; [apply Save_ok, H|].
  split; [apply Load_Json|].
  intros m Hm. rewrite Load_Json. unfold allocated. rewrite Hm. reflexivity.
Qed.

Lemma Save_Load_round_trip_witness :
  exists w',
    Save env_ok st_dev1 w_corrupt = (Ret None, w')
    /\ Load w' = (Ret (inl st_dev1), w').
Proof.
  destruct (Save_Load_round_trip env_ok st_dev1 w_corrupt)
    as (w' & Hsave & _ & Hload); [reflexivity|].
  exists w'. split; [exact Hsave|]. apply (Hload _ eq_refl).
Defined.

(** X2. When the state file does not load, every operation that changes the
    state returns the error of [Load] as it is and leaves the world as it
    was: nothing is written, the clock is not read. *)
Theorem mutators_need_a_loadable_state (env : Env) (w : World) (e : error) :
  Load w = (Ret (inr e), w) ->
  (forall it sty sd, MarkInitialized env it sty sd w = (Ret (Some e), w))
  /\ (forall name sta ty kv,
        UpdateCluster env name sta ty kv w = (Ret (Some e), w))
  /\ (forall name, RemoveCluster env name w = (Ret (Some e), w))
  /\ (forall running, SetRegistryStatus env running w = (Ret (Some e), w))
  /\ SetBaseClusterReady env w = (Ret (Some e), w).
Proof.
  intros H. repeat split; intros;
    (unfold MarkInitialized, UpdateCluster, RemoveCluster, SetRegistryStatus,
       SetBaseClusterReady; rewrite (bind_Ret _ _ _ _ _ H); reflexivity).
Qed.

Lemma mutators_need_a_loadable_state_witness :
  let e := ErrMsg ("failed to parse state file: " +:+
                   "unexpected end of JSON input") in
  UpdateCluster env_ok "dev1" "running" "development" false w_corrupt
    = (Ret (Some e), w_corrupt)
  /\ RemoveCluster env_ok "dev1" w_corrupt = (Ret (Some e), w_corrupt)
  /\ SetBaseClusterReady env_ok w_corrupt = (Ret (Some e), w_corrupt).
Proof.
  intros e.
  destruct (mutators_need_a_loadable_state env_ok w_corrupt e)
    as (_ & Hupdate & Hremove & _ & Hready); [reflexivity|].
  split; [apply Hupdate|]. split; [apply Hremove|exact Hready].
Defined.

Lemma UpdateCluster_ok (env : Env) (name sta ty : string) (kv : bool)
    (w : World) (st : HostState) (m : gmap string ClusterInfo) :
  Load_result (disk w) = inl st ->
  Clusters st = Some m ->
  env_writeFile env (S (tick w)) = None ->
  let st' := set_Clusters
               (Some (<[name := mkClusterInfo sta (Some (env_now env (tick w)))
                                  ty kv]> m)) st in
  UpdateCluster env name sta ty kv w
    = (Ret None,
       mkWorld (Bytes (Json st')) (S (S (tick w)))
         (Wrote (Json st') true :: trace w) (logs w)).
Proof.
  intros Hst Hm Hw st'. unfold UpdateCluster.
  rewrite (bind_Ret _ _ _ _ _ (Load_eq w)), Hst.
  rewrite (bind_Ret _ _ w (env_now env (tick w))
             (mkWorld (disk w) (S (tick w)) (trace w) (logs w)) eq_refl).
  rewrite Hm. apply (Save_ok env _ (mkWorld _ _ _ _)). exact Hw.
Qed.

Lemma RemoveCluster_ok (env : Env) (name : string) (w : World)
    (st : HostState) :
  Load_result (disk w) = inl st ->
  env_writeFile env (tick w) = None ->
  let st' := set_Clusters (delete name <$> Clusters st) st in
  RemoveCluster env name w
    = (Ret None,
       mkWorld (Bytes (Json st')) (S (tick w))
         (Wrote (Json st') true :: trace w) (logs w)).
Proof.
  intros Hst Hw st'. unfold RemoveCluster.
  rewrite (bind_Ret _ _ _ _ _ (Load_eq w)), Hst.
  apply Save_ok, Hw.
Qed.

Lemma SetRegistryStatus_ok (env : Env) (running : bool) (w : World)
    (st : HostState) :
  Load_result (disk w) = inl st ->
  env_writeFile env (tick w) = None ->
  let st' := set_RegistryRunning running st in
  SetRegistryStatus env running w
    = (Ret None,
       mkWorld (Bytes (Json st')) (S (tick w))
         (Wrote (Json st') true :: trace w) (logs w)).
Proof.
  intros Hst Hw st'. unfold SetRegistryStatus.
  rewrite (bind_Ret _ _ _ _ _ (Load_eq w)), Hst.
  apply Save_ok, Hw.
Qed.

Lemma SetBaseClusterReady_ok (env : Env) (w : World) (st : HostState) :
  Load_result (disk w) = inl st ->
  env_writeFile env (tick w) = None ->
  let st' := set_BaseClusterReady true st in
  SetBaseClusterReady env w
    = (Ret None,
       mkWorld (Bytes (Json st')) (S (tick w))
         (Wrote (Json st') true :: trace w) (logs w)).
Proof.
  intros Hst Hw st'. unfold SetBaseClusterReady.
  rewrite (bind_Ret _ _ _ _ _ (Load_eq w)), Hst.
  apply Save_ok, Hw.
Qed.

Lemma MarkInitialized_ok (env : Env) (it sty sd : string) (w : World)
    (st : HostState) :
  Load_result (disk w) = inl st ->
  env_writeFile env (S (tick w)) = None ->
  let st' := mkHostState true (Some (env_now env (tick w))) it sty sd true
               (BaseClusterReady st) (RegistryRunning st) (Clusters st) in
  MarkInitialized env it sty sd w
    = (Ret None,
       mkWorld (Bytes (Json st')) (S (S (tick w)))
         (Wrote (Json st') true :: trace w) (logs w)).
Proof.
  intros Hst Hw st'. unfold MarkInitialized.
  rewrite (bind_Ret _ _ _ _ _ (Load_eq w)), Hst.
  rewrite (bind_Ret _ _ w (env_now env (tick w))
             (mkWorld (disk w) (S (tick w)) (trace w) (logs w)) eq_refl).
  apply (Save_ok env _ (mkWorld _ _ _ _)). exact Hw.
Qed.

(** X3. [UpdateCluster] is an upsert. When the state loads and the write
    succeeds, the state loaded afterwards holds under the name exactly the
    given status, type and KubeVirt flag with the time of the call as the
    creation time, whether or not the name was there before; every other
    cluster and every other field is as it was. *)
Theorem UpdateCluster_upserts (env : Env) (name sta ty : string) (kv : bool)
    (w : World) (st : HostState) :
  Load w = (Ret (inl st), w) ->
  env_writeFile env (S (tick w)) = None ->
  exists w' st',
    UpdateCluster env name sta ty kv w = (Ret None, w')
    /\ Load w' = (Ret (inl st'), w')
    /\ map_index (Clusters st') name
       = Some (mkClusterInfo sta (Some (env_now env (tick w))) ty kv)
    /\ (forall n, n <> name ->
          map_index (Clusters st') n = map_index (Clusters st) n)
    /\ set_Clusters (Clusters st) st' = st.
Proof.
  intros Hload Hw. apply Load_loaded in Hload.
  destruct (Load_result_allocated _ _ Hload) as [m Hm].
  eexists _, _. split; [apply (UpdateCluster_ok env name sta ty kv w st m); auto|].
  split; [apply Load_Json|]. unfold allocated. simpl.
  split; [apply lookup_insert_eq|].
  split.
  - intros n Hn. rewrite Hm. simpl. apply lookup_insert_ne. congruence.
  - destruct st; reflexivity.
Qed.

Lemma UpdateCluster_upserts_witness :
  exists w' st',
    UpdateCluster env_ok "dev2" "running" "development" true w_dev1
      = (Ret None, w')
    /\ Load w' = (Ret (inl st'), w')
    /\ map_index (Clusters st') "dev2"
       = Some (mkClusterInfo "running" (Some 20) "development" true)
    /\ map_index (Clusters st') "dev1" = Some info_dev1.
Proof.
  destruct (UpdateCluster_upserts env_ok "dev2" "running" "development" true
              w_dev1 st_dev1)
    as (w' & st' & Hupdate & Hload & Hnew & Hold & _);
    [vm_compute; reflexivity|reflexivity|].
  exists w', st'. split; [exact Hupdate|]. split; [exact Hload|].
  split; [exact Hnew|]. rewrite Hold by discriminate.
  vm_compute. reflexivity.
Defined.

(** X4. [RemoveCluster] deletes one key and nothing else. When the state
    loads and the write succeeds, the state loaded afterwards has no cluster
    of that name, every other cluster and field is as it was, and removing a
    name that is not there succeeds and rewrites the state unchanged. *)
Theorem RemoveCluster_removes (env : Env) (name : string) (w : World)
    (st : HostState) :
  Load w = (Ret (inl st), w) ->
  env_writeFile env (tick w) = None ->
  exists w' st',
    RemoveCluster env name w = (Ret None, w')
    /\ Load w' = (Ret (inl st'), w')
    /\ map_index (Clusters st') name = None
    /\ (forall n, n <> name ->
          map_index (Clusters st') n = map_index (Clusters st) n)
    /\ set_Clusters (Clusters st) st' = st
    /\ (map_index (Clusters st) name = None -> st' = st).
Proof.
  intros Hload Hw. apply Load_loaded in Hload.
  destruct (Load_result_allocated _ _ Hload) as [m Hm].
  eexists _, _. split; [apply (RemoveCluster_ok env name w st); auto|].
  split; [apply Load_Json|]. unfold allocated. simpl. rewrite Hm. simpl.
  split; [apply lookup_delete_eq|].
  split; [intros n Hn; apply lookup_delete_ne; congruence|].
  split; [rewrite <- Hm; destruct st; reflexivity|].
  intros Hnone. rewrite delete_id by exact Hnone.
  rewrite <- Hm. destruct st; reflexivity.
Qed.

Lemma RemoveCluster_removes_witness :
  exists w' st',
    RemoveCluster env_ok "dev1" w_dev1 = (Ret None, w')
    /\ Load w' = (Ret (inl st'), w')
    /\ map_index (Clusters st') "dev1" = None
    /\ map_index (Clusters st') "kind" = Some info_kind.
Proof.
  destruct (RemoveCluster_removes env_ok "dev1" w_dev1 st_dev1)
    as (w' & st' & Hremove & Hload & Hgone & Hold & _);
    [vm_compute; reflexivity|reflexivity|].
  exists w', st'. split; [exact Hremove|]. split; [exact Hload|].
  split; [exact Hgone|]. rewrite Hold by discriminate.
  vm_compute. reflexivity.
Defined.

(** X5. [MarkInitialized] overwrites the six fields of the initialization
    (the flag, its time, the instance type, the storage type and device, the
    package flag) and keeps the registry flag, the base-cluster flag and the
    clusters of the loaded state. It does so on a host that is initialized
    already: the time of the first initialization is lost. *)
Theorem MarkInitialized_overwrites (env : Env) (it sty sd : string) (w : World)
    (st : HostState) :
  Load w = (Ret (inl st), w) ->
  env_writeFile env (S (tick w)) = None ->
  exists w',
    MarkInitialized env it sty sd w = (Ret None, w')
    /\ Load w'
       = (Ret (inl (mkHostState true (Some (env_now env (tick w))) it sty sd
                      true (BaseClusterReady st) (RegistryRunning st)
                      (Clusters st))), w').
Proof.
  intros Hload Hw. apply Load_loaded in Hload.
  destruct (Load_result_allocated _ _ Hload) as [m Hm].
  eexists. split; [apply (MarkInitialized_ok env it sty sd w st); auto|].
  rewrite Load_Json. unfold allocated. simpl. rewrite Hm. reflexivity.
Qed.

Lemma MarkInitialized_overwrites_witness :
  exists w',
    MarkInitialized env_ok "m5d.large" "instance-store" "/dev/nvme1n1" w_dev1
      = (Ret None, w')
    /\ Load w'
       = (Ret (inl (mkHostState true (Some 20) "m5d.large" "instance-store"
                      "/dev/nvme1n1" true true true (Clusters st_dev1))), w').
Proof.
  apply (MarkInitialized_overwrites env_ok "m5d.large" "instance-store"
           "/dev/nvme1n1" w_dev1 st_dev1);
    [vm_compute; reflexivity|reflexivity].
Defined.

(** ** The request handlers, composed *)

(** X6. Create, then get. After a create request for a new name, on a state
    that loads, with kind and the write succeeding, a get request for that
    name is answered 200 with the cluster as created: running, created at
    the time of the state update, of type infrastructure for the name kind
    and development for any other, with the KubeVirt flag of the request.
    The answer to a get request for any other name is what it was. *)
Theorem create_then_get (env : Env) (req : ClusterCreateRequest) (w : World)
    (st : HostState) :
  req_Name req <> "" ->
  Load w = (Ret (inl st), w) ->
  map_index (Clusters st) (req_Name req) = None ->
  env_run env (KindCreateCluster (req_Name req) true) (tick w) = None ->
  env_writeFile env (S (S (tick w))) = None ->
  let w' := (handleCreateCluster env (Some req) w).2 in
  handleGetCluster (req_Name req) w'
    = (Ret (mkResponse StatusOK
              (BodyCluster
                 (mkClusterResponse (req_Name req) "running"
                    (Some (env_now env (S (tick w))))
                    (clusterType_of (req_Name req)) (req_KubeVirt req)))), w')
  /\ (forall n, n <> req_Name req ->
        (handleGetCluster n w').1 = (handleGetCluster n w).1).
Proof.
  intros Hname Hload Hnew Hcreate Hwrite w'.
  apply Load_loaded in Hload.
  destruct (Load_result_allocated _ _ Hload) as [m Hm].
  assert (Hw' : w' = mkWorld
            (Bytes (Json (set_Clusters
               (Some (<[req_Name req :=
                          mkClusterInfo "running"
                            (Some (env_now env (S (tick w))))
                            (clusterType_of (req_Name req))
                            (req_KubeVirt req)]> m)) st)))
            (S (S (S (tick w))))
            (Wrote (Json (set_Clusters
               (Some (<[req_Name req :=
                          mkClusterInfo "running"
                            (Some (env_now env (S (tick w))))
                            (clusterType_of (req_Name req))
                            (req_KubeVirt req)]> m)) st)) true
             :: Called (KindCreateCluster (req_Name req) true) true :: trace w)
            (logs w)).
  { unfold w', handleCreateCluster.
    rewrite bool_decide_eq_false_2 by exact Hname.
    rewrite (bind_Ret _ _ _ _ _ (Load_eq w)), Hload, Hnew.
    unfold kind_CreateCluster.
    rewrite (bind_Ret _ _ _ _ _ (run_ok env _ w Hcreate)).
    cbv beta iota zeta.
    erewrite (bind_Ret _ _ _ _ _
                (UpdateCluster_ok env _ _ _ _ (mkWorld _ _ _ _) st m
                   Hload Hm Hwrite)).
    reflexivity. }
  rewrite Hw'. split.
  - rewrite handleGetCluster_eq. simpl. rewrite lookup_insert_eq. reflexivity.
  - intros n Hn. rewrite !handleGetCluster_eq. simpl. rewrite Hload, Hm. simpl.
    rewrite lookup_insert_ne by congruence. reflexivity.
Qed.

Lemma create_then_get_witness :
  let w' := (handleCreateCluster env_ok
               (Some (mkClusterCreateRequest "dev2" true)) w_dev1).2 in
  handleGetCluster "dev2" w'
    = (Ret (mkResponse StatusOK
              (BodyCluster
                 (mkClusterResponse "dev2" "running" (Some 21) "development"
                    true))), w').
Proof.
  intros w'.
  destruct (create_then_get env_ok (mkClusterCreateRequest "dev2" true) w_dev1
              st_dev1) as [Hget _];
    [discriminate|vm_compute; reflexivity|vm_compute; reflexivity
    |reflexivity|reflexivity|].
  exact Hget.
Defined.

(** X7. When the kind client fails, the handlers that change clusters answer
    500 with the text of its error and stop: the state file is not written
    and not even the clock is read. This holds of the create handler (for a
    new name on a state that loads), of the delete handler (for any name but
    the reserved one) and of the registry start. *)
Theorem kind_failure_leaves_state_untouched (env : Env) (w : World)
    (msg : string) :
  let failed c :=
    mkWorld (disk w) (S (tick w)) (Called c false :: trace w) (logs w) in
  (forall req st,
     req_Name req <> "" ->
     Load w = (Ret (inl st), w) ->
     map_index (Clusters st) (req_Name req) = None ->
     env_run env (KindCreateCluster (req_Name req) true) (tick w) = Some msg ->
     handleCreateCluster env (Some req) w
       = (Ret (http_Error ("Failed to create cluster: " +:+ msg)
                 StatusInternalServerError),
          failed (KindCreateCluster (req_Name req) true)))
  /\ (forall name,
        name <> "kind" ->
        env_run env (KindDeleteCluster name) (tick w) = Some msg ->
        handleDeleteCluster env name w
          = (Ret (http_Error ("Failed to delete cluster: " +:+ msg)
                    StatusInternalServerError),
             failed (KindDeleteCluster name)))
  /\ (env_run env KindCreateRegistry (tick w) = Some msg ->
      handleRegistryStart env w
        = (Ret (http_Error ("Failed to start registry: " +:+ msg)
                  StatusInternalServerError),
           failed KindCreateRegistry)).
Proof.
  intros failed. split; [|split].
  - intros req st Hname Hload Hnew Hfail. apply Load_loaded in Hload.
    unfold handleCreateCluster.
    rewrite bool_decide_eq_false_2 by exact Hname.
    rewrite (bind_Ret _ _ _ _ _ (Load_eq w)), Hload, Hnew.
    unfold kind_CreateCluster.
    rewrite (bind_Ret _ _ _ _ _ (run_fails env _ w msg Hfail)). reflexivity.
  - intros name Hname Hfail. unfold handleDeleteCluster.
    rewrite bool_decide_eq_false_2 by exact Hname.
    unfold kind_DeleteCluster.
    rewrite (bind_Ret _ _ _ _ _ (run_fails env _ w msg Hfail)). reflexivity.
  - intros Hfail. unfold handleRegistryStart, kind_CreateRegistry.
    rewrite (bind_Ret _ _ _ _ _ (run_fails env _ w msg Hfail)). reflexivity.
Qed.

(** X8. The create handler answers 400 exactly when the body does not decode
    or the name is empty, and then it has touched nothing: no load, no call
    to kind, no write, no log line. *)
Theorem create_bad_request (env : Env) (req : option ClusterCreateRequest)
    (w : World) (resp : Response) :
  (handleCreateCluster env req w).1 = Ret resp ->
  (status resp = StatusBadRequest
   <-> match req with
       | None => True
       | Some r => req_Name r = ""
       end)
  /\ (status resp = StatusBadRequest -> (handleCreateCluster env req w).2 = w).
Proof.
  unfold handleCreateCluster. destruct req as [r|].
  2:{ intros [= <-]. split; [split; auto|reflexivity]. }
  destruct (bool_decide (req_Name r = "")) eqn:Hname.
  { apply bool_decide_eq_true in Hname. intros [= <-].
    split; [split; auto|reflexivity]. }
  apply bool_decide_eq_false in Hname.
  assert (Hwp : wp (bind Load (fun r0 =>
     match r0 with
     | inl hostState =>
         match map_index (Clusters hostState) (req_Name r) with
         | Some _ =>
             ret (http_Error ("Cluster " +:+ req_Name r +:+ " already exists")
                    StatusConflict)
         | None =>
             bind (kind_CreateCluster env (req_Name r) true) (fun err =>
               match err with
               | Some e =>
                   ret (http_Error ("Failed to create cluster: " +:+ Error e)
                          StatusInternalServerError)
               | None =>
                   let clusterType :=
                     if bool_decide (req_Name r = "kind") then "infrastructure"
                     else "development" in
                   bind (UpdateCluster env (req_Name r) "running" clusterType
                           (req_KubeVirt r)) (fun err0 =>
                     bind match err0 with
                          | Some e => logf ("Failed to update cluster state: "
                                            +:+ Error e)
                          | None => ret tt
                          end (fun _ =>
                       ret (mkResponse StatusCreated
                              (BodyCreated true
                                 (mkClusterResponse (req_Name r) "running" None
                                    clusterType (req_KubeVirt r))))))
               end)
         end
     | inr _ => ret (http_Error "Failed to load host state"
                       StatusInternalServerError)
     end))
    (fun o _ => forall resp, o = Ret resp -> status resp <> StatusBadRequest) w).
  { apply wp_bind, wp_Load. cbv beta iota.
    destruct (Load_result (disk w)) as [st|e].
    2:{ apply wp_ret. intros ? [= <-]. discriminate. }
    destruct (map_index (Clusters st) (req_Name r)).
    { apply wp_ret. intros ? [= <-]. discriminate. }
    apply wp_bind. unfold kind_CreateCluster. apply wp_run.
    intros t; split; [|intros e]; cbv beta iota zeta.
    2:{ apply wp_ret. intros ? [= <-]. discriminate. }
    apply wp_bind. eapply wp_Mutated; [apply UpdateCluster_Mutated| |].
    - intros e _. apply wp_bind, wp_logf, wp_ret. intros ? [= <-]. discriminate.
    - intros st0 st' t' _ _. split; [|intros e; split; [|split]].
      + apply wp_bind, wp_ret, wp_ret. intros ? [= <-]. discriminate.
      + apply wp_bind, wp_logf, wp_ret. intros ? [= <-]. discriminate.
      + apply wp_bind, wp_logf, wp_ret. intros ? [= <-]. discriminate.
      + apply wp_bind, wp_logf, wp_ret. intros ? [= <-]. discriminate. }
  intros Hresp. specialize (Hwp resp Hresp).
  split; [split|]; intros; contradiction.
Qed.

Lemma create_bad_request_witness :
  (handleCreateCluster env_ok (Some (mkClusterCreateRequest "" true))
     w_dev1).2 = w_dev1
  /\ (handleCreateCluster env_ok None w_dev1).2 = w_dev1.
Proof.
  split.
  - destruct (create_bad_request env_ok
                (Some (mkClusterCreateRequest "" true)) w_dev1
                (http_Error "Cluster name is required" StatusBadRequest)
                eq_refl) as [_ Hsame].
    apply Hsame. reflexivity.
  - destruct (create_bad_request env_ok None w_dev1
                (http_Error "Invalid request body" StatusBadRequest)
                eq_refl) as [_ Hsame].
    apply Hsame. reflexivity.
Defined.

(** X9. Delete, then get. After a delete request for a name other than the
    reserved one, with kind and the write succeeding on a state that loads,
    a get request for that name is answered 404, and the answer to a get
    request for any other name is what it was. *)
Theorem delete_then_get (env : Env) (name : string) (w : World)
    (st : HostState) :
  name <> "kind" ->
  env_run env (KindDeleteCluster name) (tick w) = None ->
  Load w = (Ret (inl st), w) ->
  env_writeFile env (S (tick w)) = None ->
  let w' := (handleDeleteCluster env name w).2 in
  handleGetCluster name w'
    = (Ret (http_Error "Cluster not found" StatusNotFound), w')
  /\ (forall n, n <> name ->
        (handleGetCluster n w').1 = (handleGetCluster n w).1).
Proof.
  intros Hname Hdel Hload Hwrite w'. apply Load_loaded in Hload.
  destruct (Load_result_allocated _ _ Hload) as [m Hm].
  assert (Hw' : w' = mkWorld
            (Bytes (Json (set_Clusters (delete name <$> Clusters st) st)))
            (S (S (tick w)))
            (Wrote (Json (set_Clusters (delete name <$> Clusters st) st)) true
             :: Called (KindDeleteCluster name) true :: trace w)
            (logs w)).
  { unfold w', handleDeleteCluster.
    rewrite bool_decide_eq_false_2 by exact Hname.
    unfold kind_DeleteCluster.
    rewrite (bind_Ret _ _ _ _ _ (run_ok env _ w Hdel)). cbv beta iota.
    erewrite (bind_Ret _ _ _ _ _
                (RemoveCluster_ok env _ (mkWorld _ _ _ _) st Hload Hwrite)).
    reflexivity. }
  rewrite Hw'. split.
  - rewrite handleGetCluster_eq. simpl. rewrite Hm. simpl.
    rewrite lookup_delete_eq. reflexivity.
  - intros n Hn. rewrite !handleGetCluster_eq. simpl. rewrite Hload, Hm. simpl.
    rewrite lookup_delete_ne by congruence. reflexivity.
Qed.

Lemma delete_then_get_witness :
  let w' := (handleDeleteCluster env_ok "dev1" w_dev1).2 in
  handleGetCluster "dev1" w'
    = (Ret (http_Error "Cluster not found" StatusNotFound), w')
  /\ (handleGetCluster "kind" w').1 = (handleGetCluster "kind" w_dev1).1.
Proof.
  intros w'.
  destruct (delete_then_get env_ok "dev1" w_dev1 st_dev1) as [Hgone Hold];
    [discriminate|reflexivity|vm_compute; reflexivity|reflexivity|].
  split; [exact Hgone|]. apply Hold. discriminate.
Defined.

(** X10. The delete handler never asks the state whether the cluster is
    there. For every name but the reserved one it calls kind, and its answer
    follows from that call alone: 200 when kind succeeds, 500 when it fails,
    never 404, on any state file, loadable or not. *)
Theorem delete_never_looks_up_the_state (env : Env) (name : string)
    (w : World) :
  name <> "kind" ->
  exists resp l ok,
    (handleDeleteCluster env name w).1 = Ret resp
    /\ (status resp = StatusOK \/ status resp = StatusInternalServerError)
    /\ (status resp = StatusOK <-> ok = true)
    /\ trace (handleDeleteCluster env name w).2
       = l ++ [Called (KindDeleteCluster name) ok] ++ trace w.
Proof.
  intros Hname.
  change (wp (handleDeleteCluster env name)
            (fun o w' => exists resp l ok,
               o = Ret resp
               /\ (status resp = StatusOK
                   \/ status resp = StatusInternalServerError)
               /\ (status resp = StatusOK <-> ok = true)
               /\ trace w' = l ++ [Called (KindDeleteCluster name) ok]
                             ++ trace w) w).
  unfold handleDeleteCluster.
  rewrite bool_decide_eq_false_2 by exact Hname.
  apply wp_bind. unfold kind_DeleteCluster. apply wp_run.
  intros t; split; [|intros e]; cbv beta iota.
  2:{ apply wp_ret. eexists _, [], false.
      split; [reflexivity|]. split; [right; reflexivity|].
      split; [split; discriminate|reflexivity]. }
  apply wp_bind. eapply wp_Mutated; [apply RemoveCluster_Mutated| |];
    cbn [disk trace logs tick].
  - intros e _. apply wp_bind, wp_logf, wp_ret. eexists _, [], true.
    split; [reflexivity|]. split; [left; reflexivity|].
    split; [split; reflexivity|reflexivity].
  - intros st st' t' _ _. split; [|intros e; split; [|split]].
    + apply wp_bind, wp_ret, wp_ret. eexists _, [_], true.
      split; [reflexivity|]. split; [left; reflexivity|].
      split; [split; reflexivity|reflexivity].
    + apply wp_bind, wp_logf, wp_ret. eexists _, [_], true.
      split; [reflexivity|]. split; [left; reflexivity|].
      split; [split; reflexivity|reflexivity].
    + apply wp_bind, wp_logf, wp_ret. eexists _, [_], true.
      split; [reflexivity|]. split; [left; reflexivity|].
      split; [split; reflexivity|reflexivity].
    + apply wp_bind, wp_logf, wp_ret. eexists _, [_], true.
      split; [reflexivity|]. split; [left; reflexivity|].
      split; [split; reflexivity|reflexivity].
Qed.

Lemma delete_never_looks_up_the_state_witness :
  exists resp l ok,
    (handleDeleteCluster env_ok "ghost" w_corrupt).1 = Ret resp
    /\ (status resp = StatusOK \/ status resp = StatusInternalServerError)
    /\ (status resp = StatusOK <-> ok = true)
    /\ trace (handleDeleteCluster env_ok "ghost" w_corrupt).2
       = l ++ [Called (KindDeleteCluster "ghost") ok] ++ trace w_corrupt.
Proof.
  apply (delete_never_looks_up_the_state env_ok "ghost" w_corrupt).
  discriminate.
Defined.

(** X11. The six read endpoints (health, host status, version, cluster list,
    cluster by name, registry status) always answer, and all that a request
    to one of them does to the world is the line that [loggingMiddleware]
    writes before the handler runs: method, path and remote address. The
    handler itself leaves the world as it finds it (no write, no call, no
    log line, no clock tick), and its answer is the one it gives without the
    middleware. *)
Theorem reads_only_log_the_request (env : Env) (r : Request) (w : World) :
  reads_state_only r = true ->
  (route env r w).2
    = mkWorld (disk w) (tick w) (trace w)
        ((Method r +:+ " " +:+ Path r +:+ " "
          +:+ env_remoteAddr env (tick w)) :: logs w)
  /\ (handler env r w).2 = w
  /\ exists resp,
       (route env r w).1 = Ret resp /\ (handler env r w).1 = Ret resp.
Proof.
  intros Hr. rewrite route_eq.
  assert (H : forall w0,
            (handler env r w0).2 = w0
            /\ exists resp,
                 (handler env r w0).1 = Ret resp
                 /\ forall w2, disk w2 = disk w0 ->
                      (handler env r w2).1 = Ret resp).
  { intros w0. destruct r; try discriminate; simpl handler.
    - unfold handleHealth. rewrite (bind_Ret _ _ _ _ _ (Load_eq w0)).
      destruct (Load_result (disk w0)) eqn:E;
        (split; [reflexivity|]); (eexists; split; [reflexivity|]);
        intros w2 Hd; rewrite (bind_Ret _ _ _ _ _ (Load_eq w2)), Hd, E;
        reflexivity.
    - unfold handleHostStatus. rewrite (bind_Ret _ _ _ _ _ (Load_eq w0)).
      destruct (Load_result (disk w0)) eqn:E;
        (split; [reflexivity|]); (eexists; split; [reflexivity|]);
        intros w2 Hd; rewrite (bind_Ret _ _ _ _ _ (Load_eq w2)), Hd, E;
        reflexivity.
    - split; [reflexivity|]. eexists. split; [reflexivity|]. reflexivity.
    - rewrite handleListClusters_eq. split; [reflexivity|].
      eexists. split; [reflexivity|].
      intros w2 Hd. rewrite handleListClusters_eq, Hd. reflexivity.
    - rewrite handleGetCluster_eq. split; [reflexivity|].
      eexists. split; [reflexivity|].
      intros w2 Hd. rewrite handleGetCluster_eq, Hd. reflexivity.
    - split; [reflexivity|]. eexists. split; [reflexivity|]. reflexivity. }
  destruct (H w) as (Hw & resp & Hresp & Hsame).
  split; [|split; [exact Hw|]].
  - apply H.
  - exists resp. split; [|exact Hresp]. apply Hsame. reflexivity.
Qed.

Lemma reads_only_log_the_request_witness :
  (route env_ok (GetCluster "dev1") w_dev1).2
    = mkWorld (disk w_dev1) (tick w_dev1) (trace w_dev1)
        ("GET /clusters/dev1 127.0.0.1:40312" :: logs w_dev1)
  /\ (route env_ok GetHealth w_corrupt).2
     = mkWorld (disk w_corrupt) (tick w_corrupt) (trace w_corrupt)
         ("GET /health 127.0.0.1:40312" :: logs w_corrupt).
Proof.
  split.
  - apply (reads_only_log_the_request env_ok (GetCluster "dev1") w_dev1
             eq_refl).
  - apply (reads_only_log_the_request env_ok GetHealth w_corrupt eq_refl).
Defined.

(** X12. The cluster list is the cluster map of the state: one entry for
    each key, no name twice, and each entry carries the name and the four
    fields stored under it. *)
Theorem list_is_the_cluster_map (w : World) (st : HostState)
    (m : gmap string ClusterInfo) :
  Load w = (Ret (inl st), w) ->
  Clusters st = Some m ->
  exists l,
    handleListClusters w = (Ret (mkResponse StatusOK (BodyClusters l)), w)
    /\ length l = size m
    /\ NoDup (resp_Name <$> l)
    /\ (forall c, c ∈ l <->
          exists info, m !! resp_Name c = Some info
                       /\ c = response_of (resp_Name c) info).
Proof.
  intros Hload Hm. apply Load_loaded in Hload.
  eexists. rewrite handleListClusters_eq, Hload, Hm.
  split; [reflexivity|]. split; [|split].
  - rewrite length_fmap. apply length_map_to_list.
  - rewrite <- list_fmap_compose.
    rewrite (list_fmap_ext _ fst (map_to_list m)) by (intros ? [n i] _; reflexivity).
    apply NoDup_fst_map_to_list.
  - intros c. rewrite list_elem_of_fmap. split.
    + intros ([n info] & -> & Hin). apply elem_of_map_to_list in Hin.
      exists info. split; [exact Hin|reflexivity].
    + intros (info & Hin & Hc). exists (resp_Name c, info).
      split; [exact Hc|]. apply elem_of_map_to_list. exact Hin.
Qed.

Lemma list_is_the_cluster_map_witness :
  exists l,
    handleListClusters w_dev1 = (Ret (mkResponse StatusOK (BodyClusters l)),
                                 w_dev1)
    /\ length l = 2
    /\ NoDup (resp_Name <$> l).
Proof.
  destruct (list_is_the_cluster_map w_dev1 st_dev1
              (<["dev1" := info_dev1]> (<["kind" := info_kind]> ∅)))
    as (l & Hlist & Hlen & Hnodup & _); [vm_compute; reflexivity|reflexivity|].
  exists l. split; [exact Hlist|]. split; [|exact Hnodup].
  rewrite Hlen. vm_compute. reflexivity.
Defined.



(** X14. The image load and the kubeconfig handlers go past the state: their
    answers do not depend on the state file, and they leave it as it is.
    An image is loaded into, and a kubeconfig asked for, a cluster the state
    has never heard of. *)
Theorem image_and_kubeconfig_bypass_the_state (env : Env) (name : string)
    (d d' : File) (t : nat) (tr : list Event) (l : list string) :
  (forall image,
     (handleLoadImage env name image (mkWorld d t tr l)).1
       = (handleLoadImage env name image (mkWorld d' t tr l)).1
     /\ disk (handleLoadImage env name image (mkWorld d t tr l)).2 = d)
  /\ (handleGetKubeconfig env name (mkWorld d t tr l)).1
     = (handleGetKubeconfig env name (mkWorld d' t tr l)).1
  /\ disk (handleGetKubeconfig env name (mkWorld d t tr l)).2 = d.
Proof.
  split; [|split].
  - intros [image|]; [|split; reflexivity].
    unfold handleLoadImage. destruct (bool_decide (image = "")); [split; reflexivity|].
    unfold kind_LoadImage, bind. rewrite !run_eq. cbn [tick].
    destruct (env_run env (KindLoadImage name image) t); split; reflexivity.
  - unfold handleGetKubeconfig, bind, kind_GetKubeconfig. cbn [tick].
    destruct (env_getKubeconfig env name t); reflexivity.
  - unfold handleGetKubeconfig, bind, kind_GetKubeconfig. cbn [tick].
    destruct (env_getKubeconfig env name t); reflexivity.
Qed.

(** X15. When the registry start succeeds, on a state that loads and with
    the write succeeding, the answer is 200 and the state loaded afterwards
    is the old one with the registry flag set. *)
Theorem registry_start_commits (env : Env) (w : World) (st : HostState) :
  env_run env KindCreateRegistry (tick w) = None ->
  Load w = (Ret (inl st), w) ->
  env_writeFile env (S (tick w)) = None ->
  let w' := (handleRegistryStart env w).2 in
  (handleRegistryStart env w).1
    = Ret (mkResponse StatusOK (BodyDone true "Registry started"))
  /\ Load w' = (Ret (inl (set_RegistryRunning true st)), w').
Proof.
  intros Hreg Hload Hwrite w'. apply Load_loaded in Hload.
  destruct (Load_result_allocated _ _ Hload) as [m Hm].
  unfold w', handleRegistryStart, kind_CreateRegistry.
  rewrite (bind_Ret _ _ _ _ _ (run_ok env _ w Hreg)). cbv beta iota.
  erewrite (bind_Ret _ _ _ _ _
              (SetRegistryStatus_ok env true (mkWorld _ _ _ _) st Hload Hwrite)).
  split; [reflexivity|].
  unfold bind, ret. simpl. rewrite Load_Json. unfold allocated. simpl.
  rewrite Hm. reflexivity.
Qed.

Lemma registry_start_commits_witness :
  let w' := (handleRegistryStart env_ok w_dev1).2 in
  (handleRegistryStart env_ok w_dev1).1
    = Ret (mkResponse StatusOK (BodyDone true "Registry started"))
  /\ Load w' = (Ret (inl (set_RegistryRunning true st_dev1)), w').
Proof.
  apply (registry_start_commits env_ok w_dev1 st_dev1);
    [reflexivity|vm_compute; reflexivity|reflexivity].
Defined.

(** ** The initializer and the start-up, from end to end *)

Lemma SetRegistryStatus_inv (env : Env) (b : bool) (w w1 : World) :
  SetRegistryStatus env b w = (Ret None, w1) ->
  exists st, Load_result (disk w) = inl st
    /\ w1 = mkWorld (Bytes (Json (set_RegistryRunning b st))) (S (tick w))
              (Wrote (Json (set_RegistryRunning b st)) true :: trace w) (logs w).
Proof.
  unfold SetRegistryStatus. rewrite (bind_Ret _ _ _ _ _ (Load_eq w)).
  destruct (Load_result (disk w)) as [st|e]; [|discriminate].
  intros H. apply Save_inv in H as [_ ->]. eauto.
Qed.

Lemma SetBaseClusterReady_inv (env : Env) (w w1 : World) :
  SetBaseClusterReady env w = (Ret None, w1) ->
  exists st, Load_result (disk w) = inl st
    /\ w1 = mkWorld (Bytes (Json (set_BaseClusterReady true st))) (S (tick w))
              (Wrote (Json (set_BaseClusterReady true st)) true :: trace w)
              (logs w).
Proof.
  unfold SetBaseClusterReady. rewrite (bind_Ret _ _ _ _ _ (Load_eq w)).
  destruct (Load_result (disk w)) as [st|e]; [|discriminate].
  intros H. apply Save_inv in H as [_ ->]. eauto.
Qed.

Lemma UpdateCluster_inv (env : Env) (name sta ty : string) (kv : bool)
    (w w1 : World) :
  UpdateCluster env name sta ty kv w = (Ret None, w1) ->
  exists st m,
    Load_result (disk w) = inl st /\ Clusters st = Some m
    /\ let st' := set_Clusters
                    (Some (<[name := mkClusterInfo sta
                                       (Some (env_now env (tick w))) ty kv]> m))
                    st in
       w1 = mkWorld (Bytes (Json st')) (S (S (tick w)))
              (Wrote (Json st') true :: trace w) (logs w).
Proof.
  unfold UpdateCluster. rewrite (bind_Ret _ _ _ _ _ (Load_eq w)).
  destruct (Load_result (disk w)) as [st|e] eqn:Hst; [|discriminate].
  rewrite (bind_Ret _ _ w (env_now env (tick w))
             (mkWorld (disk w) (S (tick w)) (trace w) (logs w)) eq_refl).
  destruct (Load_result_allocated _ _ Hst) as [m Hm]. rewrite Hm.
  intros H. apply Save_inv in H as [_ ->]. eauto.
Qed.

Lemma MarkInitialized_inv (env : Env) (it sty sd : string) (w w1 : World) :
  MarkInitialized env it sty sd w = (Ret None, w1) ->
  exists st,
    Load_result (disk w) = inl st
    /\ let st' := mkHostState true (Some (env_now env (tick w))) it sty sd true
                    (BaseClusterReady st) (RegistryRunning st) (Clusters st) in
       w1 = mkWorld (Bytes (Json st')) (S (S (tick w)))
              (Wrote (Json st') true :: trace w) (logs w).
Proof.
  unfold MarkInitialized. rewrite (bind_Ret _ _ _ _ _ (Load_eq w)).
  destruct (Load_result (disk w)) as [st|e] eqn:Hst; [|discriminate].
  rewrite (bind_Ret _ _ w (env_now env (tick w))
             (mkWorld (disk w) (S (tick w)) (trace w) (logs w)) eq_refl).
  intros H. apply Save_inv in H as [_ ->]. eauto.
Qed.

Lemma createBaseInfrastructure_success (env : Env) (w w' : World) :
  createBaseInfrastructure env w = (Ret None, w') ->
  exists st m created t,
    Load_result (disk w) = inl st /\ Clusters st = Some m
    /\ let st1 := set_RegistryRunning true st in
       let st2 := set_Clusters
                    (Some (<["kind" := mkClusterInfo "running" (Some created)
                                         "infrastructure" false]> m)) st1 in
       let st3 := set_BaseClusterReady true st2 in
       w' = mkWorld (Bytes (Json st3)) t
              ([Wrote (Json st3) true; Wrote (Json st2) true;
                Called (KindCreateCluster "kind" true) true;
                Wrote (Json st1) true; Called KindCreateRegistry true]
               ++ trace w)
              ("Creating base infrastructure cluster..."
               :: "Creating shared container registry..." :: logs w).
Proof.
  unfold createBaseInfrastructure. rewrite bind_logf. intros H.
  apply bind_inv in H as ([e|] & w1 & Hreg & H); [discriminate|].
  apply run_inv in Hreg as [_ ->].
  apply bind_inv in H as ([e|] & w2 & Hset & H); [discriminate|].
  apply SetRegistryStatus_inv in Hset as (st & Hst & ->). cbn [disk] in Hst.
  rewrite bind_logf in H.
  apply bind_inv in H as ([e|] & w3 & Hcl & H); [discriminate|].
  apply run_inv in Hcl as [_ ->].
  apply bind_inv in H as ([e|] & w4 & Hup & H); [discriminate|].
  apply UpdateCluster_inv in Hup as (st1 & m & Hst1 & Hm & ->).
  cbn [disk tick trace logs] in *.
  destruct (Load_result_allocated _ _ Hst) as [m0 Hm0].
  rewrite (Load_result_Json (set_RegistryRunning true st) m0 Hm0) in Hst1.
  injection Hst1 as <-. simpl in Hm. rewrite Hm0 in Hm. injection Hm as <-.
  apply bind_inv in H as ([e|] & w5 & Hready & H); [discriminate|].
  apply SetBaseClusterReady_inv in Hready as (st2 & Hst2 & ->).
  cbn [disk tick trace logs] in *.
  rewrite (Load_result_Json _ _ eq_refl) in Hst2 || idtac.
  simpl in Hst2. injection Hst2 as <-.
  injection H as <-.
  eexists st, m0, _, _. split; [exact Hst|]. split; [exact Hm0|]. reflexivity.
Qed.

Lemma detectStorage_inv (env : Env) (w w1 : World) (storage : StorageConfig) :
  detectStorage env w = (Ret (inl storage), w1) ->
  env_detectStorage env (tick w) = inl storage
  /\ w1 = mkWorld (disk w) (S (tick w)) (Called DetectStorage true :: trace w)
            (logs w).
Proof.
  unfold detectStorage.
  destruct (env_detectStorage env (tick w)) as [s|msg]; [|discriminate].
  intros [= <- <-]. auto.
Qed.

Lemma configureStorage_inv (env : Env) (storage : StorageConfig)
    (w w1 : World) :
  configureStorage env storage w = (Ret None, w1) ->
  exists line,
    w1 = mkWorld (disk w) (S (tick w))
           (Called (if HasNVMe storage then SetupNVMeStorage (Device storage)
                    else SetupDefaultStorage) true :: trace w)
           (line :: logs w).
Proof.
  unfold configureStorage, setupNVMeStorage, setupDefaultStorage.
  destruct (HasNVMe storage); rewrite bind_logf; intros H;
    apply run_inv in H as [_ ->]; eauto.
Qed.

(** X16. A run of [Initialize] that returns nil has done everything, in this
    order: storage detection, instance type lookup, package installation,
    storage setup (of the NVMe device when one was detected, the default
    one otherwise), registry creation, a state write, creation of the kind
    cluster, three state writes; none of the calls failed but possibly the
    instance type lookup. The state file it started from loads, and the one
    it leaves loads as: initialized, with a time, the detected storage, the
    instance type (unknown when the lookup failed), packages installed,
    registry running, base cluster ready, and the old clusters with the
    running infrastructure cluster kind put over them. *)
Theorem Initialize_success (env : Env) (w w' : World) :
  Initialize env w = (Ret None, w') ->
  exists storage st m st' created d1 d2 d3 it_ok,
    env_detectStorage env (tick w) = inl storage
    /\ Load w = (Ret (inl st), w)
    /\ Clusters st = Some m
    /\ trace w'
       = [Wrote (Json st') true; Wrote d3 true; Wrote d2 true;
          Called (KindCreateCluster "kind" true) true;
          Wrote d1 true; Called KindCreateRegistry true;
          Called (if HasNVMe storage then SetupNVMeStorage (Device storage)
                  else SetupDefaultStorage) true;
          Called InstallPackages true; Called GetInstanceType it_ok;
          Called DetectStorage true] ++ trace w
    /\ Load w' = (Ret (inl st'), w')
    /\ st' = mkHostState true (InitializedAt st')
               match env_getInstanceType env (S (tick w)) with
               | inl t => t
               | inr _ => "unknown"
               end
               (sc_Type storage) (Device storage) true true true
               (Some (<["kind" := mkClusterInfo "running" (Some created)
                                    "infrastructure" false]> m))
    /\ is_Some (InitializedAt st').
Proof.
  unfold Initialize. rewrite bind_logf. intros H.
  apply bind_inv in H as ([storage|e] & w1 & Hdet & H); [|discriminate].
  apply detectStorage_inv in Hdet as [Hdet ->].
  apply bind_inv in H as (it & w2 & Hit & H).
  unfold getInstanceType in Hit. injection Hit as <- <-.
  cbn [disk tick trace logs] in H.
  apply bind_inv in H as (instanceType & w3 & Hty & H).
  assert (Hw3 : instanceType = match env_getInstanceType env (S (tick w)) with
                               | inl t => t
                               | inr _ => "unknown"
                               end
                /\ exists line,
                     w3 = mkWorld (disk w) (S (S (tick w)))
                            (Called GetInstanceType
                               (succeeded (env_getInstanceType env (S (tick w))))
                             :: Called DetectStorage true :: trace w)
                            (line :: "Starting host initialization..." :: logs w)).
  { destruct (env_getInstanceType env (S (tick w))) as [t|msg];
      rewrite bind_logf in Hty; injection Hty as <- <-; eauto. }
  destruct Hw3 as [-> [line ->]]. clear Hty.
  rewrite !bind_logf in H. cbn [disk tick trace logs] in H.
  apply bind_inv in H as ([e|] & w4 & Hinst & H); [discriminate|].
  unfold installPackages in Hinst. apply run_inv in Hinst as [_ ->].
  rewrite bind_logf in H. cbn [disk tick trace logs] in H.
  apply bind_inv in H as ([e|] & w5 & Hconf & H); [discriminate|].
  apply configureStorage_inv in Hconf as [line2 ->].
  rewrite bind_logf in H. cbn [disk tick trace logs] in H.
  apply bind_inv in H as ([e|] & w6 & Hssh & H); [discriminate|].
  unfold configureSSH in Hssh. rewrite bind_logf in Hssh.
  injection Hssh as <-.
  rewrite bind_logf in H. cbn [disk tick trace logs] in H.
  apply bind_inv in H as ([e|] & w7 & Hbase & H); [discriminate|].
  apply createBaseInfrastructure_success in Hbase
    as (st & m & created & t & Hst & Hm & ->).
  cbn [disk tick trace logs] in *.
  apply bind_inv in H as ([e|] & w8 & Hmark & H); [discriminate|].
  apply MarkInitialized_inv in Hmark as (st3 & Hst3 & ->).
  cbn [disk tick trace logs] in *.
  rewrite (Load_result_Json _ _ eq_refl) in Hst3 || simpl in Hst3.
  injection Hst3 as <-.
  rewrite bind_logf in H. injection H as <-.
  eexists storage, st, m, _, created, _, _, _, _.
  split; [exact Hdet|]. split; [apply Load_loaded, Hst|].
  split; [exact Hm|]. split; [reflexivity|].
  split; [apply Load_Json|].
  split; [reflexivity|]. simpl. eauto.
Qed.

Lemma Initialize_success_witness :
  let w' := (Initialize env_ok w_fresh).2 in
  exists st',
    Load w' = (Ret (inl st'), w')
    /\ Initialized st' = true /\ InstanceType st' = "t3.large"
    /\ StorageType st' = "ebs-only" /\ BaseClusterReady st' = true
    /\ is_Some (map_index (Clusters st') "kind").
Proof.
  intros w'.
  destruct (Initialize_success env_ok w_fresh w')
    as (storage & st & m & st' & created & d1 & d2 & d3 & it_ok
        & Hdet & _ & _ & _ & Hload & Hst' & _); [vm_compute; reflexivity|].
  exists st'. split; [exact Hload|].
  injection Hdet as <-. rewrite Hst'. cbn.
  split; [reflexivity|]. split; [reflexivity|]. split; [reflexivity|].
  split; [reflexivity|]. rewrite lookup_insert_eq. eauto.
Defined.

Ltac calls_only := simpl; repeat (constructor; simpl); try exact I.

Ltac unloadable_ends :=
  apply wp_ret; cbn [disk tick trace logs];
  lazymatch goal with
  | |- unloadable_post ?w0 (Ret (Some ?e)) (mkWorld _ _ ?tr _) =>
      let p := prefix_of tr (trace w0) in
      exists e, p; eexists;
      split; [reflexivity|]; split; [reflexivity|]; split; [reflexivity|];
      split; [calls_only|reflexivity]
  end.

Lemma Initialize_unloadable (env : Env) (w : World) (e0 : error) :
  Load_result (disk w) = inr e0 ->
  wp (Initialize env) (unloadable_post w) w.
Proof.
  intros Hload. unfold Initialize.
  apply wp_bind, wp_logf. cbv beta iota.
  apply wp_bind, wp_detectStorage.
  intros t; split; [intros storage|intros e]; cbv beta iota;
    [|unloadable_ends].
  apply wp_bind, wp_getInstanceType. intros t1 it it_ok. cbv beta iota.
  apply wp_bind.
  eapply (wp_conseq _
    (fun o w' => exists a, o = Ret a /\ disk w' = disk w /\
       trace w' = [Called GetInstanceType it_ok; Called DetectStorage true]
                  ++ trace w)).
  { destruct it as [ty|e]; apply wp_bind, wp_logf, wp_ret; eexists; eauto. }
  intros o [d0 t0 tr0 lg0] (instanceType & -> & Hd & Htr).
  cbn [disk trace] in Hd, Htr. subst d0 tr0. simpl app.
  apply wp_bind, wp_logf. cbv beta iota.
  apply wp_bind, wp_logf. cbv beta iota.
  apply wp_bind. unfold installPackages. apply wp_run.
  intros t2; split; [|intros e]; cbv beta iota; [|unloadable_ends].
  apply wp_bind, wp_logf. cbv beta iota.
  apply wp_bind.
  eapply (wp_conseq _
    (fun o w' => exists r setup ok, o = Ret r /\ disk w' = disk w /\
       trace w' = [Called setup ok; Called InstallPackages true;
                   Called GetInstanceType it_ok; Called DetectStorage true]
                  ++ trace w)).
  { unfold configureStorage, setupNVMeStorage, setupDefaultStorage.
    destruct (HasNVMe storage); apply wp_bind, wp_logf, wp_run;
      intros t3; split; [|intros e| |intros e]; eexists _, _, _;
      repeat split. }
  intros o [d0 t3 tr0 lg1] (r & setup & ok & -> & Hd & Htr).
  cbn [disk trace] in Hd, Htr. subst d0 tr0. simpl app.
  destruct r as [e|]; [unloadable_ends|].
  apply wp_bind, wp_logf. cbv beta iota.
  apply wp_bind. unfold configureSSH. apply wp_bind, wp_logf, wp_ret.
  cbv beta iota.
  apply wp_bind, wp_logf. cbv beta iota. cbn [disk tick trace logs].
  apply wp_bind. unfold createBaseInfrastructure.
  apply wp_bind, wp_logf. cbv beta iota.
  apply wp_bind. unfold kind_CreateRegistry. apply wp_run.
  intros t4; split; [|intros e]; cbv beta iota.
  2:{ apply wp_ret. cbv beta iota. unloadable_ends. }
  apply wp_bind. eapply wp_Mutated; [apply SetRegistryStatus_Mutated| |];
    cbn [disk trace logs tick].
  - intros e He. apply wp_ret. cbv beta iota. unloadable_ends.
  - intros st st' t5 Hst. congruence.
Qed.

(** X17. On a state file that does not load, [main] takes the host for a
    fresh one, runs the initializer and exits with status 1. The run starts
    with the storage detection, makes calls only, never writes the state
    file and leaves it as it was, so that the next start finds the same
    file. *)
Theorem main_on_unloadable_state (env : Env) (w : World) (e0 : error) :
  Load w = (Ret (inr e0), w) ->
  exists w' l ok,
    main env w = (Ret (Exit 1), w')
    /\ disk w' = disk w
    /\ trace w' = l ++ trace w
    /\ Forall is_call l
    /\ last l = Some (Called DetectStorage ok).
Proof.
  intros Hload. pose proof Hload as Hres. apply Load_failed in Hres.
  unfold main. rewrite (bind_Ret _ _ _ _ _ Hload). cbv beta iota.
  rewrite (bind_Ret _ _ w zeroHostState
             (mkWorld (disk w) (tick w) (trace w)
                (("Failed to load state, assuming fresh host error=" +:+
                  Error e0) :: logs w)) eq_refl).
  change (negb (Initialized zeroHostState)) with true. cbv iota.
  rewrite bind_logf.
  match goal with |- context [bind (Initialize env) _ ?w1] =>
    pose proof (Initialize_unloadable env w1 e0 Hres) as Hwp;
    unfold wp in Hwp; destruct (Initialize env w1) as [o w2] eqn:Hinit;
    destruct Hwp as (e & l & ok & Ho & Hd & Htr & Hcalls & Hlast);
    simpl in Ho; subst o;
    rewrite (bind_Ret _ _ _ _ _ Hinit)
  end.
  rewrite bind_logf. simpl in *.
  eexists _, l, ok. split; [reflexivity|]. simpl. auto.
Qed.

Lemma main_on_unloadable_state_witness :
  exists w' l ok,
    main env_ok w_corrupt = (Ret (Exit 1), w')
    /\ disk w' = Bytes Malformed
    /\ trace w' = l ++ trace w_corrupt
    /\ Forall is_call l
    /\ last l = Some (Called DetectStorage ok).
Proof.
  apply (main_on_unloadable_state env_ok w_corrupt
           (ErrMsg ("failed to parse state file: " +:+
                    "unexpected end of JSON input"))).
  reflexivity.
Defined.

Lemma main_Serve_initialized (env : Env) (w w' : World) :
  main env w = (Ret Serve, w') ->
  exists st, Load w' = (Ret (inl st), w') /\ Initialized st = true.
Proof.
  unfold main. rewrite (bind_Ret _ _ _ _ _ (Load_eq w)). intros H.
  assert (Hinit : forall w1,
            pending (fun _ => True) (disk w1) ->
            bind (logf "Fresh host detected, running initialization")
              (fun _ => bind (Initialize env)
                 (fun err => match err with
                    | Some e =>
                        bind (logf ("Host setup failed error=" +:+ Error e))
                          (fun _ => ret (Exit 1))
                    | None =>
                        bind (logf "Host initialization complete")
                          (fun _ => ret Serve)
                    end)) w1 = (Ret Serve, w') ->
            exists st, Load w' = (Ret (inl st), w') /\ Initialized st = true).
  { intros w1 Hpre H1. rewrite bind_logf in H1.
    apply bind_inv in H1 as ([e|] & w2 & Hrun & H1).
    - rewrite bind_logf in H1. discriminate.
    - rewrite bind_logf in H1. injection H1 as <-.
      pose proof (Initialize_spec env (fun _ => True) I
                    (mkWorld (disk w1) (tick w1) (trace w1)
                       ("Fresh host detected, running initialization"
                        :: logs w1)) Hpre) as Hpost.
      apply (wp_out _ _ _ _ _ Hrun) in Hpost.
      unfold run_post in Hpost.
      destruct Hpost as (r & l & [= <-] & _ & _ & _ & st & Hst & Hi & _).
      exists st. split; [apply Load_loaded; exact Hst|exact Hi]. }
  destruct (Load_result (disk w)) as [st|e] eqn:Hst.
  - rewrite (bind_Ret _ _ w st w eq_refl) in H.
    destruct (Initialized st) eqn:Hi; cbn [negb] in H.
    + rewrite bind_logf in H. injection H as <-.
      exists st. split; [|exact Hi]. apply Load_loaded. exact Hst.
    + apply (Hinit w); [|exact H].
      intros st0 Hst0. rewrite Hst in Hst0. injection Hst0 as <-.
      split; [exact Hi|]. intros n c _. exact I.
  - rewrite (bind_Ret _ _ w zeroHostState
               (mkWorld (disk w) (tick w) (trace w)
                  (("Failed to load state, assuming fresh host error=" +:+
                    Error e) :: logs w)) eq_refl) in H.
    change (negb (Initialized zeroHostState)) with true in H. cbv iota in H.
    eapply Hinit; [|exact H].
    intros st0 Hst0. cbn [disk] in Hst0. congruence.
Qed.

(** ** Storage detection *)

Lemma append_cons (c : Ascii.ascii) (a b : string) :
  String c a +:+ b = String c (a +:+ b).
Proof. reflexivity. Qed.

Lemma append_nil (b : string) : "" +:+ b = b.
Proof. reflexivity. Qed.

Lemma append_assoc (a b c : string) : (a +:+ b) +:+ c = a +:+ (b +:+ c).
Proof.
  induction a as [|x a IH]; [reflexivity|].
  rewrite !append_cons, IH. reflexivity.
Qed.

Lemma HasPrefix_spec (s p : string) :
  HasPrefix s p = true <-> exists b, s = p +:+ b.
Proof.
  revert s. induction p as [|c p IH]; intros s.
  - simpl. split; [eauto|reflexivity].
  - destruct s as [|d s]; simpl.
    + split; [discriminate|]. intros [b Hb]. discriminate.
    + case_bool_decide as Hcd.
      * subst d. rewrite IH. split; intros [b Hb]; exists b.
        -- rewrite append_cons. congruence.
        -- rewrite append_cons in Hb. congruence.
      * split; [discriminate|]. intros [b Hb].
        rewrite append_cons in Hb. congruence.
Qed.

Lemma Contains_spec (s sub : string) :
  Contains s sub = true <-> exists a b, s = a +:+ sub +:+ b.
Proof.
  induction s as [|c s IH]; simpl.
  - rewrite orb_false_r, HasPrefix_spec. split.
    + intros [b Hb]. exists "", b. exact Hb.
    + intros (a & b & H). destruct a; [eauto|discriminate].
  - rewrite orb_true_iff, HasPrefix_spec, IH. split.
    + intros [[b Hb]|(a & b & Hab)].
      * exists "", b. exact Hb.
      * exists (String c a), b. rewrite append_cons. congruence.
    + intros (a & b & Hab). destruct a as [|c' a].
      * left. eauto.
      * right. exists a, b. rewrite append_cons in Hab. congruence.
Qed.

Lemma HasSuffix_spec (s suf : string) :
  HasSuffix s suf = true <-> exists a, s = a +:+ suf.
Proof.
  induction s as [|c s IH]; simpl.
  - rewrite orb_false_r, bool_decide_eq_true. split.
    + intros <-. exists "". reflexivity.
    + intros [a Ha]. destruct a; [exact Ha|discriminate].
  - rewrite orb_true_iff, bool_decide_eq_true, IH. split.
    + intros [<-|[a Ha]]; [exists ""; reflexivity|].
      exists (String c a). rewrite append_cons. congruence.
    + intros [a Ha]. destruct a as [|c' a].
      * left. exact Ha.
      * right. exists a. rewrite append_cons in Ha. congruence.
Qed.

(** X18. [hasNVMeStorage] matches its patterns anywhere in the instance
    type, not at its start: a type has NVMe storage exactly when one of the
    patterns occurs in it, so that whatever is put before or after a
    matching type matches too, and every type that ends in .metal
    matches. *)
Theorem hasNVMeStorage_matches_anywhere (instanceType : string) :
  (hasNVMeStorage instanceType = true
   <-> exists pattern a b,
         pattern ∈ nvmePatterns /\ instanceType = a +:+ pattern +:+ b)
  /\ (hasNVMeStorage instanceType = true ->
      forall a b, hasNVMeStorage (a +:+ instanceType +:+ b) = true)
  /\ (forall family, hasNVMeStorage (family +:+ ".metal") = true).
Proof.
  assert (Hiff : forall it,
            hasNVMeStorage it = true
            <-> exists pattern a b,
                  pattern ∈ nvmePatterns /\ it = a +:+ pattern +:+ b).
  { intros it. unfold hasNVMeStorage. rewrite existsb_exists. split.
    - intros (p & Hin & Hc). apply Contains_spec in Hc as (a & b & Hab).
      exists p, a, b. split; [apply list_elem_of_In, Hin|exact Hab].
    - intros (p & a & b & Hin & Hab). exists p.
      split; [apply list_elem_of_In, Hin|]. apply Contains_spec. eauto. }
  split; [apply Hiff|]. split.
  - intros H a b. apply Hiff in H as (p & a' & b' & Hin & ->).
    apply Hiff. exists p, (a +:+ a'), (b' +:+ b). split; [exact Hin|].
    rewrite !append_assoc. reflexivity.
  - intros family. apply Hiff. exists ".metal", family, "".
    split; [|reflexivity].
    apply list_elem_of_lookup. exists 35. reflexivity.
Qed.

(** X19. [isInstanceStore] takes a device for an instance store exactly when
    blkid finds no file system on it and its size is at least 51 GiB
    (54760833024 bytes): the size in whole GiB has to exceed 50. A device
    whose size cannot be read is none. *)
Theorem isInstanceStore_threshold (mc : Machine) (device : string) :
  isInstanceStore mc device = true
  <-> blkid mc device = false
      /\ exists size, blockdev_size mc device = Some size
                      /\ (54760833024 <= size)%Z.
Proof.
  unfold isInstanceStore. destruct (blkid mc device).
  - split; [discriminate|]. intros [H _]. discriminate.
  - destruct (blockdev_size mc device) as [size|].
    + cbv zeta. rewrite Z.ltb_lt. split.
      * intros H. split; [reflexivity|]. exists size. split; [reflexivity|].
        destruct (Z.le_gt_cases 54760833024 size) as [Hle|Hgt]; [exact Hle|].
        exfalso. destruct (Z.le_gt_cases 0 size) as [Hpos|Hneg].
        -- rewrite Z.quot_div_nonneg in H by lia.
           assert (size `div` (1024 * 1024 * 1024) < 51)%Z
             by (apply Z.div_lt_upper_bound; lia). lia.
        -- pose proof (Z.quot_opp_l size (1024 * 1024 * 1024)) as Hq.
           assert (0 <= - size ÷ (1024 * 1024 * 1024))%Z
             by (apply Z.quot_pos; lia).
           rewrite Hq in * by lia. lia.
      * intros (_ & size' & [= <-] & Hle).
        rewrite Z.quot_div_nonneg by lia.
        assert (51 <= size `div` (1024 * 1024 * 1024))%Z
          by (apply Z.div_le_lower_bound; lia). lia.
    + split; [discriminate|]. intros (_ & size & H & _). discriminate.
Qed.

Lemma scanDevices_cons (mc : Machine) (name : string) (devices : list string) :
  scanDevices mc (name :: devices)
    = if HasPrefix name "nvme" && HasSuffix name "n1" then
        if isInstanceStore mc ("/dev/" +:+ name) then
          mkStorageConfig true ("/dev/" +:+ name) "instance-store"
        else scanDevices mc devices
      else scanDevices mc devices.
Proof. reflexivity. Qed.

Lemma scanDevices_spec (mc : Machine) (devices : list string) :
  (exists before name after,
     devices = before ++ name :: after
     /\ Forall (fun n => ~ eligible mc n) before
     /\ eligible mc name
     /\ scanDevices mc devices
        = mkStorageConfig true ("/dev/" +:+ name) "instance-store")
  \/ (Forall (fun n => ~ eligible mc n) devices
      /\ scanDevices mc devices = mkStorageConfig false "" "ebs-only").
Proof.
  induction devices as [|name devices IH];
    [right; split; [constructor|reflexivity]|].
  rewrite scanDevices_cons.
  destruct (HasPrefix name "nvme" && HasSuffix name "n1") eqn:Hps;
    [destruct (isInstanceStore mc ("/dev/" +:+ name)) eqn:Hi|].
  - apply andb_true_iff in Hps as [Hp Hs].
    left. exists [], name, devices.
    split; [reflexivity|]. split; [constructor|]. split; [|reflexivity].
    repeat split; assumption.
  - assert (Hne : ~ eligible mc name) by (intros (_ & _ & H); congruence).
    destruct IH as [(before & n & after & -> & Hb & He & Hr)|[Hall Hr]].
    + left. exists (name :: before), n, after.
      split; [reflexivity|]. split; [constructor; assumption|].
      split; assumption.
    + right. split; [constructor; auto|exact Hr].
  - assert (Hne : ~ eligible mc name).
    { intros (Hp & Hs & _). rewrite Hp, Hs in Hps. discriminate. }
    destruct IH as [(before & n & after & -> & Hb & He & Hr)|[Hall Hr]].
    + left. exists (name :: before), n, after.
      split; [reflexivity|]. split; [constructor; assumption|].
      split; assumption.
    + right. split; [constructor; auto|exact Hr].
Qed.

(** X20. When /dev/ can be listed, [scanForNVMeDevices] succeeds with the
    first entry, in the order of the listing, whose name starts with nvme
    and ends with n1 and that [isInstanceStore] accepts, as an instance
    store under /dev/; when there is no such entry it answers EBS only, with
    no device. *)
Theorem scanForNVMeDevices_takes_the_first (mc : Machine)
    (devices : list string) :
  readDir mc = inl devices ->
  exists c,
    scanForNVMeDevices mc = inl c
    /\ ((exists before name after,
           devices = before ++ name :: after
           /\ Forall (fun n => ~ eligible mc n) before
           /\ eligible mc name
           /\ c = mkStorageConfig true ("/dev/" +:+ name) "instance-store")
        \/ (Forall (fun n => ~ eligible mc n) devices
            /\ c = mkStorageConfig false "" "ebs-only")).
Proof.
  intros Hdir. unfold scanForNVMeDevices. rewrite Hdir.
  eexists. split; [reflexivity|]. apply scanDevices_spec.
Qed.

Lemma scanForNVMeDevices_takes_the_first_witness :
  exists c,
    scanForNVMeDevices mc_nvme = inl c
    /\ ((exists before name after,
           ["nvme0n1"; "nvme1n1"; "sda"] = before ++ name :: after
           /\ Forall (fun n => ~ eligible mc_nvme n) before
           /\ eligible mc_nvme name
           /\ c = mkStorageConfig true ("/dev/" +:+ name) "instance-store")
        \/ (Forall (fun n => ~ eligible mc_nvme n)
              ["nvme0n1"; "nvme1n1"; "sda"]
            /\ c = mkStorageConfig false "" "ebs-only")).
Proof.
  apply (scanForNVMeDevices_takes_the_first mc_nvme). reflexivity.
Defined.

(** X21. What [detectStorage] returns is coherent: either NVMe, of type
    instance-store, with a device under /dev/nvme, or no NVMe, of type
    ebs-only, with no device. It fails only when the metadata service gave
    no instance type and /dev/ could not be listed; when the metadata
    service answers, the devices are not looked at. *)
Theorem detectStorage_is_coherent (metadata : string + error) (mc : Machine) :
  (forall c, detectStorage_on metadata mc = inl c -> coherent c)
  /\ (forall e, detectStorage_on metadata mc = inr e ->
        (exists e', metadata = inr e') /\ exists msg, readDir mc = inr msg)
  /\ (forall instanceType,
        metadata = inl instanceType ->
        detectStorage_on metadata mc
          = inl (detectStorageFromInstanceType instanceType)).
Proof.
  split; [|split].
  - intros c. destruct metadata as [it|e]; simpl.
    + intros [= <-]. unfold detectStorageFromInstanceType.
      destruct (hasNVMeStorage it); [left|right]; repeat split.
    + unfold scanForNVMeDevices.
      destruct (readDir mc) as [devices|msg] eqn:Hdir; [|discriminate].
      intros [= <-].
      destruct (scanDevices_spec mc devices)
        as [(before & n & after & _ & _ & (Hp & _ & _) & ->)|[_ ->]].
      * left. repeat split. simpl.
        apply HasPrefix_spec in Hp as [b ->]. reflexivity.
      * right. repeat split.
  - intros e. destruct metadata as [it|e']; simpl; [discriminate|].
    unfold scanForNVMeDevices.
    destruct (readDir mc) as [devices|msg]; [discriminate|]. eauto.
  - intros it ->. reflexivity.
Qed.

(** ** The environment of the daemon *)

Lemma name_rest_spec (s : string) :
  name_rest s = true
  <-> exists rest value,
        s = rest +:+ "=" +:+ value
        /\ forallb name_char (String.list_ascii_of_string rest) = true.
Proof.
  induction s as [|c s IH]; simpl.
  - split; [discriminate|]. intros (rest & value & H & _).
    destruct rest; discriminate.
  - case_bool_decide as Hc.
    + subst c. split; [|reflexivity]. intros _. exists "", s.
      split; reflexivity.
    + destruct (name_char c) eqn:Hn.
      * rewrite IH. split.
        -- intros (rest & value & -> & Hall). exists (String c rest), value.
           split; [reflexivity|]. simpl. rewrite Hn. exact Hall.
        -- intros (rest & value & H & Hall). destruct rest as [|c' rest].
           ++ rewrite append_nil in H. injection H as H _. congruence.
           ++ rewrite append_cons in H. injection H as <- ->.
              simpl in Hall. apply andb_true_iff in Hall as [_ Hall].
              exists rest, value. split; [reflexivity|exact Hall].
      * split; [discriminate|]. intros (rest & value & H & Hall).
        destruct rest as [|c' rest].
        -- rewrite append_nil in H. injection H as H _. congruence.
        -- rewrite append_cons in H. injection H as <- ->.
           simpl in Hall. rewrite Hn in Hall. discriminate.
Qed.

Lemma validNameRegex_spec (env : string) :
  validNameRegex env = true
  <-> exists name value,
        env = name +:+ "=" +:+ value /\ valid_name name = true.
Proof.
  destruct env as [|c s]; simpl.
  - split; [discriminate|]. intros (name & value & H & Hv).
    destruct name; discriminate.
  - rewrite andb_true_iff, name_rest_spec. split.
    + intros (Hc & rest & value & -> & Hall).
      exists (String c rest), value. split; [reflexivity|].
      simpl. rewrite Hc. exact Hall.
    + intros (name & value & H & Hv). destruct name as [|c' rest].
      * discriminate.
      * rewrite append_cons in H. injection H as <- ->.
        simpl in Hv. apply andb_true_iff in Hv as [Hc Hall].
        split; [exact Hc|]. exists rest, value. auto.
Qed.

Lemma filterLoop_spec (environ : list string) :
  filterLoop environ
    = (List.filter validNameRegex environ,
       length (List.filter (fun e => negb (validNameRegex e)) environ)).
Proof.
  induction environ as [|e environ IH]; [reflexivity|].
  simpl. rewrite IH. destruct (validNameRegex e); reflexivity.
Qed.

Lemma filter_sublist (f : string -> bool) (l : list string) :
  sublist (List.filter f l) l.
Proof.
  induction l as [|x l IH]; simpl; [constructor|].
  destruct (f x); [apply sublist_skip|apply sublist_cons]; exact IH.
Qed.

Lemma filter_lengths (f : string -> bool) (l : list string) :
  length (List.filter f l) + length (List.filter (fun e => negb (f e)) l)
    = length l.
Proof.
  induction l as [|x l IH]; simpl; [reflexivity|].
  destruct (f x); simpl; lia.
Qed.

Lemma filter_id (f : string -> bool) (l : list string) :
  List.filter f (List.filter f l) = List.filter f l
  /\ List.filter (fun e => negb (f e)) (List.filter f l) = [].
Proof.
  induction l as [|x l [IH1 IH2]]; simpl; [auto|].
  destruct (f x) eqn:Hx; simpl; rewrite ?Hx; simpl; [|auto].
  split; [congruence|exact IH2].
Qed.

Lemma filterValidEnvVars_eq (environ : list string) :
  filterValidEnvVars environ
    = (List.filter validNameRegex environ,
       (if Nat.ltb 0 (length (List.filter (fun e => negb (validNameRegex e))
                                environ))
        then [FilteredInvalid
                (length (List.filter (fun e => negb (validNameRegex e))
                           environ))]
        else [])
       ++ (if existsb (fun env => HasPrefix env "PATH=")
                (List.filter validNameRegex environ)
           then []
           else [CriticalMissing "PATH"])).
Proof.
  unfold filterValidEnvVars. rewrite filterLoop_spec.
  cbv beta iota zeta. unfold flat_map. rewrite app_nil_r. reflexivity.
Qed.

(** X22. [filterValidEnvVars] keeps, in their order, exactly the entries of
    the form name=value whose name is a letter or an underscore followed by
    letters, digits and underscores. It warns of filtered entries exactly
    when there are some, with their number. Filtering what it returned
    returns the same and warns of no filtered entry. *)
Theorem filterValidEnvVars_keeps_the_valid (environ : list string) :
  let validEnv := (filterValidEnvVars environ).1 in
  let warnings := (filterValidEnvVars environ).2 in
  sublist validEnv environ
  /\ (forall e, e ∈ validEnv <->
        e ∈ environ
        /\ exists name value,
             e = name +:+ "=" +:+ value /\ valid_name name = true)
  /\ (forall n, FilteredInvalid n ∈ warnings <->
        n = length environ - length validEnv /\ 0 < n)
  /\ (filterValidEnvVars validEnv).1 = validEnv
  /\ (forall n, FilteredInvalid n ∉ (filterValidEnvVars validEnv).2).
Proof.
  rewrite !filterValidEnvVars_eq. cbv zeta. cbn [fst snd].
  rewrite filterValidEnvVars_eq. cbn [fst snd].
  destruct (filter_id validNameRegex environ) as [Hid1 Hid2].
  pose proof (filter_lengths validNameRegex environ) as Hlen.
  rewrite Hid1, Hid2.
  split; [apply filter_sublist|]. split; [|split; [|split]].
  - intros e. rewrite list_elem_of_In, filter_In, <- list_elem_of_In,
      validNameRegex_spec. reflexivity.
  - intros n. rewrite elem_of_app.
    set (k := length (List.filter (fun e => negb (validNameRegex e)) environ))
      in *.
    assert (Hk : k = length environ - length (List.filter validNameRegex environ))
      by lia.
    split.
    + intros [Hin|Hin].
      * destruct (Nat.ltb 0 k) eqn:Hpos; [|inversion Hin].
        apply Nat.ltb_lt in Hpos. apply list_elem_of_singleton in Hin.
        injection Hin as ->. split; [exact Hk|exact Hpos].
      * destruct (existsb _ _); [inversion Hin|].
        apply list_elem_of_singleton in Hin. discriminate.
    + intros [-> Hpos]. left. rewrite <- Hk.
      apply Nat.ltb_lt in Hpos. rewrite <- Hk in Hpos. rewrite Hpos.
      apply list_elem_of_singleton. reflexivity.
  - reflexivity.
  - intros n. simpl length. simpl app.
    destruct (existsb _ _); [inversion 1|].
    intros Hin. apply list_elem_of_singleton in Hin. discriminate.
Qed.

Lemma PATH_is_valid (e : string) :
  HasPrefix e "PATH=" = true -> validNameRegex e = true.
Proof.
  intros H. apply HasPrefix_spec in H as [value ->].
  apply validNameRegex_spec. exists "PATH", value. split; reflexivity.
Qed.

(** X23. [filterValidEnvVars] warns that PATH is missing exactly when no
    entry of the environment it was given starts with PATH=: the filter
    itself never removes PATH. *)
Theorem filterValidEnvVars_warns_of_missing_PATH (environ : list string) :
  CriticalMissing "PATH" ∈ (filterValidEnvVars environ).2
  <-> ~ exists e, e ∈ environ /\ HasPrefix e "PATH=" = true.
Proof.
  rewrite filterValidEnvVars_eq. cbn [snd]. rewrite elem_of_app.
  assert (Hex : existsb (fun env => HasPrefix env "PATH=")
                  (List.filter validNameRegex environ) = true
                <-> exists e, e ∈ environ /\ HasPrefix e "PATH=" = true).
  { rewrite existsb_exists. split.
    - intros (e & Hin & Hp). apply filter_In in Hin as [Hin _].
      exists e. split; [apply list_elem_of_In, Hin|exact Hp].
    - intros (e & Hin & Hp). exists e. split; [|exact Hp].
      apply filter_In. split; [apply list_elem_of_In, Hin|].
      apply PATH_is_valid, Hp. }
  destruct (existsb (fun env => HasPrefix env "PATH=")
              (List.filter validNameRegex environ)) eqn:Hb.
  - split.
    + intros [Hin|Hin]; [|inversion Hin].
      destruct (Nat.ltb 0 _); [|inversion Hin].
      apply list_elem_of_singleton in Hin. discriminate.
    + intros Hnone. exfalso. apply Hnone, Hex. reflexivity.
  - split.
    + intros _ Hsome. apply Hex in Hsome. discriminate.
    + intros _. right. apply list_elem_of_singleton. reflexivity.
Qed.

Lemma daemonize_pure (p : Process) (w : World) : (daemonize p w).2 = w.
Proof.
  unfold daemonize. destruct (filterValidEnvVars (os_Environ p)) as [ve ws].
  destruct (os_Args p) as [|arg0 args]; [reflexivity|].
  destruct (forkExec p arg0 _ ve); reflexivity.
Qed.

(** X24. The daemon gets to listen only in the foreground, as root, outside
    a container and without the help flag, on the port of the command line,
    and only on a host whose state file loads as initialized. *)
Theorem main_listens_on_an_initialized_host (env : Env) (flags : Flags)
    (p : Process) (w w' : World) (addr : string) (printed : list Printed)
    (warnings : list Warning) :
  main_process env flags p w = (Ret (Listening addr, printed, warnings), w') ->
  isRunningInContainer p = false /\ geteuid p = 0
  /\ help flags = false /\ foreground flags = true
  /\ addr = ":" +:+ port flags
  /\ exists st, Load w' = (Ret (inl st), w') /\ Initialized st = true.
Proof.
  unfold main_process.
  destruct (isRunningInContainer p); [discriminate|].
  destruct (Nat.eqb (geteuid p) 0) eqn:Hroot; cbn [negb]; [|discriminate].
  apply Nat.eqb_eq in Hroot.
  destruct (help flags).
  { unfold showHelp. destruct (os_Args p); discriminate. }
  destruct (foreground flags); cbn [negb].
  - rewrite bind_logf. intros H.
    apply bind_inv in H as (started & w1 & Hmain & H).
    destruct started as [|code]; [|discriminate].
    rewrite bind_logf in H. injection H as <- _ _ <-.
    apply main_Serve_initialized in Hmain as (st & Hload & Hinit).
    repeat (split; [reflexivity || assumption|]).
    exists st. split; [|exact Hinit].
    apply Load_loaded. apply Load_loaded in Hload. exact Hload.
  - rewrite bind_logf. intros H.
    apply bind_inv in H as ([[[err|] pr] wr] & w1 & _ & H);
      [rewrite bind_logf in H|]; discriminate.
Qed.

Lemma main_listens_on_an_initialized_host_witness :
  let w' := (main_process env_ok flags_fg p_root w_fresh).2 in
  (main_process env_ok flags_fg p_root w_fresh).1
    = Ret (Listening ":8080", [], [])
  /\ exists st, Load w' = (Ret (inl st), w') /\ Initialized st = true.
Proof.
  intros w'.
  assert (Hrun : main_process env_ok flags_fg p_root w_fresh
                 = (Ret (Listening ":8080", [], []), w'))
    by (vm_compute; reflexivity).
  split; [rewrite Hrun; reflexivity|].
  apply (main_listens_on_an_initialized_host env_ok flags_fg p_root w_fresh w'
           ":8080" [] [] Hrun).
Defined.

(** X25. Only the foreground run of the daemon, as root and outside a
    container, touches the host. In a container, as another user, with the
    help flag, and in the parent that puts the daemon in the background,
    [main] neither writes the state file nor makes any of the calls of the
    initializer and of the handlers, however it ends. *)
Theorem main_touches_the_state_in_foreground_only (env : Env) (flags : Flags)
    (p : Process) (w : World) :
  let w' := (main_process env flags p w).2 in
  disk w' <> disk w \/ trace w' <> trace w ->
  isRunningInContainer p = false /\ geteuid p = 0
  /\ help flags = false /\ foreground flags = true.
Proof.
  cbv zeta. unfold main_process.
  destruct (isRunningInContainer p); [intros [H|H]; destruct H; reflexivity|].
  destruct (Nat.eqb (geteuid p) 0) eqn:Hroot; cbn [negb];
    [|intros [H|H]; destruct H; reflexivity].
  apply Nat.eqb_eq in Hroot.
  destruct (help flags).
  { unfold showHelp. destruct (os_Args p);
      intros [H|H]; destruct H; reflexivity. }
  destruct (foreground flags); cbn [negb]; [auto|].
  rewrite bind_logf. unfold bind.
  pose proof (daemonize_pure p
                (mkWorld (disk w) (tick w) (trace w)
                   ("Starting daemonization process" :: logs w))) as Hpure.
  destruct (daemonize p _) as [[[[[err|] printed] warnings]|msg] w1];
    cbn [snd] in Hpure; subst w1;
    intros [H|H]; destruct H; reflexivity.
Qed.

Lemma main_touches_the_state_in_foreground_only_witness :
  trace (main_process env_ok flags_fg p_root w_fresh).2 <> trace w_fresh
  /\ isRunningInContainer p_root = false /\ geteuid p_root = 0
  /\ help flags_fg = false /\ foreground flags_fg = true.
Proof.
  assert (Htrace : trace (main_process env_ok flags_fg p_root w_fresh).2
                   <> trace w_fresh)
    by (vm_compute; discriminate).
  split; [exact Htrace|].
  apply (main_touches_the_state_in_foreground_only env_ok flags_fg p_root
           w_fresh).
  right. exact Htrace.
Defined.

(** ** The kind client *)

Lemma exec_eq sh c s :
  kind.exec sh c s
    = ((snd (sh_answer sh c (sh_tick s)),
        ErrMsg <$> fst (sh_answer sh c (sh_tick s))),
       mkSession (S (sh_tick s))
         ((c, exited_ok (fst (sh_answer sh c (sh_tick s)))) :: sh_trace s)).
Proof. unfold kind.exec. destruct (sh_answer sh c (sh_tick s)). reflexivity. Qed.

Lemma sh_bind_eq {A B} (m : Sh A) (k : A -> Sh B) s :
  sh_bind m k s = k (m s).1 (m s).2.
Proof. unfold sh_bind. destruct (m s). reflexivity. Qed.

Lemma Split_nonempty s sep : Split s sep <> [].
Proof.
  destruct s as [|c s]; simpl; [discriminate|].
  case_bool_decide; [discriminate|]. destruct (Split s sep); discriminate.
Qed.

Lemma concat_cons (sep x : string) (y : string) (l : list string) :
  String.concat sep (x :: y :: l) = x +:+ sep +:+ String.concat sep (y :: l).
Proof. reflexivity. Qed.

Lemma Split_concat s : String.concat nl (Split s LF) = s.
Proof.
  induction s as [|c s IH]; [reflexivity|]. simpl Split.
  case_bool_decide as Hc.
  - subst c. pose proof (Split_nonempty s LF) as Hne.
    destruct (Split s LF) as [|y l]; [contradiction|].
    rewrite concat_cons, IH. reflexivity.
  - destruct (Split s LF) as [|y l] eqn:Hs; [destruct (Split_nonempty _ _ Hs)|].
    destruct l as [|z l].
    + simpl in *. congruence.
    + rewrite concat_cons in *. rewrite append_cons. congruence.
Qed.

Lemma Split_empty s : Split s LF = [""] <-> s = "".
Proof.
  split; [|intros ->; reflexivity].
  intros H. rewrite <- (Split_concat s), H. reflexivity.
Qed.

Lemma Split_fields s :
  Forall (fun field => LF ∉ String.list_ascii_of_string field) (Split s LF).
Proof.
  induction s as [|c s IH]; simpl.
  - constructor; [|constructor]. simpl. apply not_elem_of_nil.
  - case_bool_decide as Hc.
    + constructor; [|exact IH]. simpl. apply not_elem_of_nil.
    + destruct (Split s LF) as [|y l].
      * constructor; [|constructor]. simpl. intros Hin.
        apply list_elem_of_singleton in Hin. congruence.
      * inversion IH as [|? ? Hy Hl]; subst. constructor; [|exact Hl].
        simpl. intros Hin. apply elem_of_cons in Hin as [Hin|Hin]; [congruence|].
        contradiction.
Qed.

(** X26. When kind lists the clusters, [ListClusters] returns the lines of
    the trimmed output: no name holds a line feed, the names joined by line
    feeds are the trimmed output, and the list is empty (not one empty
    name) exactly when the trimmed output is empty. *)
Theorem ListClusters_splits_the_lines (sh : Shell)
    (TrimSpace : string -> string) (s : Session) (output : string) :
  sh_answer sh (mkCommand ["kind"; "get"; "clusters"] None) (sh_tick s)
    = (None, output) ->
  exists clusters,
    (kind.ListClusters sh TrimSpace s).1 = inl clusters
    /\ (clusters = [] <-> TrimSpace output = "")
    /\ String.concat nl clusters = TrimSpace output
    /\ Forall (fun name => LF ∉ String.list_ascii_of_string name) clusters.
Proof.
  intros Hans. unfold kind.ListClusters. rewrite sh_bind_eq, exec_eq, Hans.
  cbn [fst snd fmap option_fmap option_map].
  set (t := TrimSpace output).
  destruct (Nat.eqb (length (Split t LF)) 1
            && bool_decide (Split t LF !! 0 = Some "")) eqn:Hone.
  - apply andb_true_iff in Hone as [Hlen Hfirst].
    apply Nat.eqb_eq in Hlen. apply bool_decide_eq_true in Hfirst.
    assert (Ht : t = "").
    { apply Split_empty. destruct (Split t LF) as [|x [|y l]]; try discriminate.
      simpl in Hfirst. congruence. }
    exists []. split; [reflexivity|]. split; [split; auto|].
    split; [rewrite Ht; reflexivity|constructor].
  - exists (Split t LF). split; [reflexivity|]. split; [|split].
    + split; [intros H; destruct (Split_nonempty _ _ H)|].
      intros Ht. rewrite Ht in Hone. discriminate.
    + apply Split_concat.
    + apply Split_fields.
Qed.

Lemma ListClusters_splits_the_lines_witness :
  (kind.ListClusters sh_ok trimSpace s_start).1 = inl ["kind"; "dev1"]
  /\ exists clusters,
       (kind.ListClusters sh_ok trimSpace s_start).1 = inl clusters
       /\ String.concat nl clusters = "kind" +:+ nl +:+ "dev1".
Proof.
  split; [vm_compute; reflexivity|].
  destruct (ListClusters_splits_the_lines sh_ok trimSpace s_start
              ("kind" +:+ nl +:+ "dev1" +:+ nl) eq_refl)
    as (clusters & Hlist & _ & Hjoin & _).
  exists clusters. split; [exact Hlist|]. rewrite Hjoin.
  vm_compute. reflexivity.
Defined.

Lemma configureNodes_spec sh (nodes : list string) (s : Session) :
  exists done,
    sh_trace (kind.configureNodes sh nodes s).2 = rev done ++ sh_trace s
    /\ sh_tick (kind.configureNodes sh nodes s).2 = length done + sh_tick s
    /\ match (kind.configureNodes sh nodes s).1 with
       | None => done = all_ok (node_plan nodes)
       | Some _ =>
           exists before c,
             done = all_ok before ++ [(c, false)]
             /\ (before ++ [c]) `prefix_of` node_plan nodes
       end.
Proof.
  revert s. induction nodes as [|node nodes IH]; intros s.
  - exists []. repeat split.
  - simpl kind.configureNodes. unfold node_plan. simpl List.filter.
    case_bool_decide as Hnode; simpl negb; cbv iota.
    + apply IH.
    + rewrite sh_bind_eq, exec_eq. cbn [fst snd].
      destruct (sh_answer sh _ (sh_tick s)) as [[msg|] out1]; cbn [fst snd fmap option_fmap option_map exited_ok].
      * eexists [(_, false)]. split; [reflexivity|]. split; [reflexivity|].
        exists [], (mkCommand ["podman"; "exec"; node; "mkdir"; "-p";
                              "/etc/containerd/certs.d/localhost:5001"] None).
        split; [reflexivity|]. eexists. reflexivity.
      * rewrite sh_bind_eq, exec_eq. cbn [fst snd sh_tick sh_trace].
        destruct (sh_answer sh _ (S (sh_tick s))) as [[msg|] out2];
          cbn [fst snd fmap option_fmap option_map exited_ok].
        -- eexists [(_, true); (_, false)].
           split; [reflexivity|]. split; [reflexivity|].
           eexists [_], _. split; [reflexivity|]. eexists. reflexivity.
        -- match goal with |- context [kind.configureNodes sh nodes ?s1] =>
             destruct (IH s1) as (done & Htr & Htk & Hres)
           end.
           cbn [sh_tick sh_trace] in Htr, Htk.
           eexists ((_, true) :: (_, true) :: done).
           split; [rewrite Htr; simpl; rewrite <- !app_assoc; reflexivity|].
           split; [rewrite Htk; simpl; lia|].
           destruct (kind.configureNodes sh nodes _).1 as [e|].
           ++ destruct Hres as (before & c & -> & Hpre).
              eexists (_ :: _ :: before), c. split; [reflexivity|].
              simpl. apply prefix_cons, prefix_cons. exact Hpre.
           ++ rewrite Hres. reflexivity.
Qed.

(** X27. [connectToRegistry] configures the nodes in the order kind lists
    them, skipping empty lines: in each node it makes the directory, then
    writes the registry configuration. It returns nil exactly when the node
    list was read and every one of these commands succeeded; it has then
    run the network connect as its last command, whose failure it ignores.
    On the first command that fails it stops: the later nodes are not
    touched and the network connect is not run. *)
Theorem connectToRegistry_configures_the_nodes_in_order (sh : Shell)
    (TrimSpace : string -> string) (clusterName : string) (s : Session) :
  let getNodes := mkCommand ["kind"; "get"; "nodes"; "--name"; clusterName]
                    None in
  let connect := mkCommand ["podman"; "network"; "connect"; "kind";
                            "kind-registry"] None in
  let answer := sh_answer sh getNodes (sh_tick s) in
  let plan := node_plan (Split (TrimSpace answer.2) LF) in
  exists done,
    sh_trace (kind.connectToRegistry sh TrimSpace clusterName s).2
      = rev done ++ sh_trace s
    /\ match (kind.connectToRegistry sh TrimSpace clusterName s).1 with
       | None =>
           exists ok, done = (getNodes, true) :: all_ok plan ++ [(connect, ok)]
       | Some _ =>
           done = [(getNodes, false)]
           \/ exists before c,
                done = (getNodes, true) :: all_ok before ++ [(c, false)]
                /\ (before ++ [c]) `prefix_of` plan
       end.
Proof.
  intros getNodes connect answer plan. unfold kind.connectToRegistry.
  rewrite sh_bind_eq, exec_eq. fold getNodes. fold answer. cbn [fst snd].
  destruct answer.1 as [msg|] eqn:Hans;
    cbn [fmap option_fmap option_map exited_ok].
  { exists [(getNodes, false)]. split; [reflexivity|]. left. reflexivity. }
  rewrite sh_bind_eq.
  match goal with |- context [kind.configureNodes sh ?ns ?s1] =>
    destruct (configureNodes_spec sh ns s1) as (done & Htr & _ & Hres)
  end.
  cbn [sh_trace] in Htr. fold plan in Hres.
  destruct (kind.configureNodes sh _ _).1 as [e|].
  - destruct Hres as (before & c & -> & Hpre).
    eexists ((getNodes, true) :: _). split.
    + cbn [sh_ret fst snd]. rewrite Htr. simpl. rewrite <- app_assoc. reflexivity.
    + right. exists before, c. split; [reflexivity|exact Hpre].
  - subst done. rewrite sh_bind_eq, exec_eq. cbn [sh_ret fst snd sh_trace].
    eexists ((getNodes, true) :: all_ok plan ++ [(connect, _)]). split.
    + rewrite Htr. simpl. rewrite rev_app_distr. simpl.
      rewrite <- app_assoc. reflexivity.
    + eexists. reflexivity.
Qed.

(** X28. [CreateRegistry] starts with the inspection of the container and
    returns nil exactly when the last command it ran succeeded. It runs
    podman run exactly when that inspection fails, as its second and last
    command; it runs podman start only on a container that is there, as its
    last command; so it never does both, and a container that is there is
    never created again. *)
Theorem CreateRegistry_starts_or_creates (sh : Shell)
    (TrimSpace : string -> string) (s : Session) :
  let inspect := mkCommand ["podman"; "inspect"; "kind-registry"] None in
  let start := mkCommand ["podman"; "start"; "kind-registry"] None in
  let create := mkCommand
                  ["podman"; "run"; "-d"; "--restart=always";
                   "-p"; "127.0.0.1:5001:5000"; "--network"; "bridge";
                   "--name"; "kind-registry"; "registry:2"] None in
  let r := (kind.CreateRegistry sh TrimSpace s).1 in
  exists done exists_ last ok,
    sh_trace (kind.CreateRegistry sh TrimSpace s).2 = rev done ++ sh_trace s
    /\ done !! 0 = Some (inspect, exists_)
    /\ List.last done (inspect, exists_) = (last, ok)
    /\ (r = None <-> ok = true)
    /\ (create ∈ done.*1 <-> exists_ = false)
    /\ (start ∈ done.*1 -> exists_ = true /\ last = start)
    /\ (exists_ = false -> done = [(inspect, false); (create, ok)]).
Proof.
  intros inspect start create r. subst r. unfold kind.CreateRegistry.
  rewrite sh_bind_eq, exec_eq. fold inspect. cbn [fst snd].
  destruct (sh_answer sh inspect (sh_tick s)) as [[msg|] out0];
    cbn [fst snd fmap option_fmap option_map exited_ok sh_tick sh_trace].
  - rewrite sh_bind_eq, exec_eq. fold create.
    cbn [fst snd sh_tick sh_trace].
    destruct (sh_answer sh create (S (sh_tick s))) as [[msg1|] out1];
      cbn [fst snd fmap option_fmap option_map exited_ok sh_ret].
    + exists [(inspect, false); (create, false)], false, create, false.
      split; [reflexivity|]. split; [reflexivity|]. split; [reflexivity|].
      split; [split; discriminate|].
      split; [split; [reflexivity|intros _; set_solver]|].
      split; [|reflexivity]. intros Hin. exfalso.
      apply elem_of_cons in Hin as [Hin|Hin]; [discriminate|].
      apply list_elem_of_singleton in Hin. discriminate.
    + exists [(inspect, false); (create, true)], false, create, true.
      split; [reflexivity|]. split; [reflexivity|]. split; [reflexivity|].
      split; [split; reflexivity|].
      split; [split; [reflexivity|intros _; set_solver]|].
      split; [|reflexivity]. intros Hin. exfalso.
      apply elem_of_cons in Hin as [Hin|Hin]; [discriminate|].
      apply list_elem_of_singleton in Hin. discriminate.
  - rewrite sh_bind_eq, exec_eq. cbn [fst snd sh_tick sh_trace].
    set (running := mkCommand ["podman"; "inspect"; "-f"; "{{.State.Running}}";
                               "kind-registry"] None).
    destruct (sh_answer sh running (S (sh_tick s))) as [err1 out1].
    cbn [fst snd].
    destruct (exited_ok (ErrMsg <$> err1)
              && bool_decide (TrimSpace out1 = "true")) eqn:Hrun.
    + apply andb_true_iff in Hrun as [Hok _].
      destruct err1; [discriminate|].
      exists [(inspect, true); (running, true)], true, running, true.
      split; [reflexivity|]. split; [reflexivity|]. split; [reflexivity|].
      split; [split; reflexivity|].
      split; [split; [|discriminate]|].
      * intros Hin. exfalso.
        apply elem_of_cons in Hin as [Hin|Hin]; [discriminate|].
        apply list_elem_of_singleton in Hin. discriminate.
      * split; [|discriminate]. intros Hin. exfalso.
        apply elem_of_cons in Hin as [Hin|Hin]; [discriminate|].
        apply list_elem_of_singleton in Hin. discriminate.
    + rewrite sh_bind_eq, exec_eq. fold start. cbn [fst snd sh_tick sh_trace].
      destruct (sh_answer sh start (S (S (sh_tick s)))) as [err2 out2].
      cbn [fst snd sh_ret].
      exists [(inspect, true); (running, exited_ok err1);
              (start, exited_ok err2)], true, start, (exited_ok err2).
      split; [reflexivity|]. split; [reflexivity|]. split; [reflexivity|].
      split; [destruct err2; simpl; split; congruence|].
      split; [split; [|discriminate]|].
      * intros Hin. exfalso.
        apply elem_of_cons in Hin as [Hin|Hin]; [discriminate|].
        apply elem_of_cons in Hin as [Hin|Hin]; [discriminate|].
        apply list_elem_of_singleton in Hin. discriminate.
      * split; [auto|discriminate].
Qed.

Lemma node_plan_programs (nodes : list string) :
  Forall (fun c => program c = "podman") (node_plan nodes).
Proof.
  unfold node_plan. apply Forall_flat_map, Forall_forall.
  intros node _. repeat constructor.
Qed.

Lemma all_ok_commands (cs : list Command) : (all_ok cs).*1 = cs.
Proof.
  unfold all_ok. rewrite <- list_fmap_compose. apply list_fmap_id.
Qed.

Lemma connectToRegistry_programs (sh : Shell) (TrimSpace : string -> string)
    (clusterName : string) (s : Session) :
  exists done,
    sh_trace (kind.connectToRegistry sh TrimSpace clusterName s).2
      = rev done ++ sh_trace s
    /\ Forall (fun c => program c = "podman"
                        \/ argv c = ["kind"; "get"; "nodes"; "--name";
                                     clusterName])
         done.*1.
Proof.
  unfold kind.connectToRegistry. rewrite sh_bind_eq, exec_eq. cbn [fst snd].
  destruct (sh_answer sh _ (sh_tick s)) as [[msg|] out];
    cbn [fst snd fmap option_fmap option_map exited_ok].
  { eexists [(_, false)]. split; [reflexivity|].
    constructor; [right; reflexivity|constructor]. }
  rewrite sh_bind_eq.
  match goal with |- context [kind.configureNodes sh ?ns ?s1] =>
    destruct (configureNodes_spec sh ns s1) as (done & Htr & _ & Hres);
    pose proof (node_plan_programs ns) as Hplan
  end.
  cbn [sh_trace] in Htr.
  destruct (kind.configureNodes sh _ _).1 as [e|].
  - destruct Hres as (before & c & -> & [k Hk]).
    eexists ((_, true) :: _). split.
    + cbn [sh_ret fst snd]. rewrite Htr. simpl. rewrite <- app_assoc.
      reflexivity.
    + rewrite Hk in Hplan. apply Forall_app in Hplan as [Hplan _].
      rewrite fmap_cons, fmap_app, all_ok_commands. cbn [fst fmap list_fmap].
      constructor; [right; reflexivity|].
      eapply Forall_impl; [exact Hplan|]. intros ? ?; left; assumption.
  - subst done. rewrite sh_bind_eq, exec_eq. cbn [sh_ret fst snd sh_trace].
    eexists ((_, true) :: all_ok _ ++ [(_, _)]). split.
    + rewrite Htr. simpl. rewrite rev_app_distr. simpl.
      rewrite <- app_assoc. reflexivity.
    + rewrite fmap_cons, fmap_app, all_ok_commands. cbn [fst fmap list_fmap].
      constructor; [right; reflexivity|]. apply Forall_app. split.
      * eapply Forall_impl; [exact Hplan|]. intros ? ?; left; assumption.
      * constructor; [left; reflexivity|constructor].
Qed.

(** X29. [CreateCluster] never rolls back. Its first command is kind create
    cluster, with the configuration chosen by the registry flag. When that
    command fails an error is returned and nothing else is run; when the
    cluster is made without the registry nothing else is run and nil is
    returned. With the registry, [connectToRegistry] runs next, in the
    session the create command left, and what [CreateCluster] returns is its
    result: nil when it returns nil, and its error, under the words "failed
    to connect cluster to registry", when it fails. So nil is returned
    exactly when the cluster was created and the connection, if asked for,
    succeeded. Every command after the first reads the node list from kind
    or goes to podman: when the connection to the registry fails the error
    is returned and the cluster that was created stays. *)
Theorem CreateCluster_never_rolls_back (sh : Shell)
    (TrimSpace : string -> string) (name : string) (withRegistry : bool)
    (s : Session) :
  let create := mkCommand
                  ["kind"; "create"; "cluster"; "--name"; name; "--config"; "-"]
                  (Some (if withRegistry then kind.getClusterConfigWithRegistry
                         else kind.getBasicClusterConfig)) in
  let r := (kind.CreateCluster sh TrimSpace name withRegistry s).1 in
  let connected :=
    kind.connectToRegistry sh TrimSpace name
      (mkSession (S (sh_tick s)) ((create, true) :: sh_trace s)) in
  exists created after,
    sh_trace (kind.CreateCluster sh TrimSpace name withRegistry s).2
      = rev ((create, created) :: after) ++ sh_trace s
    /\ (r = None -> created = true)
    /\ (created = false \/ withRegistry = false -> after = [])
    /\ (withRegistry = false -> (r = None <-> created = true))
    /\ Forall (fun c => program c = "podman"
                        \/ argv c = ["kind"; "get"; "nodes"; "--name"; name])
         after.*1
    /\ (created = false -> exists e, r = Some e)
    /\ (created = true -> withRegistry = true ->
          r = Errorf "failed to connect cluster to registry: " <$> connected.1
          /\ sh_trace connected.2 = rev after ++ (create, true) :: sh_trace s)
    /\ (r = None <->
          created = true /\ (withRegistry = true -> connected.1 = None)).
Proof.
  intros create r connected. subst r connected. unfold kind.CreateCluster.
  rewrite sh_bind_eq, exec_eq. fold create. cbn [fst snd].
  destruct (sh_answer sh create (sh_tick s)) as [[msg|] out0];
    cbn [fst snd fmap option_fmap option_map exited_ok sh_ret].
  { exists false, []. split; [reflexivity|]. split; [discriminate|].
    split; [reflexivity|]. split; [split; discriminate|].
    split; [constructor|]. split; [intros _; eexists; reflexivity|].
    split; [discriminate|]. split; [discriminate|intros [? _]; discriminate]. }
  destruct withRegistry.
  2:{ exists true, []. split; [reflexivity|]. split; [reflexivity|].
      split; [reflexivity|]. split; [split; reflexivity|].
      split; [constructor|]. split; [discriminate|].
      split; [discriminate|].
      split; [intros _; split; [reflexivity|discriminate]|reflexivity]. }
  rewrite sh_bind_eq.
  match goal with |- context [kind.connectToRegistry sh TrimSpace name ?s1] =>
    destruct (connectToRegistry_programs sh TrimSpace name s1)
      as (done & Htr & Hprog)
  end.
  cbn [sh_trace] in Htr.
  exists true, done. split.
  { destruct (kind.connectToRegistry sh TrimSpace name _).1;
      cbn [sh_ret fst snd]; rewrite Htr; simpl; rewrite <- app_assoc;
      reflexivity. }
  split; [reflexivity|]. split; [intros [?|?]; discriminate|].
  split; [discriminate|]. split; [exact Hprog|]. split; [discriminate|].
  split.
  { intros _ _. split; [|exact Htr].
    destruct (kind.connectToRegistry sh TrimSpace name _).1; reflexivity. }
  destruct (kind.connectToRegistry sh TrimSpace name _).1;
    cbn [sh_ret fst snd]; split.
  - discriminate.
  - intros [_ H]. discriminate (H eq_refl).
  - intros _. split; [reflexivity|reflexivity].
  - reflexivity.
Qed.

(** On a host where kind cannot list the nodes of the cluster it has just
    made, [CreateCluster] returns the error of the connection, after two
    commands: the create, which succeeded, and the node list, which failed.
    No command removes the cluster. *)
Lemma CreateCluster_never_rolls_back_witness :
  kind.CreateCluster sh_no_nodes trimSpace "dev2" true s_start
    = (Some (ErrMsg ("failed to connect cluster to registry: " +:+
                     "failed to get cluster nodes: exit status 1")),
       mkSession 2
         [(mkCommand ["kind"; "get"; "nodes"; "--name"; "dev2"] None, false);
          (mkCommand
             ["kind"; "create"; "cluster"; "--name"; "dev2"; "--config"; "-"]
             (Some kind.getClusterConfigWithRegistry), true)])
  /\ exists e,
       (kind.CreateCluster sh_no_nodes trimSpace "dev2" true s_start).1
         = Some e.
Proof.
  split; [vm_compute; reflexivity|].
  destruct (CreateCluster_never_rolls_back sh_no_nodes trimSpace "dev2" true
              s_start) as (created & after & _ & _ & _ & _ & _ & Hfail & Hconn
                           & Hnil).
  destruct (kind.CreateCluster sh_no_nodes trimSpace "dev2" true s_start).1
    as [e|] eqn:Hr; [exists e; reflexivity|].
  apply proj1 in Hnil. destruct (Hnil eq_refl) as [_ Hc].
  discriminate (Hc eq_refl).
Defined.
